(** * FA gallery downloader: the content-acquisition pipeline

    A shallow embedding of the store interface (database-interface.js),
    the download workers (download-content.js) and the gallery walker and
    metadata harvester (scrape-data.js), followed by the properties of the
    specification that were checked against them.

    Conventions of the embedding.
    - JavaScript scalars are [value]s; arrays and objects passed to the
      store are [jsval]s.  Numbers are integers ([Z]).
    - A table row is a finite map from column names to scalars; a column
      that is absent from the map holds NULL.
    - Asynchronous functions are state-passing functions that return either
      a rejection ([inl]) or a result ([inr]); a rejection keeps the state
      reached so far, as a thrown JavaScript exception does.
    - What the outside world answers (page fetches, header probes,
      downloads, spurious engine failures) is an explicit input. *)

From stdpp Require Import gmap strings list sorting pretty.
From Stdlib Require Import ZArith Lia Ascii String.
From Equations Require Import Equations.

Open Scope string_scope.
Open Scope Z_scope.
Open Scope list_scope.

(** ** JavaScript values and the string helpers the sources rely on *)

Module Js.

Inductive value : Type :=
| VUndef
| VNull
| VBool (b : bool)
| VNum (z : Z)
| VStr (s : string).

#[global] Instance value_eq_dec : EqDecision value.
Proof. solve_decision. Defined.

(** Arguments that may be arrays or plain objects.  The fields of an object
    are listed in the order of [Object.getOwnPropertyNames]. *)
Inductive jsval : Type :=
| Prim (v : value)
| Arr (items : list value)
| Obj (fields : list (string * value)).

#[global] Instance jsval_eq_dec : EqDecision jsval.
Proof. solve_decision. Defined.

(** What a rejected promise carries. *)
Inductive exn : Type :=
| Rejected                       (* reject() with no value *)
| JsError (msg : string)         (* new Error(msg) *)
| ReferenceError (ident : string)
| TypeError (msg : string)
| SqlError (msg : string).       (* an Error raised by the engine *)

(** [!e] for a caught value. *)
Definition exn_falsy (e : exn) : bool :=
  match e with Rejected => true | _ => false end.

(** [e.message] of a caught Error object. *)
Definition exn_message (e : exn) : string :=
  match e with
  | Rejected => ""
  | JsError m | TypeError m | SqlError m => m
  | ReferenceError x => x +:+ " is not defined"
  end.

(** Truthiness, as in [if (x)], [x || y], [!x]. *)
Definition truthy (v : value) : bool :=
  match v with
  | VUndef | VNull => false
  | VBool b => b
  | VNum z => negb (z =? 0)
  | VStr s => negb (String.eqb s "")
  end.

(** [a || b] *)
Definition js_or (a b : value) : value := if truthy a then a else b.

(** [typeof v === "string"] *)
Definition is_string (v : value) : bool :=
  match v with VStr _ => true | _ => false end.

(** String coercion of a scalar, as done by template literals and
    [RegExp.prototype.test]. *)
Definition to_string (v : value) : string :=
  match v with
  | VUndef => "undefined"
  | VNull => "null"
  | VBool true => "true"
  | VBool false => "false"
  | VNum z => pretty z
  | VStr s => s
  end.

Definition chars (s : string) : list ascii := list_ascii_of_string s.
Definition unchars (l : list ascii) : string := string_of_list_ascii l.

Definition is_upper (c : ascii) : bool :=
  let n := nat_of_ascii c in (65 <=? n)%nat && (n <=? 90)%nat.
Definition is_lower (c : ascii) : bool :=
  let n := nat_of_ascii c in (97 <=? n)%nat && (n <=? 122)%nat.
Definition is_digit (c : ascii) : bool :=
  let n := nat_of_ascii c in (48 <=? n)%nat && (n <=? 57)%nat.

Definition lower (c : ascii) : ascii :=
  if is_upper c then ascii_of_nat (nat_of_ascii c + 32) else c.

(** Equality of characters up to ASCII case. *)
Definition eq_ci (c d : ascii) : bool := Ascii.eqb (lower c) (lower d).

(** [/\.$/.test(s)]: the last character is a dot. *)
Definition ends_with_dot (s : string) : bool :=
  match last (chars s) with
  | Some c => Ascii.eqb c "."
  | None => false
  end.

(** [s.replace(/\.$/, '._')] *)
Definition escape_trailing_dot (s : string) : string :=
  if ends_with_dot s then s +:+ "_" else s.

(** [/^[a-zA-Z0-9_]+$/] *)
Definition is_word_char (c : ascii) : bool :=
  is_upper c || is_lower c || is_digit c || Ascii.eqb c "_".

Definition is_word (s : string) : bool :=
  match chars s with
  | [] => false
  | cs => forallb is_word_char cs
  end.

(** White space removed by [String.prototype.trim], restricted to ASCII. *)
Definition is_space (c : ascii) : bool :=
  let n := nat_of_ascii c in
  ((9 <=? n)%nat && (n <=? 13)%nat) || (n =? 32)%nat.

(** [!s.trim()] *)
Definition blank (s : string) : bool := forallb is_space (chars s).

(** A pattern element of the two regular expressions tested on error
    messages: a literal matched without regard to case, or [.]. *)
Inductive pat_elem : Type :=
| PChar (c : ascii)
| PDot.

Definition is_line_end (c : ascii) : bool :=
  let n := nat_of_ascii c in (n =? 10)%nat || (n =? 13)%nat.

Fixpoint match_here (p : list pat_elem) (s : list ascii) : bool :=
  match p, s with
  | [], _ => true
  | _ :: _, [] => false
  | PChar c :: p', d :: s' => eq_ci c d && match_here p' s'
  | PDot :: p', d :: s' => negb (is_line_end d) && match_here p' s'
  end.

(** Unanchored search, as [RegExp.prototype.test] does. *)
Fixpoint search (p : list pat_elem) (s : list ascii) : bool :=
  match_here p s ||
  match s with
  | [] => false
  | _ :: s' => search p s'
  end.

Definition lit (s : string) : list pat_elem := PChar <$> chars s.

(** [/site.down/gi] and [/not.found/gi] *)
Definition re_site_down : list pat_elem := lit "site" ++ [PDot] ++ lit "down".
Definition re_not_found : list pat_elem := lit "not" ++ [PDot] ++ lit "found".

Definition test (p : list pat_elem) (s : string) : bool := search p (chars s).

(** [s.startsWith(p)] on character lists. *)
Fixpoint starts_with (p s : list ascii) : bool :=
  match p, s with
  | [], _ => true
  | _ :: _, [] => false
  | c :: p', d :: s' => Ascii.eqb c d && starts_with p' s'
  end.

(** [s.split(sep)] for a non-empty separator.  [skip] counts the characters
    of a separator that was just recognised and is still to be consumed;
    [cur] is the piece being read, reversed. *)
Fixpoint split_go (sep : list ascii) (skip : nat) (cur : list ascii)
    (s : list ascii) : list string :=
  match s with
  | [] => [unchars (rev cur)]
  | c :: s' =>
      match skip with
      | S k => split_go sep k cur s'
      | O =>
          if starts_with sep s
          then unchars (rev cur) :: split_go sep (List.length sep - 1) [] s'
          else split_go sep 0 (c :: cur) s'
      end
  end.

Definition split (sep s : string) : list string :=
  split_go (chars sep) 0 [] (chars s).

(** [s.replace(/_/gi, '')] *)
Definition strip_underscores (s : string) : string :=
  unchars (List.filter (fun c => negb (Ascii.eqb c "_")) (chars s)).

(** [/^https/i.test(s)] *)
Definition has_https_prefix (s : string) : bool :=
  match_here (lit "https") (chars s).

(** [s.toLowerCase()], ASCII only. *)
Definition to_lower (s : string) : string := unchars (lower <$> chars s).

(** [s.toUpperCase()], ASCII only. *)
Definition upper (c : ascii) : ascii :=
  if is_lower c then ascii_of_nat (nat_of_ascii c - 32) else c.

Definition to_upper (s : string) : string := unchars (upper <$> chars s).

(** [s.replace(/\s/gi, '%')] and [s.replace(/_/g, '%')]: every character
    of the class [p] is replaced by [c]. *)
Definition replace_chars (p : ascii → bool) (c : ascii) (s : string) : string :=
  unchars ((λ x, if p x then c else x) <$> chars s).

End Js.

Export Js.

(** ** Asynchronous computations over a state *)

Module Async.

(** A promise-returning function over a state [S]: it settles with a
    rejection or a result, and leaves the state it reached. *)
Definition M (S A : Type) : Type := S → (exn + A) * S.

Definition ret {S A} (a : A) : M S A := λ s, (inr a, s).

Definition throw {S A} (e : exn) : M S A := λ s, (inl e, s).

Definition bind {S A B} (m : M S A) (k : A → M S B) : M S B :=
  λ s, match m s with
       | (inr a, s') => k a s'
       | (inl e, s') => (inl e, s')
       end.

(** [m.catch(h)] / [try { m } catch (e) { h e }] *)
Definition catch {S A} (m : M S A) (h : exn → M S A) : M S A :=
  λ s, match m s with
       | (inl e, s') => h e s'
       | r => r
       end.

(** A loop over the elements of an array, awaiting each body. *)
Fixpoint for_each {S A} (body : A → M S unit) (l : list A) : M S unit :=
  match l with
  | [] => ret ()
  | x :: l' => bind (body x) (λ _, for_each body l')
  end.

Definition get {S} : M S S := λ s, (inr s, s).
Definition modify {S} (f : S → S) : M S unit := λ s, (inr (), f s).

End Async.

Export Async.

#[global] Instance M_ret {S} : MRet (M S) := λ A a, ret a.
#[global] Instance M_bind {S} : MBind (M S) := λ A B k m, bind m k.

(** ** The part of SQLite the store relies on *)

Module Sql.

(** [s LIKE p]: [%] matches any run of characters, [_] any single
    character, anything else itself up to ASCII case. *)
Fixpoint like (p : list ascii) : list ascii → bool :=
  match p with
  | [] => λ s, match s with [] => true | _ :: _ => false end
  | c :: p' =>
      if Ascii.eqb c "%" then
        fix star (s : list ascii) : bool :=
          like p' s || match s with [] => false | _ :: s' => star s' end
      else if Ascii.eqb c "_" then
        λ s, match s with [] => false | _ :: s' => like p' s' end
      else
        λ s, match s with [] => false | d :: s' => eq_ci c d && like p' s' end
  end.

(** Parameter binding: booleans are stored as integers, an unbound
    ([undefined]) parameter is NULL. *)
Definition bind_param (v : value) : value :=
  match v with
  | VUndef => VNull
  | VBool b => VNum (if b then 1 else 0)
  | _ => v
  end.

Definition is_null (v : value) : bool :=
  match bind_param v with VNull => true | _ => false end.

(** Three-valued conditions: [None] is SQL's NULL.  The operands of [=]
    are compared as they are: a number never equals text.  (This is the
    engine's comparison of a column with a bound value of the column's own
    type; for a bound value of the other type the engine first applies the
    affinity of the column, which is not modelled.) *)
Definition sql_eq (a b : value) : option bool :=
  match bind_param a, bind_param b with
  | VNull, _ | _, VNull => None
  | VNum x, VNum y => Some (x =? y)
  | VStr x, VStr y => Some (String.eqb x y)
  | _, _ => Some false
  end.

Definition sql_like (v : value) (pattern : string) : option bool :=
  if is_null v then None
  else Some (like (chars pattern) (chars (to_string (bind_param v)))).

Definition sql_not (a : option bool) : option bool := negb <$> a.

Definition sql_and (a b : option bool) : option bool :=
  match a, b with
  | Some false, _ | _, Some false => Some false
  | Some true, Some true => Some true
  | _, _ => None
  end.

Definition sql_or (a b : option bool) : option bool :=
  match a, b with
  | Some true, _ | _, Some true => Some true
  | Some false, Some false => Some false
  | _, _ => None
  end.

Definition is_not_null (v : value) : option bool := Some (negb (is_null v)).

(** A row is selected when the WHERE clause is true (not false, not NULL). *)
Definition holds (c : option bool) : bool :=
  match c with Some true => true | _ => false end.

(** The order of values under ORDER BY ... ASC with the BINARY collation:
    NULL, then numbers, then text compared bytewise. *)
Definition value_le (a b : value) : bool :=
  match bind_param a, bind_param b with
  | VNull, _ => true
  | _, VNull => false
  | VNum x, VNum y => x <=? y
  | VNum _, _ => true
  | _, VNum _ => false
  | VStr x, VStr y => String.leb x y
  | _, _ => true
  end.

(** [v IN (set)] *)
Definition sql_in (v : value) (set : list value) : option bool :=
  match set with
  | [] => Some false
  | _ =>
      if is_null v then None
      else if existsb (λ x, holds (sql_eq v x)) set then Some true
      else if existsb is_null set then None
      else Some false
  end.

(** [LIMIT count OFFSET offset]: a negative limit is no limit, a negative
    offset is no offset. *)
Definition paginate {A} (offset count : Z) (l : list A) : list A :=
  let l := drop (Z.to_nat offset) l in
  if count <? 0 then l else take (Z.to_nat count) l.

End Sql.

Export Sql.

Infix "&&&" := sql_and (at level 40, left associativity).
Infix "|||" := sql_or (at level 50, left associativity).

(** ** database-interface.js: the persistent store *)

Module DatabaseInterface.

Abbreviation row := (gmap string value).

(** [r.c], with NULL for a column the row does not carry. *)
Definition col (c : string) (r : row) : value := default VNull (r !! c).

(** The columns of [subdata], from the CREATE TABLE statement of [init]. *)
Definition subdata_columns : list string :=
  [ "id"; "title"; "desc"; "tags"; "url"; "is_scrap"; "date_uploaded";
    "content_url"; "content_name"; "is_content_saved"; "username";
    "account_name"; "rating"; "category"; "thumbnail_url"; "thumbnail_name";
    "is_thumbnail_saved"; "thumbnail_missing"; "content_missing";
    "moved_content"; "is_favorite"; "favorite_username"; "content_owner" ].

(** The INTEGER columns of [subdata]; the other columns are TEXT. *)
Definition integer_columns : list string :=
  [ "is_scrap"; "is_content_saved"; "is_thumbnail_saved"; "thumbnail_missing";
    "content_missing"; "moved_content"; "is_favorite" ].

(** A value that the affinity of column [c] leaves as it is bound: text in a
    TEXT column, an integer or a boolean in an INTEGER column.  (Of the
    other values the engine stores a conversion: a number bound to a TEXT
    column is stored as its text, text that reads as a number bound to an
    INTEGER column as that number.) *)
Definition fits_column (c : string) (v : value) : bool :=
  if bool_decide (c ∈ integer_columns)
  then match v with VNum _ | VBool _ => true | _ => false end
  else match v with VStr _ => true | _ => false end.

(** A freshly inserted row: the DEFAULT 0 columns. *)
Definition blank_row : row :=
  <["is_content_saved" := VNum 0]>
  (<["is_thumbnail_saved" := VNum 0]>
  (<["thumbnail_missing" := VNum 0]>
  (<["content_missing" := VNum 0]>
  (<["moved_content" := VNum 0]>
  (<["is_favorite" := VNum 0]> ∅))))).

(** A row of [favorites (id PRIMARY KEY, username, url,
    UNIQUE(username, url) ON CONFLICT REPLACE)]. *)
Record fav : Type := Fav {
  fav_id : value;
  fav_username : value;
  fav_url : value }.

(** The database: the two tables the pipeline writes, the snapshot taken
    by an open transaction, and the schedule of spurious statement failures
    ([true] makes the next statement fail with SQLITE_BUSY and no effect). *)
Record db : Type := Db {
  subdata : list row;
  favorites : list fav;
  txn : option (list row * list fav);
  faults : list bool }.

Definition with_subdata (t : list row) (d : db) : db :=
  Db t (favorites d) (txn d) (faults d).
Definition with_favorites (t : list fav) (d : db) : db :=
  Db (subdata d) t (txn d) (faults d).

(** *** The engine *)

Definition busy : exn := SqlError "SQLITE_BUSY: database is locked".

Definition next_fault (d : db) : bool * db :=
  match faults d with
  | [] => (false, d)
  | b :: bs => (b, Db (subdata d) (favorites d) (txn d) bs)
  end.

(** [db.run(statement)]: a failed statement has no effect on the tables. *)
Definition run (f : db → exn + db) : M db unit :=
  λ d, let '(b, d1) := next_fault d in
       if b then (inl busy, d1)
       else match f d1 with
            | inl e => (inl e, d1)
            | inr d2 => (inr (), d2)
            end.

(** [db.all(query)] and [db.get(query)]. *)
Definition all {A} (q : db → A) : M db A :=
  λ d, let '(b, d1) := next_fault d in
       if b then (inl busy, d1) else (inr (q d1), d1).

Definition begin_transaction (d : db) : exn + db :=
  match txn d with
  | Some _ =>
      inl (SqlError "SQLITE_ERROR: cannot start a transaction within a transaction")
  | None => inr (Db (subdata d) (favorites d) (Some (subdata d, favorites d)) (faults d))
  end.

Definition commit (d : db) : exn + db :=
  match txn d with
  | None => inl (SqlError "SQLITE_ERROR: cannot commit - no transaction is active")
  | Some _ => inr (Db (subdata d) (favorites d) None (faults d))
  end.

(** ROLLBACK restores the snapshot; it fails only when no transaction is
    open and is not subject to the failure schedule. *)
Definition rollback : M db unit :=
  λ d, match txn d with
       | None =>
           (inl (SqlError "SQLITE_ERROR: cannot rollback - no transaction is active"), d)
       | Some (s, f) => (inr (), Db s f None (faults d))
       end.

(** [SET c1 = ?, c2 = ?, ...] applied to one row.  A value is stored as it
    is bound, which is what the engine does with the values the pipeline
    writes ([fits_column]); the conversions of column affinity are not
    modelled. *)
Definition assign (sets : list (string * value)) (r : row) : row :=
  foldl (λ acc kv, <[kv.1 := bind_param kv.2]> acc) r sets.

(** The names under which a table that declares no column of that name,
    as [subdata] does, gives access to the rowid of a row. *)
Definition rowid_names : list string := ["rowid"; "oid"; "_rowid_"].

(** The column a name of a SET clause resolves to.  Names are matched
    without regard to case; a rowid name resolves to the rowid, kept under
    the hidden name [rowid], which no query of the store selects.  (The
    engine accepts as a new rowid only an integer that no other row has, and
    keeps the table in the order of the rowids; the table does not record
    the rowids the engine assigns, so neither is modelled, and no property
    below depends on what a statement that writes the rowid does.) *)
Definition resolve_column (k : string) : option string :=
  let k' := to_lower k in
  if decide (k' ∈ subdata_columns) then Some k'
  else if decide (k' ∈ rowid_names) then Some "rowid"
  else None.

Definition resolve_sets (sets : list (string * value)) : option (list (string * value)) :=
  mapM (λ kv, c ← resolve_column kv.1; Some (c, kv.2)) sets.

(** Another row already holds the (non-NULL) value [r] has in column [c]. *)
Definition conflict (c : string) (r : row) (others : list row) : bool :=
  existsb (λ o, holds (sql_eq (col c o) (col c r))) others.

(** UPDATE, row by row.  Writing [id] (PRIMARY KEY) to a value another row
    holds aborts the statement; writing [url] (UNIQUE ON CONFLICT IGNORE) to
    a value another row holds skips that row. *)
Fixpoint update_rows (sets : list (string * value)) (p : row → bool)
    (chk_id chk_url : bool) (done todo : list row) : exn + list row :=
  match todo with
  | [] => inr done
  | r :: rest =>
      if p r then
        let r' := assign sets r in
        if chk_id && conflict "id" r' (done ++ rest) then
          inl (SqlError "SQLITE_CONSTRAINT: UNIQUE constraint failed: subdata.id")
        else if chk_url && conflict "url" r' (done ++ rest) then
          update_rows sets p chk_id chk_url (done ++ [r]) rest
        else update_rows sets p chk_id chk_url (done ++ [r']) rest
      else update_rows sets p chk_id chk_url (done ++ [r]) rest
  end.

Definition writes (c : string) (sets : list (string * value)) : bool :=
  existsb (λ kv, String.eqb kv.1 c) sets.

(** [UPDATE subdata SET sets WHERE p] *)
Definition exec_update (sets : list (string * value)) (p : row → bool)
    (d : db) : exn + db :=
  match sets with
  | [] => inl (SqlError "SQLITE_ERROR: incomplete input")
  | _ =>
      match resolve_sets sets with
      | None => inl (SqlError "SQLITE_ERROR: no such column")
      | Some sets' =>
          match update_rows sets' p (writes "id" sets') (writes "url" sets')
                  [] (subdata d) with
          | inl e => inl e
          | inr t => inr (with_subdata t d)
          end
      end
  end.

(** [DELETE FROM subdata WHERE p] *)
Definition exec_delete (p : row → bool) (d : db) : exn + db :=
  inr (with_subdata (filter (λ r, ¬ p r) (subdata d)) d).

(** [SELECT cols FROM subdata WHERE p] in table order. *)
Definition project (cols : list string) (r : row) : row :=
  filter (λ kv, kv.1 ∈ cols) r.

Definition select (cols : list string) (p : row → bool) (t : list row) : list row :=
  project cols <$> filter (λ r, Is_true (p r)) t.

(** [ORDER BY c ASC|DESC]; rows that tie keep their table order. *)
Definition order_by (c : string) (desc : bool) (t : list row) : list row :=
  if desc
  then merge_sort (λ a b, Is_true (value_le (col c b) (col c a))) t
  else merge_sort (λ a b, Is_true (value_le (col c a) (col c b))) t.

(** [(?,?,...,?)] with [n] marks *)
Definition marks (n : nat) : string :=
  "(" +:+ String.concat "," (replicate n "?") +:+ ")".

(** The flat parameter list cut back into [k] tuples of [n] values. *)
Fixpoint chunks (k n : nat) (l : list value) : list (list value) :=
  match k with
  | O => []
  | S k' => take n l :: chunks k' n (drop n l)
  end.

Definition field (c : string) (tuple : list (string * value)) : value :=
  match List.find (λ kv, String.eqb kv.1 c) tuple with
  | Some kv => bind_param kv.2
  | None => VNull
  end.

Definition insert_subdata_row (t : list row) (tuple : list (string * value))
    : exn + list row :=
  let r := assign tuple blank_row in
  if conflict "id" r t then
    inl (SqlError "SQLITE_CONSTRAINT: UNIQUE constraint failed: subdata.id")
  else if conflict "url" r t then inr t
  else inr (t ++ [r]).

Definition same_pair (a b : fav) : bool :=
  holds (sql_eq (fav_username a) (fav_username b)) &&
  holds (sql_eq (fav_url a) (fav_url b)).

(** The PRIMARY KEY check aborts before the REPLACE resolution of the
    (username, url) pair deletes anything. *)
Definition insert_favorites_row (t : list fav) (tuple : list (string * value))
    : exn + list fav :=
  let f := Fav (field "id" tuple) (field "username" tuple) (field "url" tuple) in
  if existsb (λ o, holds (sql_eq (fav_id o) (fav_id f))) t then
    inl (SqlError "SQLITE_CONSTRAINT: UNIQUE constraint failed: favorites.id")
  else inr (filter (λ o, ¬ same_pair o f) t ++ [f]).

(** All rows of a multi-row INSERT, or none of them. *)
Fixpoint insert_rows {R} (ins : list R → list (string * value) → exn + list R)
    (t : list R) (tuples : list (list (string * value))) : exn + list R :=
  match tuples with
  | [] => inr t
  | tu :: rest =>
      match ins t tu with
      | inl e => inl e
      | inr t' => insert_rows ins t' rest
      end
  end.

Definition favorites_columns : list string := ["id"; "username"; "url"].

(** The text handed to the engine by [genericInsert]. *)
Definition insert_query (table : string) (columns : list string)
    (placeholders : list string) : string :=
  "INSERT INTO " +:+ table +:+ " (" +:+ String.concat ", " columns +:+ ") VALUES "
  +:+ String.concat "," placeholders.

(** [INSERT INTO table (columns) VALUES placeholders]; a VALUES keyword
    followed by nothing does not parse. *)
Definition exec_insert (table : string) (columns : list string)
    (placeholders : list string) (data : list value) (d : db) : exn + db :=
  match placeholders with
  | [] => inl (SqlError "SQLITE_ERROR: incomplete input")
  | _ :: _ =>
      let n := List.length columns in
      if negb (forallb (String.eqb (marks n)) placeholders) then
        inl (SqlError "SQLITE_ERROR: wrong number of values for the columns")
      else if negb (List.length data =? n * List.length placeholders)%nat then
        inl (SqlError "SQLITE_RANGE: column index out of range")
      else
        let tuples := zip columns <$> chunks (List.length placeholders) n data in
        if String.eqb table "subdata" then
          if forallb (λ c, bool_decide (c ∈ subdata_columns)) columns then
            match insert_rows insert_subdata_row (subdata d) tuples with
            | inl e => inl e
            | inr t => inr (with_subdata t d)
            end
          else inl (SqlError "SQLITE_ERROR: no such column")
        else if String.eqb table "favorites" then
          if forallb (λ c, bool_decide (c ∈ favorites_columns)) columns then
            match insert_rows insert_favorites_row (favorites d) tuples with
            | inl e => inl e
            | inr t => inr (with_favorites t d)
            end
          else inl (SqlError "SQLITE_ERROR: no such column")
        else inl (SqlError "SQLITE_ERROR: no such table")
  end.

(** *** The exported operations *)

(** What an operation resolves with: [null], or the engine's RunResult. *)
Inductive outcome : Type := Null | RunResult.

Definition validateInput (data : jsval) (expectedType : string) : bool :=
  match data with
  | Prim VUndef | Prim VNull => false
  | _ =>
      if String.eqb expectedType "string" then
        match data with Prim (VStr _) => true | _ => false end
      else if String.eqb expectedType "number" then
        match data with Prim (VNum _) => true | _ => false end
      else if String.eqb expectedType "boolean" then
        match data with Prim (VBool _) => true | _ => false end
      else if String.eqb expectedType "array" then
        match data with Arr _ => true | _ => false end
      else if String.eqb expectedType "object" then
        match data with Obj _ => true | _ => false end
      else true
  end.

(** [table], [columns], [placeholders] and [data] have the validated types
    by construction; [columns] is the comma-separated list of the source. *)
Definition genericInsert (table : string) (columns : list string)
    (placeholders : list string) (data : list value) : M db unit :=
  catch (run (exec_insert table columns placeholders data))
        (λ error, throw error).

Definition deleteSubmission (url : value) : M db unit :=
  catch
    (if negb (validateInput (Prim url) "string")
     then throw (JsError "Invalid URL for deletion")
     else run (exec_delete (λ r, holds (sql_eq (col "url" r) url))))
    (λ error, throw error).

Definition setContentSaved (content_url : value) : M db unit :=
  catch
    (if negb (validateInput (Prim content_url) "string")
     then throw (JsError "Invalid content URL for saving status update")
     else run (exec_update
                 [("is_content_saved", VNum 1); ("moved_content", VNum 1)]
                 (λ r, holds (sql_eq (col "content_url" r) content_url))))
    (λ error, throw error).

Definition setContentNotSaved (content_url : value) : M db unit :=
  catch
    (if negb (validateInput (Prim content_url) "string")
     then throw (JsError "Invalid content URL for not-saved status update")
     else run (exec_update
                 [("is_content_saved", VNum 0); ("moved_content", VNum 1)]
                 (λ r, holds (sql_eq (col "content_url" r) content_url))))
    (λ error, throw error).

Definition setContentMoved (content_name : value) : M db unit :=
  catch
    (if negb (validateInput (Prim content_name) "string")
     then throw (JsError "Invalid content name for moved status update")
     else run (exec_update
                 [("moved_content", VNum 1)]
                 (λ r, holds (sql_eq (col "content_name" r) content_name))))
    (λ error, throw error).

Definition setContentMissing (content_name : value) : M db unit :=
  catch
    (if negb (validateInput (Prim content_name) "string")
     then throw (JsError "Invalid content name for missing status update")
     else run (exec_update
                 [("content_missing", VNum 1)]
                 (λ r, holds (sql_eq (col "content_name" r) content_name))))
    (λ error, throw error).

Definition setThumbnailMissing (thumbnail_url : value) : M db unit :=
  catch
    (if negb (validateInput (Prim thumbnail_url) "string")
     then throw (JsError "Invalid thumbnail URL for missing status update")
     else run (exec_update
                 [("thumbnail_missing", VNum 1)]
                 (λ r, holds (sql_eq (col "thumbnail_url" r) thumbnail_url))))
    (λ error, throw error).

Definition setThumbnailSaved (url thumbnail_url thumbnail_name : value) : M db unit :=
  catch
    (if negb (validateInput (Prim url) "string"
              && validateInput (Prim thumbnail_url) "string"
              && validateInput (Prim thumbnail_name) "string")
     then throw (JsError "Invalid parameters for thumbnail saved update")
     else run (exec_update
                 [("is_thumbnail_saved", VNum 1);
                  ("thumbnail_url", thumbnail_url);
                  ("thumbnail_name", thumbnail_name)]
                 (λ r, holds (sql_eq (col "url" r) url))))
    (λ error, throw error).

(** The filter of [saveMetaData]: a property is written when its value is
    neither undefined nor null and its name matches [/^[a-zA-Z0-9_]+$/]. *)
Definition keep_field (kv : string * value) : bool :=
  match kv.2 with
  | VUndef | VNull => false
  | _ => is_word kv.1
  end.

Definition saveMetaData (url : value) (d : jsval) : M db outcome :=
  catch
    (if negb (validateInput (Prim url) "string" && validateInput d "object")
     then throw (JsError "Invalid parameters for metadata update")
     else
       let queryNames :=
         List.filter keep_field (match d with Obj fs => fs | _ => [] end) in
       match queryNames with
       | [] => mret Null
       | _ :: _ =>
           run (exec_update queryNames
                  (λ r, holds (sql_eq (col "url" r) url)));;
           mret RunResult
       end)
    (λ error, throw error).

(** [isScraps = false] default parameter. *)
Definition default_false (v : value) : value :=
  match v with VUndef => VBool false | _ => v end.

Definition saveLinks (links : list value) (isScraps username : value) : M db unit :=
  let isScraps := default_false isScraps in
  let placeholder := (λ _, marks 4) <$> links in
  let data := links ≫= (λ val, [val; username; isScraps; VBool false]) in
  genericInsert "subdata" ["url"; "username"; "is_scrap"; "is_content_saved"]
    placeholder data.

Definition mark_favorite (username url : value) : db → exn + db :=
  exec_update [("is_favorite", VNum 1); ("favorite_username", username)]
    (λ r, holds (sql_eq (col "url" r) url)).

Definition saveFavorites (username : value) (links : jsval) : M db outcome :=
  match links with
  | Arr ((_ :: _) as ls) =>
      if negb (validateInput (Prim username) "string") then mret Null
      else
        catch
          (run begin_transaction;;
           let valid := List.filter (λ val, validateInput (Prim val) "string") ls in
           let placeholder := (λ _, marks 3) <$> valid in
           let data :=
             valid ≫= (λ val,
               [VStr (to_string username +:+ "_" +:+ to_string val); username; val]) in
           match placeholder with
           | [] => rollback;; mret Null
           | _ :: _ =>
               genericInsert "favorites" ["id"; "username"; "url"] placeholder data;;
               for_each
                 (λ url, if validateInput (Prim url) "string"
                         then run (mark_favorite username url)
                         else mret ())
                 ls;;
               run commit;;
               mret RunResult
           end)
          (λ error, rollback;; throw error)
  | _ => mret Null
  end.

Definition unmoved (r : row) : bool :=
  holds (sql_eq (col "is_content_saved" r) (VNum 1)
         &&& sql_eq (col "moved_content" r) (VNum 0)).

Definition getAllUnmovedContentData : M db (list row) :=
  all (λ d, select ["content_url"; "content_name"; "username"; "account_name"]
              unmoved (subdata d)).

(** The optional owner filter of the unsaved-content query. *)
Definition name_query (name : value) (r : row) : option bool :=
  if truthy name && validateInput (Prim name) "string" then
    let pattern := "%" +:+ to_string name +:+ "%" in
    sql_like (col "username" r) pattern ||| sql_like (col "account_name" r) pattern
  else is_not_null (col "username" r).

Definition unsaved_content (name : value) (r : row) : bool :=
  holds (sql_eq (col "is_content_saved" r) (VNum 0)
         &&& sql_eq (col "content_missing" r) (VNum 0)
         &&& is_not_null (col "content_url" r)
         &&& sql_not (sql_like (col "content_name" r) "%.")
         &&& name_query name r).

Definition getAllUnsavedContent (name : value) : M db (list row) :=
  catch
    (all (λ d, select ["content_url"; "content_name"; "username"; "account_name"; "url"]
                 (unsaved_content name)
                 (order_by "content_name" true (subdata d))))
    (λ error, throw error).

Definition unsaved_thumbnail (r : row) : bool :=
  holds (sql_eq (col "is_thumbnail_saved" r) (VNum 0)
         &&& is_not_null (col "username" r)
         &&& sql_eq (col "thumbnail_missing" r) (VNum 0)
         &&& (sql_like (col "content_url" r) "%/stories/%"
              ||| sql_like (col "content_url" r) "%/music/%"
              ||| sql_like (col "content_url" r) "%/poetry/%")).

Definition getAllUnsavedThumbnails : M db (list row) :=
  catch
    (all (λ d, select ["url"; "content_url"; "username"; "thumbnail_url"; "account_name"; "id"]
                 unsaved_thumbnail
                 (order_by "content_name" true (subdata d))))
    (λ error, throw error).

(** [SELECT url FROM subdata WHERE id IS null ORDER BY url DESC] *)
Definition getSubmissionLinks : M db (list row) :=
  all (λ d, select ["url"] (λ r, is_null (col "id" r))
              (order_by "url" true (subdata d))).

Definition getAllSubmissionsForUser (username : value) : M db (list row) :=
  catch
    (if negb (validateInput (Prim username) "string")
     then throw (JsError "Invalid username for submission retrieval")
     else all (λ d, select subdata_columns
                      (λ r, holds ((sql_eq (col "username" r) username
                                    ||| sql_eq (col "account_name" r) username)
                                   &&& sql_eq (col "is_content_saved" r) (VNum 1)
                                   &&& is_not_null (col "id" r)))
                      (order_by "content_name" false (subdata d))))
    (λ error, throw error).

(** [db.get]: the first matching row, if any. *)
Definition getSubmissionOwner (url : value) : M db (option row) :=
  all (λ d, head (select ["username"; "account_name"]
                    (λ r, holds (sql_eq (col "content_url" r) url
                                 ||| sql_eq (col "url" r) url))
                    (subdata d))).

Definition invalid_file (r : row) : bool :=
  holds (sql_like (col "content_name" r) "%."
         &&& sql_eq (col "is_content_saved" r) (VNum 1)).

Definition getAllInvalidFiles : M db (list row) :=
  all (λ d, select ["id"; "content_name"; "content_url"; "username"; "account_name"; "url"]
              invalid_file (subdata d)).

(** [DELETE FROM favorites WHERE p] *)
Definition exec_delete_favorites (p : fav → bool) (d : db) : exn + db :=
  inr (with_favorites (filter (λ f, ¬ p f) (favorites d)) d).

(** [deleteAccount(name)]: two statements, neither validated nor wrapped
    in a transaction. *)
Definition deleteAccount (name : value) : M db unit :=
  run (exec_delete (λ r, holds (sql_eq (col "account_name" r) name
                                ||| sql_eq (col "username" r) name)));;
  run (exec_delete_favorites (λ f, holds (sql_eq (fav_username f) name))).

(** [SELECT DISTINCT username FROM favorites WHERE username IS NOT NULL
    ORDER BY username ASC]; each row has the one column [username]. *)
Definition getAllFavUsernames : M db (list row) :=
  catch
    (all (λ d,
       (λ v, ({[ "username" := v ]} : row)) <$>
         merge_sort (λ a b, Is_true (value_le a b))
           (remove_dups
              (filter (λ v, Is_true (negb (is_null v)))
                 (fav_username <$> favorites d)))))
    (λ error, throw error).

(** The [query] argument of [getGalleryPage], destructured. *)
Record gallery_query : Type := GalleryQuery {
  q_username : value;
  q_searchTerm : value;
  q_galleryType : value }.

Definition gallery_columns : list string :=
  [ "id"; "title"; "username"; "account_name"; "content_name"; "content_url";
    "date_uploaded"; "is_content_saved"; "thumbnail_name"; "is_thumbnail_saved";
    "rating"; "is_favorite"; "favorite_username"; "content_owner" ].

(** [(title LIKE ? OR tags LIKE ? OR desc LIKE ? OR content_name LIKE ?)] *)
Definition matches_search (pattern : string) (r : row) : option bool :=
  sql_like (col "title" r) pattern ||| sql_like (col "tags" r) pattern
  ||| sql_like (col "desc" r) pattern ||| sql_like (col "content_name" r) pattern.

(** [url IN (SELECT url FROM favorites f WHERE f.username LIKE ?)] *)
Definition favorite_of (pattern : string) (d : db) (r : row) : option bool :=
  sql_in (col "url" r)
    (fav_url <$> filter (λ f, Is_true (holds (sql_like (fav_username f) pattern)))
                   (favorites d)).

(** [(username LIKE ? OR account_name LIKE ?)] *)
Definition owned_by (pattern : string) (r : row) : option bool :=
  sql_like (col "username" r) pattern ||| sql_like (col "account_name" r) pattern.

(** The number bound to a parameter that passed the [number] check. *)
Definition number_of (v : value) : Z :=
  match v with VNum z => z | _ => 0 end.

(** [getGalleryPage(offset = 0, count = 25, query = {}, sortOrder = 'DESC')] *)
Definition getGalleryPage (offset count : value) (query : gallery_query)
    (sortOrder : value) : M db (list row) :=
  let offset := match offset with VUndef => VNum 0 | _ => offset end in
  let count := match count with VUndef => VNum 25 | _ => count end in
  let sortOrder := match sortOrder with VUndef => VStr "DESC" | _ => sortOrder end in
  catch
    (if negb (validateInput (Prim offset) "number"
              && validateInput (Prim count) "number")
     then throw (JsError "Invalid pagination parameters")
     else
       order ← match sortOrder with
               | VStr s => mret s
               | _ => throw (TypeError "sortOrder.toUpperCase is not a function")
               end;
       let desc := negb (String.eqb (to_upper order) "ASC") in
       search ←
         (if truthy (q_searchTerm query) then
            match q_searchTerm query with
            | VStr s =>
                mret (matches_search ("%" +:+ replace_chars is_space "%" s +:+ "%"))
            | _ => throw (TypeError "searchTerm.replace is not a function")
            end
          else mret (λ _, Some true));
       owner ←
         (if truthy (q_galleryType query) && truthy (q_username query) then
            match q_username query with
            | VStr s =>
                mret (favorite_of
                        ("%" +:+ replace_chars (Ascii.eqb "_") "%" s +:+ "%"))
            | _ => throw (TypeError "username.replace is not a function")
            end
          else if truthy (q_username query) then
            mret (λ _, owned_by ("%" +:+ to_string (q_username query) +:+ "%"))
          else mret (λ _ _, Some true));
       all (λ d,
         project gallery_columns <$>
           paginate (number_of offset) (number_of count)
             (filter (λ r, Is_true (holds (is_not_null (col "id" r)
                                           &&& search r &&& owner d r)))
                (order_by "content_name" desc (subdata d)))))
    (λ error, throw error).

End DatabaseInterface.

(** ** The process-wide state shared by the workers *)

Module World.

Import DatabaseInterface.

(** A path is the list of segments handed to [join]. *)
Abbreviation path := (list string).

(** What a loop did besides touching the store and the files. *)
Inductive event : Type :=
| Fetched (url : string)
| Waited (ms : Z)
| WaitedRandom (lo hi : Z)
| Reported (found fresh skipped : Z).

Record world : Type := World {
  store : db;
  files : list path;
  stop_now : bool;             (* [stop.now] *)
  trace : list event }.

Definition with_store (d : db) (w : world) : world :=
  World d (files w) (stop_now w) (trace w).
Definition with_files (f : list path) (w : world) : world :=
  World (store w) f (stop_now w) (trace w).
Definition with_stop (b : bool) (w : world) : world :=
  World (store w) (files w) b (trace w).

(** A store operation run by a worker. *)
Definition on_store {A} (m : M db A) : M world A :=
  λ w, let '(r, d) := m (store w) in (r, with_store d w).

Definition emit (e : event) : M world unit :=
  modify (λ w, World (store w) (files w) (stop_now w) (trace w ++ [e])).

(** [waitFor(ms)] and [waitFor(random.int(lo, hi))] *)
Definition waitFor (ms : Z) : M world unit := emit (Waited ms).
Definition waitForRandom (lo hi : Z) : M world unit := emit (WaitedRandom lo hi).

(** [fs.existsSync(p)] for the path of a file; directories are not part
    of [files]. *)
Definition existsSync (p : path) (w : world) : bool := bool_decide (p ∈ files w).

Definition create_file (p : path) : M world unit :=
  modify (λ w, if existsSync p w then w else with_files (files w ++ [p]) w).

(** [fs.remove] / [fs.removeSync]: removing what is absent is not an error. *)
Definition remove (p : path) : M world unit :=
  modify (λ w, with_files (filter (λ q, q ≠ p) (files w)) w).

(** [$ARTIST_DIR] comes from constants.js and is kept symbolic. *)
Definition ARTIST_DIR : string := "$ARTIST_DIR".

(** [join(...segments)] of node:path, for segments that are plain names:
    not empty, not [.] or [..], without a separator.  (Other segments are
    normalised by node:path, which is not modelled: the segments are kept
    as they are.) *)
Definition join (segments : list string) : path := segments.

End World.

(** ** download-content.js: the download workers and the reconciler *)

Module DownloadContent.

Import DatabaseInterface World.

Definition maxRetries : nat := 5.

(** How one transfer ends. *)
Inductive transfer : Type :=
| Finished                     (* the write stream emits [finish] *)
| StreamError                  (* the download stream emits [error] *)
| WriteError.                  (* the write stream emits [error] *)

(** What the outside answers during one call of [downloadSetup]. *)
Record attempt : Type := Attempt {
  raised : bool;               (* another loop has set [stop.now] by now *)
  url_exists : bool;           (* [urlExists(content_url)] *)
  site_active : bool;          (* [isSiteActive()] *)
  dir_ok : bool;               (* [fs.ensureDir] succeeds *)
  outcome_of_transfer : transfer }.

(** Reading [stop.now], which another loop may have raised meanwhile. *)
Definition observe_stop (a : attempt) : M world bool :=
  λ w, let w' := if raised a then with_stop true w else w in
       (inr (stop_now w'), w').

(** [!username || typeof username !== "string" || !username.trim()] *)
Definition no_username (username : value) : bool :=
  negb (truthy username) ||
  match username with
  | VStr s => blank s
  | _ => true
  end.

(** The arguments of [path.join] must be strings. *)
Definition segment (v : value) : M world string :=
  match v with
  | VStr s => mret s
  | _ => throw (TypeError "The path argument must be of type string")
  end.

(** [downloadSetup({ content_url, content_name, username, subfolder,
    retryCount })]; [net k] is what the outside answers to the call made
    with [retryCount = k].  It resolves with [false] or [undefined]. *)
Equations? downloadSetup (net : nat → attempt)
    (content_url content_name username : value) (subfolder : string)
    (retryCount : nat) : M world value
    by wf (maxRetries - retryCount)%nat lt :=
downloadSetup net content_url content_name username subfolder retryCount :=
  stopped ← observe_stop (net retryCount);
  if (stopped : bool) then mret (VBool false)
  else if no_username username then
    throw (JsError "Username missing for download path")
  else
    user ← segment username;
    let downloadLocation := join [ARTIST_DIR; user; subfolder] in
    if ends_with_dot (to_string content_name) then throw Rejected
    else if url_exists (net retryCount) then
      name ← segment content_name;
      let fileLocation := join (downloadLocation ++ [name]) in
      (if dir_ok (net retryCount) then mret ()
       else throw (JsError "EACCES: permission denied"));;
      catch
        (create_file fileLocation;;
         match outcome_of_transfer (net retryCount) with
         | Finished => mret VUndef
         | StreamError | WriteError => throw Rejected
         end)
        (λ _,
           remove fileLocation;;
           match decide (retryCount < maxRetries)%nat with
           | left _ =>
               downloadSetup net content_url content_name username subfolder
                 (S retryCount)
           | right _ => mret VUndef
           end)
    else if negb (site_active (net retryCount)) then throw (JsError "Site down")
    else throw (JsError "Not found").
Proof. unfold maxRetries in *. lia. Qed.

(** [downloadSpecificContent(row)] *)
Definition downloadSpecificContent (net : nat → attempt) (r : row) : M world unit :=
  stopped ← observe_stop (net 0%nat);
  if (stopped : bool) then mret ()
  else
    let account_name :=
      js_or (js_or (col "account_name" r) (col "username" r)) (VStr "") in
    if no_username account_name then mret ()
    else
      let subfolder :=
        if truthy (col "is_favorite" r) then "favorites"
        else if truthy (col "is_scrap" r) then "scraps"
        else "gallery" in
      catch
        (downloadSetup net (col "content_url" r) (col "content_name" r)
           (VStr (escape_trailing_dot (to_string account_name))) subfolder 0;;
         on_store (setContentSaved (col "content_url" r)))
        (λ e,
           if exn_falsy e then mret ()
           else if test re_site_down (exn_message e) then modify (with_stop true)
           else if test re_not_found (exn_message e) then
             (* the call is not awaited: its own rejection is not observed *)
             catch (on_store (setContentMissing (col "content_name" r)))
                   (λ _, mret ())
           else mret ()).

(** [deleteInvalidFiles()] *)
Definition deleteInvalidFiles : M world unit :=
  brokenFiles ← on_store getAllInvalidFiles;
  for_each
    (λ f,
       account ← segment (col "account_name" f);
       name ← segment (col "content_name" f);
       remove (join [ARTIST_DIR; account; "gallery"; name]);;
       on_store (setContentNotSaved (col "content_url" f)))
    brokenFiles.

(** What [getHTML(contentUrl)] answers to [downloadThumbnail]: no page, or
    a page and the [src] of its [#submissionImg], if it has one. *)
Inductive thumb_page : Type :=
| NoPage
| Page (src : option string).

(** [downloadThumbnail({ thumbnail_url, url: contentUrl, account_name })] *)
Definition downloadThumbnail (page : thumb_page) (net : nat → attempt)
    (r : row) : M world unit :=
  stopped ← observe_stop (net 0%nat);
  if (stopped : bool) then mret ()
  else
    let contentUrl := col "url" r in
    found ←
      (let content_url := js_or (col "thumbnail_url" r) (VStr "") in
       if truthy content_url then mret (Some content_url)
       else
         emit (Fetched (to_string contentUrl));;
         match page with
         | NoPage => mret None
         | Page src =>
             let content_url := default "" src in
             mret (Some (VStr (if truthy (VStr content_url)
                               then "https:" +:+ content_url
                               else content_url)))
         end);
    match found with
    | None => mret ()
    | Some content_url =>
        if negb (truthy content_url) then mret ()
        else
          text ← match content_url with
                 | VStr s => mret s
                 | _ => throw (TypeError "content_url.split is not a function")
                 end;
          let content_name := default "" (last (split "/" text)) in
          account ← match col "account_name" r with
                    | VStr s => mret s
                    | _ => throw (TypeError "account_name.replace is not a function")
                    end;
          catch
            (downloadSetup net content_url (VStr content_name)
               (VStr (escape_trailing_dot account)) "thumbnail" 0;;
             on_store (setThumbnailSaved contentUrl content_url (VStr content_name)))
            (λ e,
               if exn_falsy e then mret ()
               else if test re_site_down (exn_message e) then modify (with_stop true)
               else if test re_not_found (exn_message e) then
                 (* the call is not awaited: its own rejection is not observed *)
                 catch (on_store (setThumbnailMissing content_url)) (λ _, mret ())
               else mret ())
    end.

(** The loop of [startUserContentDownloads(data)]: each row comes with what
    the outside answers to its download. *)
Fixpoint user_download_loop (data : list (row * (nat → attempt))) : M world unit :=
  match data with
  | [] => mret ()
  | (r, net) :: rest =>
      w ← get;
      if stop_now w then mret ()
      else
        downloadSpecificContent net r;;
        waitForRandom 2000 4000;;
        user_download_loop rest
  end.

End DownloadContent.

(** ** scrape-data.js: the gallery walker and the metadata harvester *)

Module ScrapeData.

Import DatabaseInterface World.

Definition maxRetries : nat := 6.

(** [FA_URL_BASE] comes from constants.js and is kept symbolic. *)
Definition FA_URL_BASE : string := "$FA_URL_BASE".

(** No binding of [downloadDir] is in scope in scrape-data.js: the module
    neither declares nor imports it. *)
Definition downloadDir : option string := None.

(** The answer to [getHTML(url).catch(() => false)]. *)
Inductive fetched (A : Type) : Type :=
| Failed
| Loaded (page : A).
Arguments Failed {A}.
Arguments Loaded {A} page.

(** [v === s] for a string [s]. *)
Definition strict_eq_str (v : value) (s : string) : bool :=
  match v with VStr x => String.eqb x s | _ => false end.

Definition isSubmissionProcessed (submissionUrl : string) (username : value)
    : M world bool :=
  if negb (truthy (VStr submissionUrl)) then mret false
  else
    catch
      (existingSubmission ← on_store (getSubmissionOwner (VStr submissionUrl));
       match existingSubmission with
       | None => mret false
       | Some owner =>
           catch
             (submissions ←
                on_store (getAllSubmissionsForUser
                            (js_or (col "username" owner) (col "account_name" owner)));
              match List.find
                      (λ sub, strict_eq_str (col "url" sub) submissionUrl
                              || strict_eq_str (col "content_url" sub) submissionUrl)
                      submissions with
              | None => mret false
              | Some matchingSubmission =>
                  if negb (truthy (col "is_content_saved" matchingSubmission))
                  then mret false
                  else if truthy (col "content_name" matchingSubmission)
                          && truthy username then
                    match downloadDir with
                    | None => throw (ReferenceError "downloadDir")
                    | Some dir =>
                        user ← DownloadContent.segment username;
                        name ← DownloadContent.segment
                                 (col "content_name" matchingSubmission);
                        let userDir := join [dir; escape_trailing_dot user] in
                        w ← get;
                        mret (existsSync (userDir ++ [name]) w
                              || existsSync (userDir ++ [user +:+ "_Favorites"; name]) w)
                    end
                  else mret false
              end)
             (λ innerError, mret false)
       end)
      (λ error, mret false).

(** The links of one listing page and the target of its "next" button. *)
Record listing : Type := Listing {
  hrefs : list string;         (* [figcaption a[href^="/view"]] *)
  next_href : option string }. (* [.pagination a.right] *)

(** [for (const link of scrapedLinks) if (!(await isSubmissionProcessed(...)))] *)
Fixpoint filter_unprocessed (username : value) (scrapedLinks : list string)
    : M world (list string) :=
  match scrapedLinks with
  | [] => mret []
  | link :: rest =>
      processed ← isSubmissionProcessed link username;
      kept ← filter_unprocessed username rest;
      mret (if (processed : bool) then kept else link :: kept)
  end.

(** The code after the loop. *)
Definition finish (currLinks newLinks : Z) : M world (option unit) :=
  w ← get;
  (if stop_now w then mret ()
   else emit (Reported currLinks newLinks (currLinks - newLinks)));;
  mret (Some ()).

(** The next value of [nextPage] in a favorites walk; [None] leaves the
    loop. *)
Definition next_page (url : string) (page : listing) : option string :=
  match next_href page with
  | Some h =>
      if String.eqb h "" then None
      else Some (default "" (head (split "/favorite" url)) +:+ h)
  | None => None
  end.

(** The loop of [getSubmissionLinks]; each iteration consumes one answer of
    [script].  The result is [None] when the loop asks for more answers
    than [script] holds. *)
Fixpoint walk (url username : string) (isScraps isFavorites : bool)
    (script : list (fetched listing))
    (currPageCount currLinks newLinks : Z) (nextPage : string)
    (retryCount : nat) : M world (option unit) :=
  w ← get;
  if stop_now w then finish currLinks newLinks
  else
    match script with
    | [] => mret None
    | answer :: script' =>
        let pageUrl :=
          if String.eqb nextPage "" then url +:+ pretty currPageCount
          else nextPage in
        emit (Fetched pageUrl);;
        match answer with
        | Failed =>
            let retryCount := S retryCount in
            if (retryCount <? maxRetries)%nat then
              waitFor (30 * Z.of_nat retryCount * 1000);;
              walk url username isScraps isFavorites script'
                currPageCount currLinks newLinks nextPage retryCount
            else
              modify (with_stop true);;
              mret (Some ())
        | Loaded page =>
            let scrapedLinks := (λ h, FA_URL_BASE +:+ h) <$> hrefs page in
            match scrapedLinks with
            | [] => finish currLinks newLinks
            | _ :: _ =>
                filteredLinks ← filter_unprocessed (VStr username) scrapedLinks;
                let newLinks := newLinks + Z.of_nat (List.length filteredLinks) in
                let advance (currLinks : Z) : M world (option unit) :=
                  let currPageCount := currPageCount + 1 in
                  if isFavorites then
                    match next_page url page with
                    | Some nextPage =>
                        waitForRandom 1000 2500;;
                        walk url username isScraps isFavorites script'
                          currPageCount currLinks newLinks nextPage 0
                    | None => finish currLinks newLinks
                    end
                  else
                    waitForRandom 1000 2500;;
                    walk url username isScraps isFavorites script'
                      currPageCount currLinks newLinks nextPage 0 in
                match filteredLinks with
                | [] => advance currLinks
                | _ :: _ =>
                    saved ←
                      catch
                        (on_store (saveLinks (VStr <$> filteredLinks)
                                     (VBool isScraps) (VStr username));;
                         mret true)
                        (λ _, mret false);
                    w ← get;
                    if negb saved || stop_now w then finish currLinks newLinks
                    else
                      (if isFavorites && truthy (VStr username) then
                         on_store (saveFavorites (VStr username)
                                     (Arr (VStr <$> filteredLinks)));;
                         for_each
                           (λ link,
                              catch
                                (on_store
                                   (saveMetaData (VStr link)
                                      (Obj [("is_favorite", VNum 1);
                                            ("favorite_username", VStr username)]));;
                                 mret ())
                                (λ _, mret ()))
                           filteredLinks
                       else mret ());;
                      advance (currLinks + newLinks)
                end
            end
        end
    end.

(** [getSubmissionLinks({ url, username, isScraps, isFavorites })] *)
Definition getSubmissionLinks (url username : string) (isScraps isFavorites : bool)
    (script : list (fetched listing)) : M world (option unit) :=
  walk url username isScraps isFavorites script 1 0 0 "" 0.

(** What the selectors of [scrapeSubmissionInfo] find on a detail page that
    carries a [.submission-title]. *)
Record submission_page : Type := SubmissionPage {
  p_title : string;               (* [.submission-title] text *)
  p_owner : string;               (* [.submission-title + a] text *)
  p_desc : option string;         (* [.submission-description] html *)
  p_tags : value;                 (* the joined tag matches, or undefined *)
  p_download : option string;     (* [.download > a] href *)
  p_date_title : option string;   (* [.popup_date] title *)
  p_date_text : string;           (* [.popup_date] text *)
  p_thumbnail : option string;    (* [#submissionImg] src *)
  p_rating : string;
  p_category : string;
  p_comments : option exn }.      (* how [scrapeComments($, id)] fails, if it does *)

(** The answer to one [getHTML(links[index].url)]. *)
Inductive detail : Type :=
| NoResponse                      (* the fetch is rejected *)
| Deleted                         (* no title; the "not in our database" text *)
| Untitled                        (* no title; any other body *)
| Submission (page : submission_page).

Fixpoint drop_spaces (s : list ascii) : list ascii :=
  match s with
  | c :: s' => if is_space c then drop_spaces s' else s
  | [] => []
  end.

(** [s.trim()], ASCII white space only. *)
Definition trim (s : string) : string :=
  unchars (rev (drop_spaces (rev (drop_spaces (chars s))))).

(** [/ago$/i.test(s)] *)
Definition ends_with_ago (s : string) : bool :=
  match_here (lit "oga") (rev (chars s)).

Definition undefined_access {A} : M world A :=
  throw (TypeError "Cannot read properties of undefined").

Definition required {A} (o : option A) : M world A :=
  match o with Some a => mret a | None => undefined_access end.

(** [if (!/^https/i.test(u)) u = 'https:' + u] *)
Definition absolute (u : string) : string :=
  if has_https_prefix u then u else "https:" +:+ u.

(** The [data] object built from a loaded page for the link [url]. *)
Definition extract (url : value) (page : submission_page) : M world jsval :=
  date_title ← required (p_date_title page);
  let date := trim date_title in
  let date := if ends_with_ago date then trim (p_date_text page) else date in
  let username := to_lower (trim (p_owner page)) in
  link ← (match url with VStr u => mret u | _ => undefined_access end);
  tail ← required (split "view/" link !! 1%nat);
  let id := default "" (head (split "/" tail)) in
  desc ← required (p_desc page);
  href ← required (p_download page);
  let content_name := default "" (last (split "/" href)) in
  let thumbnail_url := default "" (p_thumbnail page) in
  mret (Obj
    [ ("id", VStr id);
      ("title", VStr (trim (p_title page)));
      ("username", VStr username);
      ("account_name", VStr (strip_underscores username));
      ("desc", VStr (trim desc));
      ("tags", p_tags page);
      ("content_name", VStr content_name);
      ("content_url", VStr (absolute href));
      ("date_uploaded", VStr date);
      ("thumbnail_url",
        VStr (if truthy (VStr thumbnail_url) then absolute thumbnail_url
              else thumbnail_url));
      ("rating", VStr (trim (p_rating page)));
      ("category", VStr (trim (p_category page)));
      ("content_owner", VStr username) ]).

(** [scrapeComments($, data.id)] with the page at hand: no fetch is made;
    the comment table is outside this model. *)
Definition scrapeComments (page : submission_page) : M world unit :=
  match p_comments page with
  | Some e => throw e
  | None => mret ()
  end.

(** The loop of [scrapeSubmissionInfo]; each iteration consumes one answer
    of [script].  The result is [None] when the loop asks for more answers
    than [script] holds. *)
Fixpoint harvest (downloadComments : bool) (links : list row)
    (script : list detail) (index retryCount : nat) : M world (option unit) :=
  w ← get;
  match links !! index with
  | None => mret (Some ())
  | Some link =>
      if stop_now w then mret (Some ())
      else
        match script with
        | [] => mret None
        | answer :: script' =>
            let url := col "url" link in
            emit (Fetched (to_string url));;
            loaded ←
              match answer with
              | NoResponse => mret None
              | Deleted =>
                  (* not awaited: a rejection of the call is not observed *)
                  catch (on_store (deleteSubmission url)) (λ _, mret ());;
                  mret None
              | Untitled => mret None
              | Submission page => mret (Some page)
              end;
            match loaded with
            | None =>
                let retryCount := S retryCount in
                (* [retryCount < maxRetries / 2] *)
                if (2 * retryCount <? maxRetries)%nat then
                  waitFor (30 * Z.of_nat retryCount * 1000);;
                  harvest downloadComments links script' index retryCount
                else
                  waitForRandom 2000 3500;;
                  harvest downloadComments links script' (S index) 0
            | Some page =>
                data ← extract url page;
                on_store (saveMetaData url data);;
                (if downloadComments then scrapeComments page else mret ());;
                let index := S index in
                (if (index mod 2 =? 1)%nat then waitForRandom 1000 2500
                 else mret ());;
                harvest downloadComments links script' index 0
            end
        end
  end.

(** [scrapeSubmissionInfo({ data, downloadComments })] *)
Definition scrapeSubmissionInfo (data : option (list row)) (downloadComments : bool)
    (script : list detail) : M world (option unit) :=
  links ←
    match data with
    | Some l => mret l
    | None => on_store DatabaseInterface.getSubmissionLinks
    end;
  w ← get;
  match links with
  | [] => mret (Some ())
  | _ :: _ =>
      if stop_now w then mret (Some ())
      else harvest downloadComments links script 0 0
  end.

End ScrapeData.

(** ** The store operations issued by the pipeline *)

Module Pipeline.

Import DatabaseInterface.

(** The property names of the [data] object of [scrapeSubmissionInfo]. *)
Definition harvest_keys : list string :=
  [ "id"; "title"; "username"; "account_name"; "desc"; "tags";
    "content_name"; "content_url"; "date_uploaded"; "thumbnail_url";
    "rating"; "category"; "content_owner" ].

(** Every write the walker, the harvester, the workers and the reconciler
    make to [subdata], with the arguments they can pass. *)
Inductive op : Type :=
| SetContentSaved (content_url : value)
| SetContentNotSaved (content_url : value)
| SetContentMoved (content_name : value)
| SetContentMissing (content_name : value)
| SetThumbnailSaved (url thumbnail_url thumbnail_name : value)
| SetThumbnailMissing (thumbnail_url : value)
| SaveLinks (links : list value) (isScraps username : value)
| SaveFavorites (username : value) (links : jsval)
| SaveHarvest (url : value) (data : list value)
| MarkFavorite (link username : value)
| DeleteSubmission (url : value).

#[global] Instance op_eq_dec : EqDecision op.
Proof. solve_decision. Defined.

Definition step (o : op) : M db unit :=
  match o with
  | SetContentSaved u => setContentSaved u
  | SetContentNotSaved u => setContentNotSaved u
  | SetContentMoved n => setContentMoved n
  | SetContentMissing n => setContentMissing n
  | SetThumbnailSaved u t n => setThumbnailSaved u t n
  | SetThumbnailMissing t => setThumbnailMissing t
  | SaveLinks l s u => saveLinks l s u
  | SaveFavorites u l => saveFavorites u l;; mret ()
  | SaveHarvest u data => saveMetaData u (Obj (zip harvest_keys data));; mret ()
  | MarkFavorite l u =>
      saveMetaData l (Obj [("is_favorite", VNum 1); ("favorite_username", u)]);;
      mret ()
  | DeleteSubmission u => deleteSubmission u
  end.

(** The store after a sequence of operations, whether they were fulfilled
    or rejected. *)
Definition exec (ops : list op) (d : db) : db :=
  foldl (λ d o, (step o d).2) d ops.

End Pipeline.

(** ** Vocabulary of the properties *)

Module Spec.

Import DatabaseInterface World.

(** [d'] holds the same tables and transaction state as [d]. *)
Definition same_tables (d d' : db) : Prop :=
  subdata d' = subdata d ∧ favorites d' = favorites d ∧ txn d' = txn d.

(** A Hoare triple for a promise-returning function: from a state in [P]
    it is fulfilled in [Q] or rejected in [E]. *)
Definition hoare {S A} (P : S → Prop) (m : M S A)
    (Q : A → S → Prop) (E : exn → S → Prop) : Prop :=
  ∀ s, P s → match m s with
             | (inr a, s') => Q a s'
             | (inl e, s') => E e s'
             end.

(** What an UPDATE with assignments [sets] and condition [p] may do to one
    row. *)
Definition updated (sets : list (string * value)) (p : row → bool)
    (r r' : row) : Prop :=
  r' = r ∨ (p r = true ∧ r' = assign sets r).

(** [r'] is the same submission as [r] and is still flagged in column [c]
    if [r] was. *)
Definition keeps (c : string) (r r' : row) : Prop :=
  col "url" r' = col "url" r ∧ (col c r = VNum 1 → col c r' = VNum 1).

(** The submission [u] is recorded, and every record of it is flagged in
    column [c]. *)
Definition flagged (c u : string) (t : list row) : Prop :=
  (∃ r, r ∈ t ∧ col "url" r = VStr u) ∧
  (∀ r, r ∈ t → col "url" r = VStr u → col c r = VNum 1).

(** Assignments that leave [url] alone and can only raise the flag [c]. *)
Definition safe_sets (c : string) (sets : list (string * value)) : bool :=
  forallb (λ kv, negb (String.eqb kv.1 "url")
                 && (negb (String.eqb kv.1 c)
                     || bool_decide (bind_param kv.2 = VNum 1))) sets.

(** The flags the specification calls sticky, and [moved_content]. *)
Definition sticky (c : string) : Prop :=
  c = "content_missing" ∨ c = "thumbnail_missing" ∨ c = "moved_content".

(** Outside a transaction, the submission [u] is recorded and flagged in
    column [c]. *)
Definition recorded (c u : string) (d : db) : Prop :=
  txn d = None ∧ flagged c u (subdata d).

(** The tuples [saveFavorites] inserts for the valid urls of its list. *)
Definition fav_tuples (username : value) (valid : list value)
    : list (list (string * value)) :=
  (λ val, [ ("id", VStr (to_string username +:+ "_" +:+ to_string val));
            ("username", username); ("url", val) ]) <$> valid.

(** The relation [saveFavorites] records for the url [val]. *)
Definition fav_of (username val : value) : fav :=
  Fav (VStr (to_string username +:+ "_" +:+ to_string val))
      (bind_param username) (bind_param val).

(** The flag updates of [saveFavorites] on one row, url after url. *)
Definition mark_row (username : value) (ls : list value) (r : row) : row :=
  foldl (λ r url,
           if validateInput (Prim url) "string"
              && holds (sql_eq (col "url" r) url)
           then assign [("is_favorite", VNum 1); ("favorite_username", username)] r
           else r)
        r ls.

(** A row is marked as a favorite of [username]. *)
Definition is_marked (username : value) (r : row) : Prop :=
  col "is_favorite" r = VNum 1 ∧ col "favorite_username" r = bind_param username.

(** The state inside the transaction opened on tables [s] and [f], and the
    state once it was rolled back, or never begun. *)
Definition in_txn (s : list row) (f : list fav) (d : db) : Prop :=
  txn d = Some (s, f).

Definition restored (s : list row) (f : list fav) (d : db) : Prop :=
  txn d = None ∧ subdata d = s ∧ favorites d = f.

(** The effect of [setContentSaved] and of [setContentNotSaved] on the rows
    that carry the given content url. *)
Definition saved_row (content_url : value) (r : row) : row :=
  if holds (sql_eq (col "content_url" r) content_url)
  then assign [("is_content_saved", VNum 1); ("moved_content", VNum 1)] r
  else r.

Definition reset_row (content_url : value) (r : row) : row :=
  if holds (sql_eq (col "content_url" r) content_url)
  then assign [("is_content_saved", VNum 0); ("moved_content", VNum 1)] r
  else r.

(** Where [deleteInvalidFiles] looks for the file of a record. *)
Definition location (f : row) : path :=
  join [ARTIST_DIR; to_string (col "account_name" f); "gallery";
        to_string (col "content_name" f)].

(** One iteration of the loop of [deleteInvalidFiles] on a reliable
    engine. *)
Definition prune_step (w : world) (f : row) : world :=
  World (with_subdata (reset_row (col "content_url" f) <$> subdata (store w)) (store w))
        (filter (λ q, q ≠ location f) (files w))
        (stop_now w) (trace w).

(** All the resets of a pass of [deleteInvalidFiles] on one row. *)
Definition reset_all (broken : list row) (r : row) : row :=
  foldl (λ r f, reset_row (col "content_url" f) r) r broken.

(** The columns [deleteInvalidFiles] reads hold text. *)
Definition text_columns (r : row) : Prop :=
  is_string (col "account_name" r) = true ∧
  is_string (col "content_name" r) = true ∧
  is_string (col "content_url" r) = true.

(** The world after a loop logged the events [es]. *)
Definition logged (es : list event) (w : world) : world :=
  World (store w) (files w) (stop_now w) (trace w ++ es).

(** An attempt whose probe succeeds and whose transfer fails, with no
    cancellation raised. *)
Definition failing (a : DownloadContent.attempt) : Prop :=
  DownloadContent.raised a = false ∧
  DownloadContent.url_exists a = true ∧
  DownloadContent.dir_ok a = true ∧
  DownloadContent.outcome_of_transfer a ≠ DownloadContent.Finished.

(** An attempt whose probe and transfer succeed. *)
Definition succeeding (a : DownloadContent.attempt) : Prop :=
  DownloadContent.raised a = false ∧
  DownloadContent.url_exists a = true ∧
  DownloadContent.dir_ok a = true ∧
  DownloadContent.outcome_of_transfer a = DownloadContent.Finished.

(** A row the content worker can download: an owner, a file name without
    trailing dot and a content url, all text. *)
Definition downloadable (r : row) (owner name content_url : string) : Prop :=
  col "account_name" r = VStr owner ∧ blank owner = false ∧
  col "content_name" r = VStr name ∧ ends_with_dot name = false ∧
  col "content_url" r = VStr content_url.

(** The folder [downloadSpecificContent] picks for a row. *)
Definition subfolder_of (r : row) : string :=
  if truthy (col "is_favorite" r) then "favorites"
  else if truthy (col "is_scrap" r) then "scraps"
  else "gallery".

(** No record of the link [link], by url or by content url, has its
    content saved: the link is unknown, or known and not yet downloaded. *)
Definition not_downloaded (link : string) (d : db) : Prop :=
  ∀ r, r ∈ subdata d →
       col "url" r = VStr link ∨ col "content_url" r = VStr link →
       holds (sql_eq (col "is_content_saved" r) (VNum 1)) = false.

(** The urls of the rows a poll resolved with. *)
Definition polled_urls {S} (res : (exn + list row) * S) : option (list value) :=
  match res.1 with
  | inr rows => Some (col "url" <$> rows)
  | inl _ => None
  end.

(** The record [saveLinks] inserts for a link. *)
Definition link_row (isScraps username val : value) : row :=
  assign [ ("url", val); ("username", username);
           ("is_scrap", default_false isScraps);
           ("is_content_saved", VBool false) ] blank_row.

(** The table after [INSERT OR IGNORE] of the record of one link. *)
Definition add_link (isScraps username : value) (t : list row) (val : value)
    : list row :=
  if conflict "url" (link_row isScraps username val) t then t
  else t ++ [link_row isScraps username val].

(** The counters [(totalLinks, newLinks)] of the walker after pages that
    show the given numbers of links, none of them filtered out. *)
Definition tally_from (c : Z * Z) (pages : list nat) : Z * Z :=
  foldl (λ c k, (c.1 + (c.2 + Z.of_nat k), c.2 + Z.of_nat k)) c pages.

Definition tally (pages : list nat) : Z * Z := tally_from (0, 0) pages.

(** The world once the records of the url [u] are deleted. *)
Definition deleted_from (u : string) (w : world) : world :=
  World (with_subdata (filter (λ r, col "url" r ≠ VStr u) (subdata (store w)))
           (store w))
        (files w) (stop_now w) (trace w).


End Spec.

(** ** Sample data *)

Module Samples.

Import DatabaseInterface World Spec Pipeline.

Definition empty_db : db := Db [] [] None [].

(** A row with the given columns and the defaults of the schema. *)
Definition mk_row (columns : list (string * value)) : row :=
  assign columns blank_row.

(** A harvested, not yet downloaded submission. *)
Definition art : row :=
  mk_row [ ("url", VStr "https://fa/view/1/"); ("id", VStr "1");
           ("username", VStr "bob"); ("account_name", VStr "bob");
           ("content_url", VStr "https://d.fa/art/bob/art.png");
           ("content_name", VStr "art.png") ].

Definition art_db : db := Db [art] [] None [].

Definition art_world : world := World art_db [] false [].

(** Every transfer fails. *)
Definition always_failing (k : nat) : DownloadContent.attempt :=
  DownloadContent.Attempt false true true true DownloadContent.StreamError.

(** The first two transfers fail, the third one succeeds. *)
Definition third_time_lucky (k : nat) : DownloadContent.attempt :=
  DownloadContent.Attempt false true true true
    (if (k <? 2)%nat then DownloadContent.StreamError
     else DownloadContent.Finished).

(** The row of [art] as the content worker gets it from its poll. *)
Definition queued_art : row :=
  project ["content_url"; "content_name"; "username"; "account_name"; "url"] art.

(** A field set with one column and one name that is no column. *)
Definition mixed_fields : list (string * value) :=
  [("title", VStr "A title"); ("bad-key", VNum 1)].

(** A story marked missing, content and thumbnail. *)
Definition lost_story : row :=
  mk_row [ ("url", VStr "https://fa/view/2/"); ("id", VStr "2");
           ("username", VStr "bob"); ("account_name", VStr "bob");
           ("content_url", VStr "https://d.fa/stories/bob/tale.txt");
           ("content_name", VStr "tale.txt");
           ("content_missing", VNum 1); ("thumbnail_missing", VNum 1) ].

Definition lost_db : db := Db [art; lost_story] [] None [].

Definition later_writes : list op :=
  [ SetContentSaved (VStr "https://d.fa/stories/bob/tale.txt");
    SetContentNotSaved (VStr "https://d.fa/stories/bob/tale.txt");
    SetContentMoved (VStr "tale.txt");
    SetThumbnailSaved (VStr "https://fa/view/2/") (VStr "https://t.fa/2.jpg")
      (VStr "2.jpg");
    SaveLinks [VStr "https://fa/view/2/"; VStr "https://fa/view/3/"]
      (VBool false) (VStr "bob");
    SaveHarvest (VStr "https://fa/view/2/")
      [ VStr "2"; VStr "Tale"; VStr "bob"; VStr "bob"; VStr ""; VUndef;
        VStr "tale.txt"; VStr "https://d.fa/stories/bob/tale.txt";
        VStr "Jan 1, 2020"; VStr ""; VStr "General"; VStr "Story"; VStr "bob" ];
    MarkFavorite (VStr "https://fa/view/2/") (VStr "alice");
    SaveFavorites (VStr "alice") (Arr [VStr "https://fa/view/2/"]);
    DeleteSubmission (VStr "https://fa/view/1/") ].

(** The story is deleted by the harvester, found again by a walk and
    harvested again. *)
Definition relisted : list op :=
  [ DeleteSubmission (VStr "https://fa/view/2/");
    SaveLinks [VStr "https://fa/view/2/"] (VBool false) (VStr "bob");
    SaveHarvest (VStr "https://fa/view/2/")
      [ VStr "2"; VStr "Tale"; VStr "bob"; VStr "bob"; VStr ""; VUndef;
        VStr "tale.txt"; VStr "https://d.fa/stories/bob/tale.txt";
        VStr "Jan 1, 2020"; VStr ""; VStr "General"; VStr "Story"; VStr "bob" ] ].

(** A favorites batch with one entry that is not a string. *)
Definition fav_links : list value :=
  [VStr "https://fa/view/1/"; VNull; VStr "https://fa/view/2/"].

(** A record saved under a name that ends in a dot, and its file. *)
Definition dotted : row :=
  mk_row [ ("url", VStr "https://fa/view/4/"); ("id", VStr "4");
           ("username", VStr "bob"); ("account_name", VStr "bob");
           ("content_url", VStr "https://d.fa/art/bob/pic.");
           ("content_name", VStr "pic.");
           ("is_content_saved", VNum 1) ].

Definition dotted_world : world :=
  World (Db [art; dotted] [] None [])
        [[ARTIST_DIR; "bob"; "gallery"; "pic."]] false [].

(** A detail page of the harvester. *)
Definition tale_page : ScrapeData.submission_page :=
  ScrapeData.SubmissionPage "Tale" "Bob" (Some "A tale.") (VStr "tale,story")
    (Some "//d.fa/stories/bob/tale.txt") (Some "Jan 1, 2020 10:00 AM")
    "5 years ago" None "General" "Story" None.

(** Two discovered links: the page of the first never loads. *)
Definition two_links : list row :=
  [ mk_row [("url", VStr "https://fa/view/7/")];
    mk_row [("url", VStr "https://fa/view/8/")] ].

Definition two_links_world : world :=
  World (Db two_links [] None []) [] false [].

(** The scenario of the specification: a first listing page with twenty
    links, five of which were discovered by an earlier walk and not yet
    harvested, and an empty second page. *)
Definition view (n : nat) : string := "/view/" +:+ pretty n +:+ "/".

Definition page1 : ScrapeData.listing :=
  ScrapeData.Listing (view <$> seq 1 20) None.

Definition page2 : ScrapeData.listing := ScrapeData.Listing [] None.

Definition known_links : list value :=
  (λ n, VStr (ScrapeData.FA_URL_BASE +:+ view n)) <$> seq 1 5.

Definition walk_start : world :=
  World (saveLinks known_links (VBool false) (VStr "artist") empty_db).2
        [] false [].

Definition walk_end : (exn + option unit) * world :=
  ScrapeData.getSubmissionLinks "https://fa/gallery/artist/" "artist" false false
    [ScrapeData.Loaded page1; ScrapeData.Loaded page2] walk_start.

(** Two links of a listing page: the first is in [art_db], the second is
    not. *)
Definition new_links : list value :=
  [VStr "https://fa/view/1/"; VStr "https://fa/view/3/"].

(** [art_db] with a transaction open on the connection. *)
Definition open_db : db := Db [art] [] (Some ([], [])) [].

(** [art] is a favorite of alice. *)
Definition fav_db : db :=
  Db [art] [fav_of (VStr "alice") (VStr "https://fa/view/1/")] None [].

(** The same, on an engine whose second statement fails. *)
Definition flaky_db : db :=
  Db [art] [fav_of (VStr "alice") (VStr "https://fa/view/1/")] None [false; true].



(** Every transfer succeeds. *)
Definition always_succeeding (k : nat) : DownloadContent.attempt :=
  DownloadContent.Attempt false true true true DownloadContent.Finished.

(** Transfers fail up to the sixth attempt; a seventh would succeed. *)
Definition seventh_time_lucky (k : nat) : DownloadContent.attempt :=
  if (k <=? 5)%nat then always_failing k else always_succeeding k.



(** A detail page without description. *)
Definition torn_page : ScrapeData.submission_page :=
  ScrapeData.SubmissionPage "Tale" "Bob" None (VStr "tale,story")
    (Some "//d.fa/stories/bob/tale.txt") (Some "Jan 1, 2020 10:00 AM")
    "5 years ago" None "General" "Story" None.

End Samples.

(** * Properties of the embedding *)

Import DatabaseInterface World Spec.

(** ** The engine *)

Lemma same_tables_refl d : same_tables d d.
Proof. by repeat split. Qed.

Lemma same_tables_trans d1 d2 d3 :
  same_tables d1 d2 → same_tables d2 d3 → same_tables d1 d3.
Proof. intros (?&?&?) (?&?&?). repeat split; congruence. Qed.

Lemma next_fault_same d : same_tables d (next_fault d).2.
Proof. unfold next_fault. destruct d as [s f t [|b bs]]; by repeat split. Qed.

Lemma next_fault_reliable d : faults d = [] → next_fault d = (false, d).
Proof. unfold next_fault. by intros ->. Qed.

Lemma run_reliable f d :
  faults d = [] →
  run f d = match f d with inl e => (inl e, d) | inr d2 => (inr (), d2) end.
Proof. intros H. unfold run. by rewrite next_fault_reliable. Qed.

Lemma all_reliable {A} (q : db → A) d : faults d = [] → all q d = (inr (q d), d).
Proof. intros H. unfold all. by rewrite next_fault_reliable. Qed.

(** A statement either fails spuriously, leaving the tables alone, or is
    executed on the tables as they are. *)
Lemma run_cases f d :
  ∃ d1, same_tables d d1 ∧
    (run f d = (inl busy, d1) ∨
     run f d = match f d1 with inl e => (inl e, d1) | inr d2 => (inr (), d2) end).
Proof.
  exists (next_fault d).2. split; [apply next_fault_same|].
  unfold run. destruct (next_fault d) as [[] d1]; simpl; auto.
Qed.

Lemma all_cases {A} (q : db → A) d :
  ∃ d1, same_tables d d1 ∧ (all q d = (inl busy, d1) ∨ all q d = (inr (q d1), d1)).
Proof.
  exists (next_fault d).2. split; [apply next_fault_same|].
  unfold all. destruct (next_fault d) as [[] d1]; simpl; auto.
Qed.

(** ** Hoare rules *)

Section Rules.
Context {S : Type}.
Implicit Types P : S → Prop.
Implicit Types E : exn → S → Prop.

Lemma hoare_ret {A} (a : A) P (Q : A → S → Prop) E :
  (∀ s, P s → Q a s) → hoare P (mret a) Q E.
Proof. intros H s Hs. by apply H. Qed.

Lemma hoare_throw {A} e P (Q : A → S → Prop) E :
  (∀ s, P s → E e s) → hoare P (throw e) Q E.
Proof. intros H s Hs. by apply H. Qed.

Lemma hoare_bind {A B} (m : M S A) (k : A → M S B) P Q (R : B → S → Prop) E :
  hoare P m Q E → (∀ a, hoare (Q a) (k a) R E) → hoare P (m ≫= k) R E.
Proof.
  intros Hm Hk s Hs. specialize (Hm s Hs).
  unfold mbind, M_bind, bind. destruct (m s) as [[e|a] s']; [done|].
  by apply Hk.
Qed.

Lemma hoare_catch {A} (m : M S A) h P (Q : A → S → Prop) E' E :
  hoare P m Q E' → (∀ e, hoare (E' e) (h e) Q E) → hoare P (catch m h) Q E.
Proof.
  intros Hm Hh s Hs. specialize (Hm s Hs).
  unfold catch. destruct (m s) as [[e|a] s']; [|done].
  by apply Hh.
Qed.

Lemma hoare_conseq {A} (m : M S A) P P' (Q Q' : A → S → Prop) E E' :
  hoare P' m Q' E' →
  (∀ s, P s → P' s) → (∀ a s, Q' a s → Q a s) → (∀ e s, E' e s → E e s) →
  hoare P m Q E.
Proof.
  intros Hm HP HQ HE s Hs. specialize (Hm s (HP s Hs)).
  destruct (m s) as [[e|a] s']; auto.
Qed.

End Rules.

(** ** Rows *)

(** Membership, or not, of a literal in a literal list. *)
Ltac in_list := apply (bool_decide_unpack _); by vm_compute.

Lemma col_insert_eq c v (r : row) : col c (<[c := v]> r) = v.
Proof. unfold col. by rewrite lookup_insert_eq. Qed.

Lemma col_insert_ne c c' v (r : row) : c ≠ c' → col c' (<[c := v]> r) = col c' r.
Proof. intros H. unfold col. by rewrite lookup_insert_ne. Qed.

Lemma assign_snoc sets kv (r : row) :
  assign (sets ++ [kv]) r = <[kv.1 := bind_param kv.2]> (assign sets r).
Proof. unfold assign. by rewrite foldl_app. Qed.

(** A column that no assignment names keeps its value. *)
Lemma col_assign_other c sets (r : row) :
  c ∉ sets.*1 → col c (assign sets r) = col c r.
Proof.
  induction sets as [|kv sets IH] using rev_ind; [done|].
  rewrite fmap_app, assign_snoc. intros [Hc1 Hc2]%not_elem_of_app.
  rewrite col_insert_ne; [by apply IH|].
  intros Hk. apply Hc2. rewrite <- Hk. by left.
Qed.

(** A column keeps the value [v] when every assignment to it writes [v]. *)
Lemma col_assign_stable c v sets (r : row) :
  (∀ x, (c, x) ∈ sets → bind_param x = v) →
  col c r = v → col c (assign sets r) = v.
Proof.
  induction sets as [|[k x] sets IH] using rev_ind; [done|].
  intros Hs Hr. rewrite assign_snoc. simpl.
  destruct (decide (k = c)) as [->|].
  - rewrite col_insert_eq. apply Hs, elem_of_app. right. by left.
  - rewrite col_insert_ne by done. apply IH; [|done].
    intros y Hy. apply Hs, elem_of_app. by left.
Qed.

Lemma safe_sets_keeps c sets r :
  safe_sets c sets = true → keeps c r (assign sets r).
Proof.
  unfold safe_sets. rewrite forallb_forall. intros Hs. split.
  - apply col_assign_other. intros ((k & x) & Hk & Hin)%list_elem_of_fmap.
    apply list_elem_of_In, Hs in Hin. simpl in Hk, Hin. subst k.
    by rewrite String.eqb_refl in Hin.
  - apply col_assign_stable. intros x Hin.
    apply list_elem_of_In, Hs in Hin. simpl in Hin.
    rewrite String.eqb_refl in Hin. simpl in Hin.
    apply andb_true_iff in Hin as [_ Hin]. by apply bool_decide_eq_true in Hin.
Qed.

Lemma keeps_refl c r : keeps c r r.
Proof. by split. Qed.

Lemma keeps_trans c r1 r2 r3 : keeps c r1 r2 → keeps c r2 r3 → keeps c r1 r3.
Proof. intros [H1 H2] [H3 H4]. split; [congruence|auto]. Qed.

Lemma hoare_run f (P : db → Prop) (Q : unit → db → Prop) E :
  (∀ d d1, P d → same_tables d d1 →
     E busy d1 ∧ match f d1 with inl e => E e d1 | inr d2 => Q () d2 end) →
  hoare P (run f) Q E.
Proof.
  intros H d Hd. destruct (run_cases f d) as (d1 & Hsame & [-> | ->]).
  - by apply (H d d1).
  - destruct (H d d1 Hd Hsame) as [_ H1]. by destruct (f d1).
Qed.

(** ** UPDATE *)

Lemma update_rows_shape sets p ci cu done todo t' :
  update_rows sets p ci cu done todo = inr t' →
  ∃ todo', t' = done ++ todo' ∧ Forall2 (updated sets p) todo todo'.
Proof.
  revert done. induction todo as [|r rest IH]; intros done; simpl.
  - intros [= <-]. exists []. by rewrite app_nil_r.
  - destruct (p r) eqn:Hp.
    + destruct (ci && conflict "id" _ _); [done|].
      destruct (cu && conflict "url" _ _);
        intros (todo' & -> & HF)%IH; rewrite <- app_assoc; simpl.
      * exists (r :: todo'). split; [done|]. constructor; [by left|done].
      * exists (assign sets r :: todo'). split; [done|].
        constructor; [by right|done].
    + intros (todo' & -> & HF)%IH. rewrite <- app_assoc. simpl.
      exists (r :: todo'). split; [done|]. constructor; [by left|done].
Qed.

(** Without a write to [id] or [url] an UPDATE is a map over the table. *)
Lemma update_rows_plain sets p done todo :
  update_rows sets p false false done todo
  = inr (done ++ ((λ r, if p r then assign sets r else r) <$> todo)).
Proof.
  revert done. induction todo as [|r rest IH]; intros done; simpl.
  - by rewrite app_nil_r.
  - destruct (p r); rewrite IH, <- app_assoc; done.
Qed.

Lemma exec_update_shape sets p d d' :
  exec_update sets p d = inr d' →
  ∃ sets' t', resolve_sets sets = Some sets' ∧ d' = with_subdata t' d ∧
              Forall2 (updated sets' p) (subdata d) t'.
Proof.
  unfold exec_update. destruct sets as [|kv sets]; [done|].
  destruct (resolve_sets (kv :: sets)) as [sets'|]; [|done].
  destruct (update_rows _ _ _ _ _ _) as [e|t'] eqn:Hu; [done|].
  intros [= <-]. apply update_rows_shape in Hu as (todo' & -> & HF).
  by exists sets', todo'.
Qed.

Lemma exec_update_plain sets sets' p d :
  sets ≠ [] → resolve_sets sets = Some sets' →
  writes "id" sets' = false → writes "url" sets' = false →
  exec_update sets p d
  = inr (with_subdata ((λ r, if p r then assign sets' r else r) <$> subdata d) d).
Proof.
  intros Hne Hr Hid Hurl. unfold exec_update. destruct sets; [done|].
  by rewrite Hr, Hid, Hurl, update_rows_plain.
Qed.

(** An UPDATE, fulfilled or rejected, changes nothing but rows of
    [subdata], each as its assignments say. *)
Lemma exec_update_frame sets p d :
  match exec_update sets p d with
  | inl _ => True
  | inr d' => favorites d' = favorites d ∧ txn d' = txn d ∧ faults d' = faults d
  end.
Proof.
  destruct (exec_update sets p d) as [e|d'] eqn:H; [done|].
  apply exec_update_shape in H as (sets' & t' & _ & -> & _). done.
Qed.

(** ** Flags that only rise *)

Lemma flagged_Forall2 c u t t' :
  Forall2 (keeps c) t t' → flagged c u t → flagged c u t'.
Proof.
  intros HF [(r & Hr & Hu) Hall]. split.
  - apply list_elem_of_lookup in Hr as [i Hi].
    destruct (Forall2_lookup_l _ _ _ _ _ HF Hi) as (r' & Hi' & [Hk _]).
    exists r'. split; [by eapply list_elem_of_lookup_2|congruence].
  - intros r' Hr' Hu'. apply list_elem_of_lookup in Hr' as [i Hi'].
    destruct (Forall2_lookup_r _ _ _ _ _ HF Hi') as (r0 & Hi & [Hk Hc]).
    apply Hc, Hall; [by eapply list_elem_of_lookup_2|congruence].
Qed.

Lemma updated_keeps c sets p r r' :
  safe_sets c sets = true → updated sets p r r' → keeps c r r'.
Proof.
  intros Hs [-> | [_ ->]]; [apply keeps_refl|by apply safe_sets_keeps].
Qed.

Lemma flagged_update c u sets p d d' :
  (∀ sets', resolve_sets sets = Some sets' → safe_sets c sets' = true) →
  exec_update sets p d = inr d' →
  flagged c u (subdata d) → flagged c u (subdata d').
Proof.
  intros Hsafe (sets' & t' & Hr & -> & HF)%exec_update_shape. simpl.
  apply flagged_Forall2. eapply Forall2_impl; [exact HF|].
  intros r r'. apply updated_keeps. by apply Hsafe.
Qed.

(** ** INSERT and DELETE *)

Lemma conflict_app c r t1 t2 :
  conflict c r (t1 ++ t2) = conflict c r t1 || conflict c r t2.
Proof. unfold conflict. apply existsb_app. Qed.

Lemma insert_subdata_rows_shape t tuples t' :
  insert_rows insert_subdata_row t tuples = inr t' →
  ∃ fresh, t' = t ++ fresh ∧ ∀ f, f ∈ fresh → conflict "url" f t = false.
Proof.
  revert t. induction tuples as [|tu rest IH]; intros t; simpl.
  - intros [= <-]. exists []. split; [by rewrite app_nil_r|]. by intros f ?%elem_of_nil.
  - unfold insert_subdata_row at 1.
    destruct (conflict "id" _ t); [done|].
    destruct (conflict "url" _ t) eqn:Hc.
    + apply IH.
    + intros (fresh & -> & Hf)%IH. exists (assign tu blank_row :: fresh).
      split; [by rewrite <- app_assoc|].
      intros f [->|Hin]%elem_of_cons; [done|].
      apply Hf in Hin. rewrite conflict_app in Hin.
      by apply orb_false_iff in Hin as [? _].
Qed.

Lemma exec_insert_subdata_shape cols ph data d d' :
  exec_insert "subdata" cols ph data d = inr d' →
  ∃ fresh, d' = with_subdata (subdata d ++ fresh) d ∧
           ∀ f, f ∈ fresh → conflict "url" f (subdata d) = false.
Proof.
  unfold exec_insert. destruct ph as [|m ph]; [done|].
  destruct (negb (forallb _ _)); [done|].
  destruct (negb (_ =? _)%nat); [done|].
  change (String.eqb "subdata" "subdata") with true. cbv iota.
  destruct (forallb _ cols); [|done].
  destruct (insert_rows _ _ _) as [e|t'] eqn:Hi; [done|].
  intros [= <-]. apply insert_subdata_rows_shape in Hi as (fresh & -> & Hf).
  by exists fresh.
Qed.

Lemma sql_eq_str_refl u : sql_eq (VStr u) (VStr u) = Some true.
Proof. unfold sql_eq. simpl. by rewrite String.eqb_refl. Qed.

Lemma holds_sql_eq_str v u : holds (sql_eq (VStr u) v) = true → v = VStr u.
Proof.
  unfold sql_eq. destruct v as [| |b|z|s]; simpl; try done.
  destruct (String.eqb u s) eqn:He; [|done]. apply String.eqb_eq in He. by subst.
Qed.

Lemma flagged_insert c u t fresh :
  (∀ f, f ∈ fresh → conflict "url" f t = false) →
  flagged c u t → flagged c u (t ++ fresh).
Proof.
  intros Hf [(r & Hr & Hu) Hall]. split.
  - exists r. split; [|done]. apply elem_of_app. by left.
  - intros r' [Hin|Hin]%elem_of_app Hu'; [by apply Hall|].
    apply Hf in Hin. unfold conflict in Hin.
    assert (existsb (λ o, holds (sql_eq (col "url" o) (col "url" r'))) t = true)
      as Hex; [|congruence].
    apply existsb_exists. exists r. split; [by apply list_elem_of_In|].
    by rewrite Hu, Hu', sql_eq_str_refl.
Qed.

Lemma flagged_delete c u v t :
  v ≠ VStr u → flagged c u t →
  flagged c u (filter (λ r, ¬ holds (sql_eq (col "url" r) v)) t).
Proof.
  intros Hv [(r & Hr & Hu) Hall]. split.
  - exists r. split; [|done]. apply list_elem_of_filter. split; [|done].
    rewrite Hu. intros H%Is_true_true%holds_sql_eq_str. done.
  - intros r' [_ Hin]%list_elem_of_filter. by apply Hall.
Qed.

Lemma recorded_same c u d d1 : same_tables d d1 → recorded c u d → recorded c u d1.
Proof. intros (Hs & _ & Ht) [? ?]. split; congruence. Qed.

(** ** Loops over arrays *)

Lemma hoare_for_each_prefix {S A} (body : A → M S unit) (l : list A)
    (I : list A → S → Prop) (E : exn → S → Prop) :
  (∀ pre x, hoare (I pre) (body x) (λ _, I (pre ++ [x])) E) →
  hoare (I []) (for_each body l) (λ _, I l) E.
Proof.
  intros Hb. change l with ([] ++ l) at 2. generalize (@nil A) as pre.
  induction l as [|x l IH]; intros pre; simpl.
  - apply hoare_ret. intros s. by rewrite app_nil_r.
  - eapply hoare_bind; [apply Hb|]. intros [].
    eapply hoare_conseq; [apply (IH (pre ++ [x]))|done| |done].
    intros [] s. by rewrite <- app_assoc.
Qed.

(** ** saveFavorites *)

Lemma hoare_rethrow {S A} (m : M S A) P (Q : A → S → Prop) E :
  hoare P m Q E → hoare P (catch m (λ e, throw e)) Q E.
Proof.
  intros H. eapply hoare_catch; [exact H|]. intros e. by apply hoare_throw.
Qed.

Lemma mark_row_snoc username ls x r :
  mark_row username (ls ++ [x]) r
  = let r' := mark_row username ls r in
    if validateInput (Prim x) "string" && holds (sql_eq (col "url" r') x)
    then assign [("is_favorite", VNum 1); ("favorite_username", username)] r'
    else r'.
Proof. unfold mark_row. by rewrite foldl_app. Qed.

Lemma mark_favorite_plain username url d :
  mark_favorite username url d
  = inr (with_subdata
           ((λ r, if holds (sql_eq (col "url" r) url)
                  then assign [("is_favorite", VNum 1); ("favorite_username", username)] r
                  else r) <$> subdata d) d).
Proof. unfold mark_favorite. by apply exec_update_plain. Qed.

Lemma mark_row_url username ls r :
  col "url" (mark_row username ls r) = col "url" r.
Proof.
  induction ls as [|x ls IH] using rev_ind; [done|].
  rewrite mark_row_snoc. cbv zeta. destruct (_ && _); [|done].
  rewrite col_assign_other; [done|]. by apply (bool_decide_unpack _).
Qed.

Lemma hoare_rollback s f (P : db → Prop) (Q : unit → db → Prop) E :
  (∀ d, P d → in_txn s f d ∨ restored s f d) →
  (∀ d, restored s f d → Q () d) → (∀ e d, restored s f d → E e d) →
  hoare P rollback Q E.
Proof.
  intros HP HQ HE d [Hd | (Ht & Hs & Hf)]%HP; unfold rollback.
  - unfold in_txn in Hd. rewrite Hd. by apply HQ.
  - rewrite Ht. by apply HE.
Qed.

Lemma forallb_marks {A} n (l : list A) :
  forallb (String.eqb (marks n)) ((λ _, marks n) <$> l) = true.
Proof. induction l; simpl; [done|]. by rewrite String.eqb_refl. Qed.

Lemma length_bind_const {A B} (g : A → list B) n (l : list A) :
  (∀ x, List.length (g x) = n) → List.length (l ≫= g) = (n * List.length l)%nat.
Proof.
  intros Hg. induction l as [|x l IH]; [simpl; lia|].
  rewrite bind_cons, length_app, Hg, IH. simpl. lia.
Qed.

Lemma chunks_bind {A} (g : A → list value) n (l : list A) :
  (∀ x, List.length (g x) = n) → chunks (List.length l) n (l ≫= g) = g <$> l.
Proof.
  intros Hg. induction l as [|x l IH]; [done|].
  rewrite bind_cons. simpl.
  rewrite take_app_length' by (symmetry; apply Hg).
  rewrite drop_app_length' by (symmetry; apply Hg). by rewrite IH.
Qed.

(** What the engine makes of the INSERT built by [saveFavorites]. *)
Lemma exec_insert_favorites username valid d :
  valid ≠ [] →
  exec_insert "favorites" ["id"; "username"; "url"] ((λ _, marks 3) <$> valid)
    (valid ≫= (λ val,
       [VStr (to_string username +:+ "_" +:+ to_string val); username; val])) d
  = match insert_rows insert_favorites_row (favorites d)
            (fav_tuples username valid) with
    | inl e => inl e
    | inr t => inr (with_favorites t d)
    end.
Proof.
  intros Hne. unfold exec_insert.
  destruct ((λ _, marks 3) <$> valid) as [|m ph] eqn:Hph;
    [by destruct valid|]. rewrite <- Hph. clear Hph.
  change (List.length ["id"; "username"; "url"]) with 3%nat.
  rewrite forallb_marks. simpl negb. cbv iota.
  rewrite (length_bind_const _ 3) by done.
  rewrite length_fmap, Nat.eqb_refl. simpl negb. cbv iota.
  rewrite (chunks_bind _ 3) by done.
  change (String.eqb "favorites" "subdata") with false.
  change (String.eqb "favorites" "favorites") with true. cbv iota.
  replace (forallb _ ["id"; "username"; "url"]) with true by done.
  rewrite <- list_fmap_compose. done.
Qed.

Theorem saveFavorites_spec username ls d :
  txn d = None →
  match saveFavorites username (Arr ls) d with
  | (inr RunResult, d') =>
      txn d' = None ∧
      subdata d' = mark_row username ls <$> subdata d ∧
      insert_rows insert_favorites_row (favorites d)
        (fav_tuples username (List.filter (λ v, validateInput (Prim v) "string") ls))
      = inr (favorites d') ∧
      List.filter (λ v, validateInput (Prim v) "string") ls ≠ []
  | (_, d') => restored (subdata d) (favorites d) d'
  end.
Proof.
  intros Htxn. unfold saveFavorites.
  destruct ls as [|l0 ls0]; [done|]. set (ls := l0 :: ls0).
  destruct (negb (validateInput (Prim username) "string")); [done|].
  set (s := subdata d). set (f := favorites d).
  set (valid := List.filter _ ls).
  match goal with |- match ?m d with _ => _ end =>
    assert (hoare (λ d0, d0 = d) m
              (λ res d', match res with
                         | RunResult =>
                             txn d' = None ∧
                             subdata d' = mark_row username ls <$> s ∧
                             insert_rows insert_favorites_row f
                               (fav_tuples username valid) = inr (favorites d') ∧
                             valid ≠ []
                         | Null => restored s f d'
                         end)
              (λ _, restored s f)) as H
  end.
  2: { specialize (H d eq_refl). destruct (catch _ _ d) as [[e|[]] d']; done. }
  eapply hoare_catch with (E' := λ _ d', in_txn s f d' ∨ restored s f d').
  2: { intros e. eapply hoare_bind with (Q := λ _, restored s f);
         [by apply (hoare_rollback s f)|].
       intros []. by apply hoare_throw. }
  eapply hoare_bind with
    (Q := λ _ d', in_txn s f d' ∧ subdata d' = s ∧ favorites d' = f).
  { apply hoare_run. intros d0 d1 -> (Hs & Hf & Ht). split.
    - right. unfold restored. by rewrite Ht, Hs, Hf.
    - unfold begin_transaction. rewrite Ht, Htxn. simpl.
      unfold in_txn. simpl. by rewrite Hs, Hf. }
  intros []. cbv zeta. fold valid.
  destruct valid as [|v0 valid0] eqn:Hvalid; simpl fmap; cbv iota.
  { eapply hoare_bind with (Q := λ _, restored s f).
    - apply (hoare_rollback s f); [intros ? (?&?&?); by left|done|by right].
    - intros []. by apply hoare_ret. }
  change (marks 3 :: list_fmap value string (λ _, marks 3) valid0)
    with ((λ _ : value, marks 3) <$> (v0 :: valid0)).
  rewrite <- Hvalid.
  assert (valid ≠ []) as Hne by (rewrite Hvalid; done). clear Hvalid.
  set (I := λ (pre : list value) (d' : db),
              in_txn s f d' ∧ subdata d' = mark_row username pre <$> s ∧
              insert_rows insert_favorites_row f (fav_tuples username valid)
              = inr (favorites d')).
  eapply hoare_bind with (Q := λ _, I []).
  { apply hoare_rethrow, hoare_run. intros d0 d1 (Hin & Hs & Hf) (Hs1 & Hf1 & Ht1).
    assert (in_txn s f d1) as Hin1 by (unfold in_txn in *; congruence).
    split; [by left|].
    rewrite exec_insert_favorites by done.
    rewrite Hf1, Hf. subst valid.
    destruct (insert_rows _ _ _) as [e|t] eqn:Hi; [by left|].
    unfold I. simpl. rewrite Hs1, Hs. split_and!; try done.
    unfold mark_row. simpl. by rewrite list_fmap_id. }
  intros []. eapply hoare_bind with (Q := λ _, I ls).
  { apply hoare_for_each_prefix. intros pre x.
    destruct (validateInput (Prim x) "string") eqn:Hx.
    - apply hoare_run. intros d0 d1 (Hin & Hs & Hf) (Hs1 & Hf1 & Ht1).
      assert (in_txn s f d1) as Hin1 by (unfold in_txn in *; congruence).
      split; [by left|]. rewrite mark_favorite_plain.
      unfold I. simpl. repeat split; [done| |congruence].
      rewrite Hs1, Hs, <- list_fmap_compose. apply list_fmap_ext.
      intros i r _. simpl. by rewrite mark_row_snoc, Hx.
    - apply hoare_ret. intros d0 (Hin & Hs & Hf). repeat split; [done| |done].
      rewrite Hs. apply list_fmap_ext. intros i r _.
      by rewrite mark_row_snoc, Hx. }
  intros []. eapply hoare_bind with
    (Q := λ _ d', txn d' = None ∧ subdata d' = mark_row username ls <$> s ∧
                  insert_rows insert_favorites_row f (fav_tuples username valid)
                  = inr (favorites d')).
  { apply hoare_run. intros d0 d1 (Hin & Hs & Hf) (Hs1 & Hf1 & Ht1).
    assert (in_txn s f d1) as Hin1 by (unfold in_txn in *; congruence).
    split; [by left|]. unfold commit. rewrite Hin1. simpl.
    repeat split; congruence. }
  intros []. apply hoare_ret. intros d0 (? & ? & ?). by repeat split.
Qed.

(** ** Every write of the pipeline keeps a raised flag raised *)

Import Pipeline.

Lemma hoare_update_recorded c u sets p :
  (∀ sets', resolve_sets sets = Some sets' → safe_sets c sets' = true) →
  hoare (recorded c u) (run (exec_update sets p))
    (λ _, recorded c u) (λ _, recorded c u).
Proof.
  intros Hsafe. apply hoare_run. intros d d1 Hd Hs.
  pose proof (recorded_same _ _ _ _ Hs Hd) as Hd1. split; [done|].
  pose proof (exec_update_frame sets p d1) as Hfr.
  destruct (exec_update sets p d1) as [e|d2] eqn:Hu; [done|].
  destruct Hfr as (_ & Ht & _). destruct Hd1 as [Ht1 Hf1].
  split; [congruence|]. by eapply flagged_update.
Qed.

Ltac concrete_sets :=
  let sets' := fresh "sets'" in
  let H := fresh "H" in
  intros sets' H; vm_compute in H; injection H as <-; reflexivity.

Ltac guarded_update :=
  apply hoare_rethrow;
  match goal with |- hoare _ (if ?b then _ else _) _ _ => destruct b end;
  [by apply hoare_throw | apply hoare_update_recorded; concrete_sets].

Lemma resolve_sets_Forall2 sets sets' :
  resolve_sets sets = Some sets' →
  Forall2 (λ kv kv', resolve_column kv.1 = Some kv'.1) sets sets'.
Proof.
  unfold resolve_sets. intros H%mapM_Some.
  eapply Forall2_impl; [exact H|]. intros [k x] [k' x']. simpl.
  destruct (resolve_column k); simpl; [|done]. by intros [= -> _].
Qed.

Lemma safe_sets_keys c (K : list string) sets :
  (∀ k, k ∈ K → k ≠ "url" ∧ k ≠ c) → (∀ k, k ∈ sets.*1 → k ∈ K) →
  safe_sets c sets = true.
Proof.
  intros HK Hsub. unfold safe_sets. apply forallb_forall.
  intros [k x] Hin%list_elem_of_In. simpl.
  destruct (HK k) as [Hu Hc].
  { apply Hsub, list_elem_of_fmap. by exists (k, x). }
  apply String.eqb_neq in Hu, Hc. by rewrite Hu, Hc.
Qed.

Lemma harvest_keys_resolve :
  Forall (λ k, resolve_column k = Some k) harvest_keys.
Proof. repeat constructor. Qed.

Lemma harvest_keys_safe c :
  sticky c → ∀ k, k ∈ harvest_keys → k ≠ "url" ∧ k ≠ c.
Proof.
  intros Hc k Hk. unfold harvest_keys in Hk.
  repeat (apply elem_of_cons in Hk as [-> | Hk];
          [destruct Hc as [-> | [-> | ->]]; done|]).
  by apply elem_of_nil in Hk.
Qed.

(** The assignments [saveMetaData] derives from harvested data are safe. *)
Lemma harvest_sets_safe c data sets' :
  sticky c →
  resolve_sets (List.filter keep_field (zip harvest_keys data)) = Some sets' →
  safe_sets c sets' = true.
Proof.
  intros Hc Hr%resolve_sets_Forall2.
  apply (safe_sets_keys c harvest_keys); [by apply harvest_keys_safe|].
  intros k' ([k'' x'] & -> & Hin)%list_elem_of_fmap. simpl.
  apply list_elem_of_lookup in Hin as [i Hi].
  destruct (Forall2_lookup_r _ _ _ _ _ Hr Hi) as ([k x] & Hi0 & Hres).
  simpl in Hres. apply list_elem_of_lookup_2, list_elem_of_In in Hi0.
  apply filter_In in Hi0 as [Hin _]. apply list_elem_of_In in Hin.
  assert (k ∈ harvest_keys) as Hk.
  { apply list_elem_of_lookup in Hin as [j Hj].
    apply lookup_zip_with_Some in Hj as (a & b & [= <- <-] & Ha & _).
    by eapply list_elem_of_lookup_2. }
  pose proof harvest_keys_resolve as HF. rewrite Forall_forall in HF.
  specialize (HF k Hk). congruence.
Qed.

(** So are those of the favorite mark. *)
Lemma favorite_sets_safe c username sets' :
  sticky c →
  resolve_sets (List.filter keep_field
                  [("is_favorite", VNum 1); ("favorite_username", username)])
  = Some sets' →
  safe_sets c sets' = true.
Proof.
  intros Hc Hr.
  apply (safe_sets_keys c ["is_favorite"; "favorite_username"]).
  - intros k Hk. repeat (apply elem_of_cons in Hk as [-> | Hk];
      [destruct Hc as [-> | [-> | ->]]; done|]). by apply elem_of_nil in Hk.
  - apply resolve_sets_Forall2 in Hr.
    intros k' ([k'' x'] & -> & Hin)%list_elem_of_fmap. simpl.
    apply list_elem_of_lookup in Hin as [i Hi].
    destruct (Forall2_lookup_r _ _ _ _ _ Hr Hi) as ([k x] & Hi0 & Hres).
    simpl in Hres. apply list_elem_of_lookup_2, list_elem_of_In in Hi0.
    apply filter_In in Hi0 as [Hin _]. simpl in Hin.
    destruct Hin as [[= <- <-] | [[= <- <-] | []]];
      vm_compute in Hres; injection Hres as <-; in_list.
Qed.

Lemma saveMetaData_recorded c u url d :
  (∀ sets', resolve_sets (List.filter keep_field
                            (match d with Obj fs => fs | _ => [] end)) = Some sets' →
            safe_sets c sets' = true) →
  hoare (recorded c u) (saveMetaData url d) (λ _, recorded c u) (λ _, recorded c u).
Proof.
  intros Hsafe. unfold saveMetaData. apply hoare_rethrow.
  destruct (negb _); [by apply hoare_throw|].
  destruct (List.filter _ _) as [|kv kept] eqn:Hk; [by apply hoare_ret|].
  eapply hoare_bind; [by apply hoare_update_recorded|].
  intros []. by apply hoare_ret.
Qed.

Lemma mark_row_keeps c username ls r :
  sticky c → keeps c r (mark_row username ls r).
Proof.
  intros Hc. induction ls as [|x ls IH] using rev_ind; [apply keeps_refl|].
  rewrite mark_row_snoc. cbv zeta. destruct (_ && _); [|done].
  eapply keeps_trans; [exact IH|]. apply safe_sets_keeps.
  destruct Hc as [-> | [-> | ->]]; reflexivity.
Qed.

Lemma saveFavorites_recorded c u username links :
  sticky c →
  hoare (recorded c u) (saveFavorites username links)
    (λ _, recorded c u) (λ _, recorded c u).
Proof.
  intros Hc d [Ht Hf].
  destruct links as [v|ls|o]; try done.
  pose proof (saveFavorites_spec username ls d Ht) as H.
  assert (∀ d', restored (subdata d) (favorites d) d' → recorded c u d') as Hres.
  { intros d' (? & ? & ?). split; [done|congruence]. }
  destruct (saveFavorites username (Arr ls) d) as [[e|[]] d']; [auto|auto|].
  destruct H as (Ht' & Hs' & _). split; [done|]. rewrite Hs'.
  eapply flagged_Forall2; [|exact Hf].
  apply Forall2_fmap_r, Forall_Forall2_diag, Forall_forall.
  intros r _. by apply mark_row_keeps.
Qed.

Theorem step_recorded c u o :
  sticky c → o ≠ DeleteSubmission (VStr u) →
  hoare (recorded c u) (step o) (λ _, recorded c u) (λ _, recorded c u).
Proof.
  intros Hc Ho. destruct o; simpl.
  1-6: unfold setContentSaved, setContentNotSaved, setContentMoved,
         setContentMissing, setThumbnailSaved, setThumbnailMissing;
       destruct Hc as [-> | [-> | ->]]; guarded_update.
  - (* saveLinks *)
    unfold saveLinks, genericInsert. apply hoare_rethrow, hoare_run.
    intros d d1 Hd Hs. pose proof (recorded_same _ _ _ _ Hs Hd) as [Ht1 Hf1].
    split; [done|].
    destruct (exec_insert _ _ _ _ d1) as [e|d2] eqn:Hi; [done|].
    apply exec_insert_subdata_shape in Hi as (fresh & -> & Hfresh).
    split; [done|]. simpl. by apply flagged_insert.
  - (* saveFavorites *)
    eapply hoare_bind; [by apply saveFavorites_recorded|].
    intros ?. by apply hoare_ret.
  - (* saveMetaData, harvested data *)
    eapply hoare_bind;
      [apply saveMetaData_recorded; intros sets'; by apply harvest_sets_safe|].
    intros ?. by apply hoare_ret.
  - (* saveMetaData, favorite mark *)
    eapply hoare_bind;
      [apply saveMetaData_recorded; intros sets'; by apply favorite_sets_safe|].
    intros ?. by apply hoare_ret.
  - (* deleteSubmission *)
    unfold deleteSubmission. apply hoare_rethrow.
    destruct (negb _); [by apply hoare_throw|]. apply hoare_run.
    intros d d1 Hd Hs. pose proof (recorded_same _ _ _ _ Hs Hd) as [Ht1 Hf1].
    split; [done|]. unfold exec_delete. split; [done|]. simpl.
    apply flagged_delete; [congruence|done].
Qed.

Lemma exec_recorded c u ops d :
  sticky c → DeleteSubmission (VStr u) ∉ ops →
  recorded c u d → recorded c u (exec ops d).
Proof.
  intros Hc. revert d. induction ops as [|o ops IH]; intros d Hops Hd; [done|].
  apply not_elem_of_cons in Hops as [Ho Hops].
  change (exec (o :: ops) d) with (exec ops (step o d).2).
  apply IH; [done|].
  pose proof (step_recorded c u o Hc (not_eq_sym Ho) d Hd) as H.
  by destruct (step o d) as [[e|[]] d'].
Qed.

(** ** Queries *)

Lemma col_project c cols (r : row) : c ∈ cols → col c (project cols r) = col c r.
Proof.
  intros Hc. unfold col, project. destruct (r !! c) as [v|] eqn:Hr.
  - rewrite (map_lookup_filter_Some_2 _ r c v); done.
  - rewrite map_lookup_filter_None_2; [done|]. by left.
Qed.

Lemma select_elem cols p t r :
  r ∈ select cols p t → ∃ r0, r0 ∈ t ∧ p r0 = true ∧ r = project cols r0.
Proof.
  unfold select. intros (r0 & -> & [Hp Hin]%list_elem_of_filter)%list_elem_of_fmap.
  exists r0. split_and!; [done| |done]. by apply Is_true_true.
Qed.

Lemma holds_and a b : holds (a &&& b) = true → holds a = true ∧ holds b = true.
Proof. by destruct a as [[]|], b as [[]|]. Qed.

(** A row flagged missing is not selected by the unsaved-content query. *)
Lemma unsaved_content_not_missing name r :
  unsaved_content name r = true → col "content_missing" r ≠ VNum 1.
Proof.
  unfold unsaved_content.
  intros ((((_ & H)%holds_and & _)%holds_and & _)%holds_and & _)%holds_and Hm.
  by rewrite Hm in H.
Qed.

Lemma unsaved_thumbnail_not_missing r :
  unsaved_thumbnail r = true → col "thumbnail_missing" r ≠ VNum 1.
Proof.
  unfold unsaved_thumbnail.
  intros ((_ & H)%holds_and & _)%holds_and Hm. by rewrite Hm in H.
Qed.

Lemma getAllUnsavedContent_rows name d rows d' :
  getAllUnsavedContent name d = (inr rows, d') →
  ∀ r, r ∈ rows → ∃ r0, r0 ∈ subdata d ∧ unsaved_content name r0 = true ∧
                        col "url" r = col "url" r0.
Proof.
  unfold getAllUnsavedContent, catch. intros H r Hr.
  destruct (all_cases (λ d, select
              ["content_url"; "content_name"; "username"; "account_name"; "url"]
              (unsaved_content name) (order_by "content_name" true (subdata d))) d)
    as (d1 & (Hs & _) & [Hall | Hall]); rewrite Hall in H; [done|].
  injection H as <- <-.
  apply select_elem in Hr as (r0 & Hin & Hp & ->).
  rewrite merge_sort_Permutation in Hin.
  exists r0. rewrite <- Hs. split_and!; [done|done|].
  apply col_project. in_list.
Qed.

Lemma getAllUnsavedThumbnails_rows d rows d' :
  getAllUnsavedThumbnails d = (inr rows, d') →
  ∀ r, r ∈ rows → ∃ r0, r0 ∈ subdata d ∧ unsaved_thumbnail r0 = true ∧
                        col "url" r = col "url" r0.
Proof.
  unfold getAllUnsavedThumbnails, catch. intros H r Hr.
  destruct (all_cases (λ d, select
              ["url"; "content_url"; "username"; "thumbnail_url"; "account_name"; "id"]
              unsaved_thumbnail (order_by "content_name" true (subdata d))) d)
    as (d1 & (Hs & _) & [Hall | Hall]); rewrite Hall in H; [done|].
  injection H as <- <-.
  apply select_elem in Hr as (r0 & Hin & Hp & ->).
  rewrite merge_sort_Permutation in Hin.
  exists r0. rewrite <- Hs. split_and!; [done|done|].
  apply col_project. in_list.
Qed.

(** C5, as amended.  Once every record of a submission carries
    [content_missing = 1] (resp. [thumbnail_missing = 1]), no sequence of
    store writes issued by the pipeline in which the harvester does not
    delete the submission clears the flag, and no later unsaved-content
    (resp. unsaved-thumbnail) poll returns the submission. *)
Theorem missing_flags_are_sticky (ops : list op) (d : db) (u : string) :
  txn d = None →
  DeleteSubmission (VStr u) ∉ ops →
  (flagged "content_missing" u (subdata d) →
   flagged "content_missing" u (subdata (exec ops d)) ∧
   ∀ name rows d', getAllUnsavedContent name (exec ops d) = (inr rows, d') →
                   ∀ r, r ∈ rows → col "url" r ≠ VStr u) ∧
  (flagged "thumbnail_missing" u (subdata d) →
   flagged "thumbnail_missing" u (subdata (exec ops d)) ∧
   ∀ rows d', getAllUnsavedThumbnails (exec ops d) = (inr rows, d') →
              ∀ r, r ∈ rows → col "url" r ≠ VStr u).
Proof.
  intros Ht Hops. split; intros Hf.
  - destruct (exec_recorded "content_missing" u ops d) as [_ Hf'];
      [by left|done|done|]. split; [done|].
    intros name rows d' Hq r Hr Hu.
    destruct (getAllUnsavedContent_rows _ _ _ _ Hq r Hr) as (r0 & Hin & Hp & Hurl).
    apply unsaved_content_not_missing in Hp. apply Hp.
    apply Hf'; [done|congruence].
  - destruct (exec_recorded "thumbnail_missing" u ops d) as [_ Hf'];
      [by right; left|done|done|]. split; [done|].
    intros rows d' Hq r Hr Hu.
    destruct (getAllUnsavedThumbnails_rows _ _ _ Hq r Hr) as (r0 & Hin & Hp & Hurl).
    apply unsaved_thumbnail_not_missing in Hp. apply Hp.
    apply Hf'; [done|congruence].
Qed.

(** ** Marking content saved and not saved *)

Lemma setContentSaved_reliable c d :
  faults d = [] →
  setContentSaved (VStr c) d
  = (inr (), with_subdata (saved_row (VStr c) <$> subdata d) d).
Proof.
  intros Hf. unfold setContentSaved, catch. simpl.
  rewrite run_reliable by done.
  by rewrite (exec_update_plain _
    [("is_content_saved", VNum 1); ("moved_content", VNum 1)]).
Qed.

Lemma setContentNotSaved_reliable c d :
  faults d = [] →
  setContentNotSaved (VStr c) d
  = (inr (), with_subdata (reset_row (VStr c) <$> subdata d) d).
Proof.
  intros Hf. unfold setContentNotSaved, catch. simpl.
  rewrite run_reliable by done.
  by rewrite (exec_update_plain _
    [("is_content_saved", VNum 0); ("moved_content", VNum 1)]).
Qed.

Lemma saved_row_hit c r :
  col "content_url" r = VStr c →
  col "is_content_saved" (saved_row (VStr c) r) = VNum 1 ∧
  col "moved_content" (saved_row (VStr c) r) = VNum 1.
Proof.
  intros Hc. unfold saved_row. rewrite Hc, sql_eq_str_refl. simpl.
  by rewrite col_insert_ne, !col_insert_eq.
Qed.

Lemma saved_row_miss c r :
  col "content_url" r ≠ VStr c → saved_row (VStr c) r = r.
Proof.
  intros Hc. unfold saved_row.
  destruct (holds _) eqn:Hh; [|done].
  unfold sql_eq in Hh. destruct (col "content_url" r) as [| |[]|z|s]; try done.
  simpl in Hh. destruct (String.eqb s c) eqn:He; [|done].
  apply String.eqb_eq in He. congruence.
Qed.

Lemma reset_row_hit c r :
  col "content_url" r = VStr c →
  col "is_content_saved" (reset_row (VStr c) r) = VNum 0 ∧
  col "moved_content" (reset_row (VStr c) r) = VNum 1.
Proof.
  intros Hc. unfold reset_row. rewrite Hc, sql_eq_str_refl. simpl.
  by rewrite col_insert_ne, !col_insert_eq.
Qed.

Lemma reset_row_miss c r :
  col "content_url" r ≠ VStr c → reset_row (VStr c) r = r.
Proof.
  intros Hc. unfold reset_row.
  destruct (holds _) eqn:Hh; [|done].
  unfold sql_eq in Hh. destruct (col "content_url" r) as [| |[]|z|s]; try done.
  simpl in Hh. destruct (String.eqb s c) eqn:He; [|done].
  apply String.eqb_eq in He. congruence.
Qed.

Lemma reset_row_col k v r :
  k ≠ "is_content_saved" → k ≠ "moved_content" →
  col k (reset_row v r) = col k r.
Proof.
  intros H1 H2. unfold reset_row. destruct (holds _); [|done].
  apply col_assign_other. simpl.
  intros [->|[->|[]%elem_of_nil]%elem_of_cons]%elem_of_cons; done.
Qed.

Lemma unmoved_moved r : col "moved_content" r = VNum 1 → unmoved r = false.
Proof.
  intros H. unfold unmoved. rewrite H.
  by destruct (sql_eq (col "is_content_saved" r) (VNum 1)) as [[]|].
Qed.

(** C4, as amended.  Marking content saved after a download sets both
    [is_content_saved] and [moved_content] on every row with that content
    url and leaves the other rows alone: a downloaded item is recorded
    Saved and Moved at once, so the Unmoved to Moved transition is not
    reserved to the reorganize pass, whose query never selects such an
    item. *)
Theorem setContentSaved_also_marks_moved (d : db) (c : string) :
  faults d = [] →
  let d' := (setContentSaved (VStr c) d).2 in
  (setContentSaved (VStr c) d).1 = inr () ∧
  Forall2 (λ r r',
             if decide (col "content_url" r = VStr c)
             then col "is_content_saved" r' = VNum 1 ∧
                  col "moved_content" r' = VNum 1 ∧
                  unmoved r' = false
             else r' = r)
          (subdata d) (subdata d').
Proof.
  intros Hf. rewrite setContentSaved_reliable by done. simpl. split; [done|].
  apply Forall2_fmap_r, Forall_Forall2_diag, Forall_forall. intros r _.
  destruct (decide _) as [Hc|Hc].
  - destruct (saved_row_hit c r Hc) as [H1 H2]. split_and!; [done|done|].
    by apply unmoved_moved.
  - by apply saved_row_miss.
Qed.

(** ** saveLinks *)

(** C9.  Called with an empty list, [saveLinks] hands the engine an INSERT
    whose VALUES clause is empty; the returned promise is rejected and no
    table changes. *)
Theorem saveLinks_empty_list_rejects (isScraps username : value) (d : db) :
  insert_query "subdata" ["url"; "username"; "is_scrap"; "is_content_saved"]
    ((λ _, marks 4) <$> ([] : list value))
  = "INSERT INTO subdata (url, username, is_scrap, is_content_saved) VALUES " ∧
  ∃ e, (saveLinks [] isScraps username d).1 = inl e ∧
       same_tables d (saveLinks [] isScraps username d).2.
Proof.
  split; [done|]. unfold saveLinks, genericInsert, catch. simpl.
  destruct (run_cases (exec_insert "subdata"
              ["url"; "username"; "is_scrap"; "is_content_saved"] [] []) d)
    as (d1 & Hs & [-> | ->]); simpl; eauto.
Qed.

(** ** saveMetaData *)

Lemma filter_keep_idem fields :
  List.filter keep_field (List.filter keep_field fields)
  = List.filter keep_field fields.
Proof.
  induction fields as [|kv fields IH]; simpl; [done|].
  destruct (keep_field kv) eqn:Hk; simpl; [|done]. by rewrite Hk, IH.
Qed.

Lemma resolve_sets_None sets k v :
  (k, v) ∈ sets → resolve_column k = None → resolve_sets sets = None.
Proof.
  intros Hin Hk. unfold resolve_sets.
  destruct (mapM _ sets) as [sets'|] eqn:Hm; [|done].
  apply mapM_Some in Hm. apply list_elem_of_lookup in Hin as [i Hi].
  destruct (Forall2_lookup_l _ _ _ _ _ Hm Hi) as (y & _ & Hy).
  simpl in Hy. by rewrite Hk in Hy.
Qed.

(** C2, as amended.  [saveMetaData] has no allow-list and raises no
    validation error for a field name: a field whose name does not match
    [/^[a-zA-Z0-9_]+$/], or whose value is null or undefined, is dropped
    silently and the call behaves as if it had not been passed; with a
    string url and no field left the call resolves with null and writes
    nothing; a field that passes the filter under a name the engine cannot
    resolve, neither a column of [subdata] (in any letter case) nor a name
    of the rowid, makes the UPDATE fail in the engine, and then no table
    changes. *)
Theorem saveMetaData_drops_fields_silently (url : value)
    (fields : list (string * value)) (d : db) :
  saveMetaData url (Obj fields) d
  = saveMetaData url (Obj (List.filter keep_field fields)) d ∧
  (is_string url = true → List.filter keep_field fields = [] →
   saveMetaData url (Obj fields) d = (inr Null, d)) ∧
  (∀ k v, (k, v) ∈ List.filter keep_field fields → resolve_column k = None →
          ∃ e, (saveMetaData url (Obj fields) d).1 = inl e ∧
               same_tables d (saveMetaData url (Obj fields) d).2).
Proof.
  split_and!.
  - unfold saveMetaData. by rewrite filter_keep_idem.
  - intros Hu Hk. unfold saveMetaData, catch. rewrite Hk.
    by destruct url.
  - intros k v Hin Hk. unfold saveMetaData, catch.
    destruct (negb _); [by eexists|].
    destruct (List.filter keep_field fields) as [|kv kept] eqn:Hf;
      [by apply elem_of_nil in Hin|].
    unfold mbind, M_bind, bind.
    destruct (run_cases (exec_update (kv :: kept)
                  (λ r, holds (sql_eq (col "url" r) url))) d)
      as (d1 & Hs & [-> | ->]); [by eexists|].
    unfold exec_update. rewrite (resolve_sets_None _ k v Hin Hk). by eexists.
Qed.

(** ** Names that end in a dot *)

Lemma eq_ci_dot d : eq_ci "." d = Ascii.eqb d ".".
Proof. destruct d as [[] [] [] [] [] [] [] []]; reflexivity. Qed.

Lemma like_star p l :
  like ("%"%char :: p) l
  = like p l || match l with [] => false | _ :: l' => like ("%"%char :: p) l' end.
Proof. by destruct l. Qed.

Lemma like_dot l :
  like ["."%char] l = match l with [d] => Ascii.eqb d "." | _ => false end.
Proof.
  destruct l as [|d [|d' l]]; cbn; [done| |]; rewrite eq_ci_dot.
  - by rewrite andb_true_r.
  - by rewrite andb_false_r.
Qed.

(** [LIKE '%.'] holds of the strings [/\.$/] matches. *)
Lemma like_trailing_dot s : like (chars "%.") (chars s) = ends_with_dot s.
Proof.
  unfold ends_with_dot. generalize (chars s) as l. intros l.
  change (chars "%.") with ["%"; "."]%char.
  induction l as [|d l IH]; [done|].
  rewrite like_star, IH, like_dot. destruct l as [|d' l]; simpl.
  - by rewrite orb_false_r.
  - done.
Qed.

Lemma invalid_file_text r s :
  col "content_name" r = VStr s →
  invalid_file r
  = ends_with_dot s && holds (sql_eq (col "is_content_saved" r) (VNum 1)).
Proof.
  intros Hn. unfold invalid_file, sql_like. rewrite Hn. cbn [is_null bind_param].
  cbn [to_string]. rewrite like_trailing_dot.
  destruct (ends_with_dot s);
    by destruct (sql_eq (col "is_content_saved" r) (VNum 1)) as [[]|].
Qed.

(** ** The prune pass *)

Import DownloadContent.

Lemma text_columns_project cols r :
  "account_name" ∈ cols → "content_name" ∈ cols → "content_url" ∈ cols →
  text_columns r → text_columns (project cols r).
Proof.
  intros H1 H2 H3 (Ha & Hn & Hu). unfold text_columns.
  by rewrite !col_project.
Qed.

Lemma prune_body_reliable w f :
  faults (store w) = [] → text_columns f →
  (account ← segment (col "account_name" f);
   name ← segment (col "content_name" f);
   remove (join [ARTIST_DIR; account; "gallery"; name]);;
   on_store (setContentNotSaved (col "content_url" f))) w
  = (inr (), prune_step w f).
Proof.
  intros Hf (Ha & Hn & Hu). unfold prune_step, location.
  destruct (col "account_name" f) as [| | | |a]; try done.
  destruct (col "content_name" f) as [| | | |n]; try done.
  destruct (col "content_url" f) as [| | | |c]; try done.
  unfold mbind, M_bind, bind, remove, modify, on_store. simpl.
  by rewrite setContentNotSaved_reliable.
Qed.

Lemma prune_loop_reliable l w :
  faults (store w) = [] → Forall text_columns l →
  for_each
    (λ f, account ← segment (col "account_name" f);
          name ← segment (col "content_name" f);
          remove (join [ARTIST_DIR; account; "gallery"; name]);;
          on_store (setContentNotSaved (col "content_url" f))) l w
  = (inr (), foldl prune_step w l).
Proof.
  revert w. induction l as [|f l IH]; intros w Hf Hl; [done|].
  apply Forall_cons in Hl as [Hx Hl]. simpl.
  unfold bind at 1. rewrite prune_body_reliable by done.
  by apply IH.
Qed.

Lemma deleteInvalidFiles_reliable w :
  faults (store w) = [] →
  (∀ r, r ∈ subdata (store w) → invalid_file r = true → text_columns r) →
  deleteInvalidFiles w
  = (inr (), foldl prune_step w
               (select ["id"; "content_name"; "content_url"; "username";
                        "account_name"; "url"]
                       invalid_file (subdata (store w)))).
Proof.
  intros Hf Ht. unfold deleteInvalidFiles, mbind, M_bind, bind.
  unfold on_store at 1, getAllInvalidFiles. rewrite all_reliable by done.
  replace (with_store (store w) w) with w by by destruct w.
  apply prune_loop_reliable; [done|]. apply Forall_forall.
  intros r (r0 & Hin & Hp & ->)%select_elem.
  apply text_columns_project; [in_list..|]. by apply Ht.
Qed.

Lemma prune_fold_subdata l w :
  subdata (store (foldl prune_step w l)) = reset_all l <$> subdata (store w).
Proof.
  revert w. induction l as [|f l IH]; intros w; simpl.
  - by rewrite list_fmap_id.
  - rewrite IH. simpl. rewrite <- list_fmap_compose. done.
Qed.

Lemma prune_fold_files l w q :
  q ∈ files (foldl prune_step w l) ↔ q ∈ files w ∧ q ∉ location <$> l.
Proof.
  revert w. induction l as [|f l IH]; intros w; simpl.
  - split; [intros ?; split; [done|apply not_elem_of_nil]|by intros [? _]].
  - rewrite IH. simpl. rewrite list_elem_of_filter, not_elem_of_cons.
    tauto.
Qed.

Lemma prune_fold_frame l w :
  favorites (store (foldl prune_step w l)) = favorites (store w) ∧
  txn (store (foldl prune_step w l)) = txn (store w) ∧
  faults (store (foldl prune_step w l)) = faults (store w).
Proof.
  revert w. induction l as [|f l IH]; intros w; simpl; [done|].
  destruct (IH (prune_step w f)) as (-> & -> & ->). done.
Qed.

Lemma reset_all_snoc l f r :
  reset_all (l ++ [f]) r = reset_row (col "content_url" f) (reset_all l r).
Proof. unfold reset_all. by rewrite foldl_app. Qed.

Lemma reset_all_col k l r :
  k ≠ "is_content_saved" → k ≠ "moved_content" →
  col k (reset_all l r) = col k r.
Proof.
  intros H1 H2. induction l as [|f l IH] using rev_ind; [done|].
  by rewrite reset_all_snoc, reset_row_col.
Qed.

Lemma reset_row_stable v r :
  col "is_content_saved" r = VNum 0 → col "moved_content" r = VNum 1 →
  col "is_content_saved" (reset_row v r) = VNum 0 ∧
  col "moved_content" (reset_row v r) = VNum 1.
Proof.
  intros H1 H2. unfold reset_row. destruct (holds _); [|done]. simpl.
  by rewrite col_insert_ne, !col_insert_eq.
Qed.

(** A row whose content url is that of a processed record ends reset. *)
Lemma reset_all_hit l r c :
  col "content_url" r = VStr c →
  (∃ f, f ∈ l ∧ col "content_url" f = VStr c) →
  col "is_content_saved" (reset_all l r) = VNum 0 ∧
  col "moved_content" (reset_all l r) = VNum 1.
Proof.
  intros Hc. induction l as [|f l IH] using rev_ind.
  - intros (f & []%elem_of_nil & _).
  - intros (f0 & Hin & Hf0). rewrite reset_all_snoc.
    apply elem_of_app in Hin as [Hin | ->%list_elem_of_singleton].
    + destruct IH as [H1 H2]; [by exists f0|]. by apply reset_row_stable.
    + rewrite Hf0. apply reset_row_hit. by rewrite reset_all_col.
Qed.

Lemma invalid_file_saved r :
  invalid_file r = true → holds (sql_like (col "content_name" r) "%.") = true.
Proof. unfold invalid_file. by intros [? _]%holds_and. Qed.

(** A record with a trailing-dot name is never in the unsaved-content
    poll. *)
Lemma unsaved_content_trailing_dot name r :
  holds (sql_like (col "content_name" r) "%.") = true →
  unsaved_content name r = false.
Proof.
  intros H. unfold unsaved_content.
  destruct (sql_like _ _) as [[]|]; try done. simpl.
  destruct (sql_eq (col "is_content_saved" r) (VNum 0)) as [[]|];
  destruct (sql_eq (col "content_missing" r) (VNum 0)) as [[]|];
  destruct (is_not_null (col "content_url" r)) as [[]|];
  by destruct (name_query name r) as [[]|].
Qed.

(** What a pass of [deleteInvalidFiles] does on a reliable engine, row by
    row. *)
Lemma prune_pass_rows (w : world) :
  faults (store w) = [] →
  (∀ r, r ∈ subdata (store w) → invalid_file r = true → text_columns r) →
  let w' := (deleteInvalidFiles w).2 in
  (deleteInvalidFiles w).1 = inr () ∧
  txn (store w') = txn (store w) ∧
  Forall2
    (λ r r',
       (∀ k, k ≠ "is_content_saved" → k ≠ "moved_content" → col k r' = col k r) ∧
       (invalid_file r = true →
        (location r ∉ files w') ∧
        col "is_content_saved" r' = VNum 0 ∧
        col "moved_content" r' = VNum 1))
    (subdata (store w)) (subdata (store w')).
Proof.
  intros Hf Ht. rewrite deleteInvalidFiles_reliable by done. simpl.
  set (cols := ["id"; "content_name"; "content_url"; "username";
                "account_name"; "url"]).
  set (broken := select cols invalid_file (subdata (store w))).
  split; [done|]. split; [by destruct (prune_fold_frame broken w) as (_ & -> & _)|].
  rewrite prune_fold_subdata.
  apply Forall2_fmap_r, Forall_Forall2_diag, Forall_forall. intros r Hr.
  split; [intros k ? ?; by apply reset_all_col|]. intros Hinv.
  assert (project cols r ∈ broken) as Hb.
  { unfold broken, select. apply list_elem_of_fmap. exists r. split; [done|].
    apply list_elem_of_filter. split; [by apply Is_true_true|done]. }
  destruct (Ht r Hr Hinv) as (Ha & Hn & Hu).
  destruct (col "content_url" r) as [| | | |c] eqn:Hc; try done.
  destruct (reset_all_hit broken r c Hc) as [H0 H1].
  { exists (project cols r). split; [done|].
    rewrite col_project; [done|in_list]. }
  split_and!; [|done|done].
  intros [_ Hn']%prune_fold_files. apply Hn'.
  apply list_elem_of_fmap. exists (project cols r). split; [|done].
  unfold location. rewrite !col_project; [done|in_list..].
Qed.

(** C7, as amended.  On a reliable engine, with text in the columns it
    reads, [deleteInvalidFiles] is fulfilled; for every record that is
    content-saved under a name ending in a dot it removes the file
    [$ARTIST_DIR/account_name/gallery/content_name] and resets
    [is_content_saved] to 0 (setting [moved_content] to 1), and it changes
    no other column.  The record is not made eligible for re-acquisition:
    the unsaved-content query excludes names ending in a dot, so no later
    poll selects it. *)
Theorem deleteInvalidFiles_resets_but_never_requeues (w : world) :
  faults (store w) = [] →
  (∀ r, r ∈ subdata (store w) → invalid_file r = true → text_columns r) →
  let w' := (deleteInvalidFiles w).2 in
  (deleteInvalidFiles w).1 = inr () ∧
  Forall2
    (λ r r',
       (∀ k, k ≠ "is_content_saved" → k ≠ "moved_content" → col k r' = col k r) ∧
       (invalid_file r = true →
        (location r ∉ files w') ∧
        col "is_content_saved" r' = VNum 0 ∧
        col "moved_content" r' = VNum 1 ∧
        invalid_file r' = false ∧
        ∀ name, unsaved_content name r' = false))
    (subdata (store w)) (subdata (store w')).
Proof.
  intros Hf Ht. destruct (prune_pass_rows w Hf Ht) as (Hres & _ & HF).
  split; [done|]. eapply Forall2_impl; [exact HF|].
  intros r r' [Hk Hinv]. split; [done|]. intros Hi.
  destruct (Hinv Hi) as (Hloc & H0 & H1). split_and!; [done..| |].
  - unfold invalid_file. rewrite H0. by destruct (sql_like _ _) as [[]|].
  - intros name. apply unsaved_content_trailing_dot.
    rewrite Hk by done. by apply invalid_file_saved.
Qed.

(** ** Reset records and the reorganize query *)

Lemma getAllUnmovedContentData_rows d rows d' :
  getAllUnmovedContentData d = (inr rows, d') →
  ∃ src, rows = project ["content_url"; "content_name"; "username"; "account_name"]
                  <$> src ∧
         ∀ r, r ∈ src → r ∈ subdata d ∧ unmoved r = true.
Proof.
  unfold getAllUnmovedContentData. intros H.
  destruct (all_cases (λ d, select
              ["content_url"; "content_name"; "username"; "account_name"]
              unmoved (subdata d)) d)
    as (d1 & (Hs & _) & [Hall | Hall]); rewrite Hall in H; [done|].
  injection H as <- <-. unfold select. eexists. split; [done|].
  intros r [Hp Hin]%list_elem_of_filter. rewrite <- Hs.
  split; [done|]. by apply Is_true_true.
Qed.

(** C10.  [setContentNotSaved] clears [is_content_saved] and sets
    [moved_content] on the rows with the given content url, so such a row
    does not satisfy the condition of the unmoved-content query; and a
    submission reset by the prune pass stays out of every later result of
    [getAllUnmovedContentData], whatever the pipeline writes afterwards. *)
Theorem reset_records_are_never_unmoved :
  (∀ (d : db) (c : string),
     faults d = [] →
     let d' := (setContentNotSaved (VStr c) d).2 in
     (setContentNotSaved (VStr c) d).1 = inr () ∧
     Forall2 (λ r r',
                if decide (col "content_url" r = VStr c)
                then col "is_content_saved" r' = VNum 0 ∧
                     col "moved_content" r' = VNum 1 ∧
                     unmoved r' = false
                else r' = r)
             (subdata d) (subdata d')) ∧
  (∀ (w : world) (u : string) (ops : list op),
     faults (store w) = [] → txn (store w) = None →
     (∀ r, r ∈ subdata (store w) → invalid_file r = true → text_columns r) →
     (∃ r, r ∈ subdata (store w) ∧ col "url" r = VStr u) →
     (∀ r, r ∈ subdata (store w) → col "url" r = VStr u → invalid_file r = true) →
     DeleteSubmission (VStr u) ∉ ops →
     let d := exec ops (store (DownloadContent.deleteInvalidFiles w).2) in
     (∀ r, r ∈ subdata d → col "url" r = VStr u →
           col "moved_content" r = VNum 1 ∧ unmoved r = false) ∧
     (∀ rows d', getAllUnmovedContentData d = (inr rows, d') →
        ∃ src, rows = project ["content_url"; "content_name"; "username";
                               "account_name"] <$> src ∧
               ∀ r, r ∈ src → r ∈ subdata d ∧ col "url" r ≠ VStr u)).
Proof.
  split.
  - intros d c Hf. rewrite setContentNotSaved_reliable by done. simpl.
    split; [done|].
    apply Forall2_fmap_r, Forall_Forall2_diag, Forall_forall. intros r _.
    destruct (decide _) as [Hc|Hc].
    + destruct (reset_row_hit c r Hc) as [H1 H2]. split_and!; [done|done|].
      by apply unmoved_moved.
    + by apply reset_row_miss.
  - intros w u ops Hf Ht Htext (r0 & Hr0 & Hu0) Hinv Hops d.
    pose proof (prune_pass_rows w Hf Htext) as (_ & Htx & HF).
    cbv zeta in Htx, HF.
    set (w' := (DownloadContent.deleteInvalidFiles w).2) in *.
    assert (recorded "moved_content" u (store w')) as Hrec.
    { split; [congruence|]. split.
      - apply list_elem_of_lookup in Hr0 as [i Hi].
        destruct (Forall2_lookup_l _ _ _ _ _ HF Hi) as (r' & Hi' & Hk & _).
        exists r'. split; [by eapply list_elem_of_lookup_2|].
        by rewrite Hk.
      - intros r' [i Hi']%list_elem_of_lookup Hu'.
        destruct (Forall2_lookup_r _ _ _ _ _ HF Hi') as (r & Hi & Hk & Hres).
        apply Hres, Hinv; [by eapply list_elem_of_lookup_2|].
        by rewrite <- Hk. }
    assert (∀ r, r ∈ subdata d → col "url" r = VStr u →
                 col "moved_content" r = VNum 1 ∧ unmoved r = false) as Hd.
    { intros r Hr Hu.
      destruct (exec_recorded "moved_content" u ops (store w')) as [_ [_ Hall]];
        [by right; right|done|done|].
      specialize (Hall r Hr Hu). split; [done|]. by apply unmoved_moved. }
    split; [done|]. intros rows d' Hq.
    apply getAllUnmovedContentData_rows in Hq as (src & -> & Hsrc).
    exists src. split; [done|]. intros r Hr.
    destruct (Hsrc r Hr) as [Hin Hun]. split; [done|]. intros Hu.
    destruct (Hd r Hin Hu) as [_ Hfalse]. congruence.
Qed.

(** ** The favorites batch *)

Lemma insert_favorites_row_tuple username v t :
  insert_favorites_row t
    [ ("id", VStr (to_string username +:+ "_" +:+ to_string v));
      ("username", username); ("url", v) ]
  = if existsb (λ o, holds (sql_eq (fav_id o) (fav_id (fav_of username v)))) t
    then inl (SqlError "SQLITE_CONSTRAINT: UNIQUE constraint failed: favorites.id")
    else inr (filter (λ o, ¬ same_pair o (fav_of username v)) t ++ [fav_of username v]).
Proof. done. Qed.

Lemma holds_sql_eq_strs a b :
  is_string a = true → is_string b = true →
  holds (sql_eq a b) = true → a = b.
Proof.
  destruct a, b; try done. simpl. unfold sql_eq. simpl.
  destruct (String.eqb s s0) eqn:He; [|done]. apply String.eqb_eq in He. by subst.
Qed.

(** Relations of the same user and url carry the same id. *)
Lemma same_pair_same_id username v0 v :
  is_string v0 = true → is_string v = true →
  same_pair (fav_of username v0) (fav_of username v) = true →
  holds (sql_eq (fav_id (fav_of username v0)) (fav_id (fav_of username v))) = true.
Proof.
  intros H0 H1 [_ Hp]%andb_true_iff. simpl in *.
  destruct v0 as [| | | |s0], v as [| | | |s1]; try done.
  apply (holds_sql_eq_strs (VStr s0) (VStr s1)) in Hp; [|done..].
  injection Hp as ->. simpl. by rewrite String.eqb_refl.
Qed.

Lemma insert_favorites_keeps username valid f f' x :
  x ∈ f →
  (∀ v, v ∈ valid → same_pair x (fav_of username v) = true →
        holds (sql_eq (fav_id x) (fav_id (fav_of username v))) = true) →
  insert_rows insert_favorites_row f (fav_tuples username valid) = inr f' →
  x ∈ f'.
Proof.
  revert f. induction valid as [|v valid IH]; intros f Hx Hid; simpl.
  - by intros [= <-].
  - rewrite insert_favorites_row_tuple.
    destruct (existsb _ f) eqn:Hex; [done|]. apply IH.
    + apply elem_of_app. left. apply list_elem_of_filter. split; [|done].
      intros Hp%Is_true_true. apply Hid in Hp; [|by left].
      assert (existsb (λ o, holds (sql_eq (fav_id o) (fav_id (fav_of username v)))) f
              = true) as Hex'; [|congruence].
      apply existsb_exists. exists x. split; [by apply list_elem_of_In|done].
    + intros v' Hv'. apply Hid. by right.
Qed.

(** A fulfilled batch holds the relation of every valid url. *)
Lemma insert_favorites_all username valid f f' :
  Forall (λ v, is_string v = true) valid →
  insert_rows insert_favorites_row f (fav_tuples username valid) = inr f' →
  ∀ v, v ∈ valid → fav_of username v ∈ f'.
Proof.
  revert f. induction valid as [|v0 valid IH]; intros f Hs; simpl.
  - intros _ v []%elem_of_nil.
  - apply Forall_cons in Hs as [Hs0 Hs]. rewrite insert_favorites_row_tuple.
    destruct (existsb _ f) eqn:Hex; [done|]. intros Hi v [-> | Hv]%elem_of_cons.
    + eapply insert_favorites_keeps; [| |exact Hi].
      * apply elem_of_app. right. by left.
      * intros v Hv. apply same_pair_same_id; [done|].
        by eapply (proj1 (Forall_forall _ _) Hs).
    + by eapply IH.
Qed.

Lemma append_inj_r a b c : a +:+ b = a +:+ c → b = c.
Proof. induction a as [|x a IH]; simpl; [done|]. intros [= H]. by apply IH. Qed.

Lemma fav_id_fresh username v0 v :
  is_string v0 = true → is_string v = true → v0 ≠ v →
  holds (sql_eq (fav_id (fav_of username v0)) (fav_id (fav_of username v))) = false.
Proof.
  intros H0 H1 Hne. destruct v0 as [| | | |s0], v as [| | | |s1]; try done.
  simpl. unfold sql_eq. simpl.
  destruct (String.eqb _ _) eqn:He; [|done]. apply String.eqb_eq in He.
  apply append_inj_r, append_inj_r in He. congruence.
Qed.

(** Distinct valid urls whose relations are new are all inserted. *)
Lemma insert_favorites_succeeds username valid f :
  Forall (λ v, is_string v = true) valid → NoDup valid →
  (∀ v o, v ∈ valid → o ∈ f →
          holds (sql_eq (fav_id o) (fav_id (fav_of username v))) = false) →
  ∃ f', insert_rows insert_favorites_row f (fav_tuples username valid) = inr f'.
Proof.
  revert f. induction valid as [|v0 valid IH]; intros f Hs Hnd Hfresh; simpl.
  - by eexists.
  - apply Forall_cons in Hs as [Hs0 Hs]. apply NoDup_cons in Hnd as [Hnin Hnd].
    rewrite insert_favorites_row_tuple.
    destruct (existsb _ f) eqn:Hex.
    + apply existsb_exists in Hex as (o & Ho%list_elem_of_In & Hh).
      rewrite (Hfresh v0 o) in Hh; [done|by left|done].
    + apply IH; [done|done|].
      intros v o Hv [[_ Ho]%list_elem_of_filter | ->%list_elem_of_singleton]%elem_of_app.
      * apply Hfresh; [by right|done].
      * apply fav_id_fresh; [done| |congruence].
        by eapply (proj1 (Forall_forall _ _) Hs).
Qed.

Lemma filter_valid_strings ls :
  Forall (λ v, is_string v = true)
    (List.filter (λ v, validateInput (Prim v) "string") ls).
Proof.
  apply Forall_forall. intros v [_ Hv]%list_elem_of_In%filter_In. by destruct v.
Qed.

Lemma is_marked_assign username r :
  is_marked username
    (assign [("is_favorite", VNum 1); ("favorite_username", username)] r).
Proof.
  unfold is_marked. simpl. by rewrite col_insert_ne, !col_insert_eq.
Qed.

(** A row whose url is a valid entry of the list ends marked. *)
Lemma mark_row_hit username ls r v :
  v ∈ ls → is_string v = true → col "url" r = v →
  is_marked username (mark_row username ls r).
Proof.
  intros Hin Hs Hu. induction ls as [|x ls IH] using rev_ind;
    [by apply elem_of_nil in Hin|].
  rewrite mark_row_snoc. cbv zeta.
  apply elem_of_app in Hin as [Hin | Hx%list_elem_of_singleton].
  - destruct (_ && _); [apply is_marked_assign|by apply IH].
  - subst x. rewrite mark_row_url, Hu. destruct v as [| | | |s]; try done.
    rewrite sql_eq_str_refl. apply is_marked_assign.
Qed.

(** A row whose url is no valid entry of the list is left alone. *)
Lemma mark_row_miss username ls r :
  (∀ v, v ∈ ls → is_string v = true → col "url" r ≠ v) →
  mark_row username ls r = r.
Proof.
  intros Hm. induction ls as [|x ls IH] using rev_ind; [done|].
  rewrite mark_row_snoc. cbv zeta.
  rewrite IH by (intros v Hv; apply Hm, elem_of_app; by left).
  destruct (validateInput (Prim x) "string") eqn:Hx; [|done]. simpl.
  destruct (holds _) eqn:Hh; [|done].
  destruct x as [| | | |s]; try done.
  apply (holds_sql_eq_strs _ (VStr s)) in Hh; [|by destruct (col "url" r)|done].
  exfalso. by apply (Hm (VStr s)); [apply elem_of_app; right; left|done|].
Qed.

Lemma mark_loop_reliable username ls d :
  faults d = [] →
  for_each (λ url, if validateInput (Prim url) "string"
                   then run (mark_favorite username url)
                   else mret ()) ls d
  = (inr (), with_subdata (mark_row username ls <$> subdata d) d).
Proof.
  revert d. induction ls as [|x ls IH]; intros d Hf; cbn [for_each].
  - unfold mark_row. cbn [foldl]. rewrite list_fmap_id. by destruct d.
  - unfold bind at 1. destruct (validateInput (Prim x) "string") eqn:Hx.
    + rewrite run_reliable, mark_favorite_plain by done. rewrite IH by done.
      unfold with_subdata. cbn [subdata favorites txn faults]. f_equal. f_equal.
      rewrite <- list_fmap_compose. apply list_fmap_ext. intros i r _.
      unfold mark_row. cbn [foldl compose]. by rewrite Hx.
    + cbn [mret M_ret ret]. rewrite IH by done. f_equal. f_equal.
      apply list_fmap_ext. intros i r _. unfold mark_row. cbn [foldl].
      by rewrite Hx.
Qed.

Lemma bind_inr {S A B} (m : M S A) (k : A → M S B) s a s' :
  m s = (inr a, s') → (m ≫= k) s = k a s'.
Proof. intros H. unfold mbind, M_bind, bind. by rewrite H. Qed.

Lemma catch_inr {S A} (m : M S A) h s a s' :
  m s = (inr a, s') → catch m h s = (inr a, s').
Proof. intros H. unfold catch. by rewrite H. Qed.

(** On a reliable engine the batch is committed as soon as the insert of
    the relations goes through. *)
Lemma saveFavorites_reliable username ls d f' :
  faults d = [] → txn d = None → is_string username = true →
  List.filter (λ v, validateInput (Prim v) "string") ls ≠ [] →
  insert_rows insert_favorites_row (favorites d)
    (fav_tuples username (List.filter (λ v, validateInput (Prim v) "string") ls))
  = inr f' →
  (saveFavorites username (Arr ls) d).1 = inr RunResult.
Proof.
  intros Hf Ht Hu Hne Hi. unfold saveFavorites.
  destruct ls as [|l0 ls0]; [done|]. set (ls := l0 :: ls0) in *.
  destruct username as [| | | |un]; try done.
  change (validateInput (Prim (VStr un)) "string") with true.
  cbn [negb]. cbv iota.
  erewrite catch_inr; [done|].
  erewrite bind_inr;
    [|rewrite run_reliable by done; unfold begin_transaction; by rewrite Ht].
  cbv beta zeta.
  destruct (List.filter _ ls) as [|v0 valid0] eqn:Hvalid; [done|].
  cbn [fmap list_fmap]. cbv iota.
  erewrite bind_inr.
  2: { unfold genericInsert. erewrite catch_inr; [done|].
       rewrite run_reliable by done.
       match goal with |- context [exec_insert _ _ _ _ ?d0] =>
         pose proof (exec_insert_favorites (VStr un) (v0 :: valid0) d0) as Hx
       end.
       cbn [fmap list_fmap] in Hx. rewrite Hx by done. cbn [favorites].
       by rewrite Hi. }
  erewrite bind_inr; [|by apply mark_loop_reliable].
  erewrite bind_inr; [|rewrite run_reliable by done; done].
  done.
Qed.

(** C6.  A favorites batch is all-or-nothing.  Whatever fails during the
    batch, [saveFavorites] leaves no transaction open and either resolves
    with a result, in which case the relation of every valid url of the
    list is in [favorites] and every row of a valid url is marked as a
    favorite of the user (entries that are not strings are skipped and rows
    of other urls are untouched), or it resolves with null or is rejected,
    in which case both tables are as they were.  On a reliable engine a
    list with at least one valid url, whose valid urls are distinct and not
    yet favorites of the user, is committed. *)
Theorem saveFavorites_all_or_nothing (username : value) (ls : list value) (d : db) :
  txn d = None →
  let valid := List.filter (λ v, validateInput (Prim v) "string") ls in
  let res := saveFavorites username (Arr ls) d in
  txn res.2 = None ∧
  match res.1 with
  | inr RunResult =>
      (∀ v, v ∈ valid → fav_of username v ∈ favorites res.2) ∧
      Forall2 (λ r r',
                 (col "url" r ∈ valid → is_marked username r') ∧
                 (col "url" r ∉ valid → r' = r))
              (subdata d) (subdata res.2)
  | _ => subdata res.2 = subdata d ∧ favorites res.2 = favorites d
  end ∧
  (faults d = [] → is_string username = true → valid ≠ [] → NoDup valid →
   (∀ v o, v ∈ valid → o ∈ favorites d →
           holds (sql_eq (fav_id o) (fav_id (fav_of username v))) = false) →
   res.1 = inr RunResult).
Proof.
  intros Ht valid res.
  pose proof (saveFavorites_spec username ls d Ht) as Hspec. fold res in Hspec.
  pose proof (filter_valid_strings ls) as Hstr. fold valid in Hstr.
  assert (∀ v, v ∈ valid ↔ v ∈ ls ∧ is_string v = true) as Hvalid.
  { intros v. unfold valid. rewrite list_elem_of_In, filter_In, <- list_elem_of_In.
    by destruct v. }
  split_and!.
  - destruct res as [[e|[]] d']; simpl; by destruct Hspec as (? & _).
  - destruct res as [[e|[]] d']; simpl; [by destruct Hspec as (_ & ? & ?)..|].
    destruct Hspec as (_ & Hs & Hi & _). fold valid in Hi. split.
    + by apply (insert_favorites_all username valid (favorites d)).
    + rewrite Hs. apply Forall2_fmap_r, Forall_Forall2_diag, Forall_forall.
      intros r _. split.
      * intros [Hin Hv]%Hvalid. by apply (mark_row_hit username ls r (col "url" r)).
      * intros Hn. apply mark_row_miss. intros v Hin Hv Hu.
        apply Hn. rewrite Hu. by apply Hvalid.
  - intros Hf Hu Hne Hnd Hfresh.
    destruct (insert_favorites_succeeds username valid (favorites d))
      as [f' Hf']; [done..|].
    by apply (saveFavorites_reliable username ls d f').
Qed.

(** ** The harvest loop *)

Import ScrapeData.

Lemma logged_logged es1 es2 w : logged es2 (logged es1 w) = logged (es1 ++ es2) w.
Proof. unfold logged. simpl. by rewrite <- app_assoc. Qed.

(** One failed fetch of the detail page of [links[index]]. *)
Lemma harvest_no_response dc links script index retryCount link w :
  links !! index = Some link → stop_now w = false →
  harvest dc links (NoResponse :: script) index retryCount w
  = if (2 * S retryCount <? maxRetries)%nat
    then harvest dc links script index (S retryCount)
           (logged [Fetched (to_string (col "url" link));
                    Waited (30 * Z.of_nat (S retryCount) * 1000)] w)
    else harvest dc links script (S index) 0
           (logged [Fetched (to_string (col "url" link));
                    WaitedRandom 2000 3500] w).
Proof.
  intros Hl Hs. cbn [harvest].
  unfold mbind, M_bind, bind, get, emit, modify, waitFor, waitForRandom, emit, modify.
  cbn beta iota. rewrite Hl, Hs. cbn beta iota.
  destruct (2 * S retryCount <? maxRetries)%nat; unfold logged; simpl;
    by rewrite <- app_assoc.
Qed.

(** One failed fetch of a listing page. *)
Lemma walk_failed url username isScraps isFavorites script cpc cl nl np retryCount w :
  stop_now w = false →
  let pageUrl := if String.eqb np "" then url +:+ pretty cpc else np in
  walk url username isScraps isFavorites (Failed :: script) cpc cl nl np retryCount w
  = if (S retryCount <? maxRetries)%nat
    then walk url username isScraps isFavorites script cpc cl nl np (S retryCount)
           (logged [Fetched pageUrl; Waited (30 * Z.of_nat (S retryCount) * 1000)] w)
    else (inr (Some ()), with_stop true (logged [Fetched pageUrl] w)).
Proof.
  intros Hs pageUrl. cbn [walk].
  unfold mbind, M_bind, bind, get, emit, modify, waitFor, waitForRandom, emit, modify.
  cbn beta iota. rewrite Hs. cbn beta iota. fold pageUrl.
  destruct (S retryCount <? maxRetries)%nat; unfold logged; simpl;
    by rewrite <- ?app_assoc.
Qed.

(** C8.  In the harvest loop an item whose detail page does not load is
    fetched three times, half of the six fetches after which the walker
    declares an outage, waiting 30 s and then 60 s in between; after the
    third failure the loop waits its usual random delay and goes on with
    the next index and a retry counter of zero, without touching the store:
    the rest of the batch is processed. *)
Theorem harvest_skips_item_after_three_failures (downloadComments : bool)
    (links : list row) (script : list detail) (index : nat) (link : row)
    (w : world) :
  links !! index = Some link → stop_now w = false →
  let url := to_string (col "url" link) in
  harvest downloadComments links
    (NoResponse :: NoResponse :: NoResponse :: script) index 0 w
  = harvest downloadComments links script (S index) 0
      (logged [ Fetched url; Waited 30000; Fetched url; Waited 60000;
                Fetched url; WaitedRandom 2000 3500 ] w) ∧
  ∀ gallery username isScraps isFavorites pages page found fresh,
    walk gallery username isScraps isFavorites (replicate 6 Failed ++ pages)
      page found fresh "" 0 w
    = (inr (Some ()),
       with_stop true
         (logged [ Fetched (gallery +:+ pretty page); Waited 30000;
                   Fetched (gallery +:+ pretty page); Waited 60000;
                   Fetched (gallery +:+ pretty page); Waited 90000;
                   Fetched (gallery +:+ pretty page); Waited 120000;
                   Fetched (gallery +:+ pretty page); Waited 150000;
                   Fetched (gallery +:+ pretty page) ] w)).
Proof.
  intros Hl Hs url. split.
  - rewrite (harvest_no_response _ _ _ _ _ link) by done.
    change (2 * 1 <? maxRetries)%nat with true. cbv iota.
    rewrite (harvest_no_response _ _ _ _ _ link) by done.
    change (2 * 2 <? maxRetries)%nat with true. cbv iota.
    rewrite (harvest_no_response _ _ _ _ _ link) by done.
    change (2 * 3 <? maxRetries)%nat with false. cbv iota.
    by rewrite !logged_logged.
  - intros. cbn [replicate app].
    do 5 (rewrite walk_failed by done; cbv zeta;
          match goal with |- context [(?a <? maxRetries)%nat] =>
            change (a <? maxRetries)%nat with true end; cbv iota).
    rewrite walk_failed by done. cbv zeta.
    change (6 <? maxRetries)%nat with false. cbv iota.
    by rewrite !logged_logged.
Qed.

(** ** Downloads *)

Import DownloadContent.

Lemma filter_ne_idem {A} `{EqDecision A} (x : A) (l : list A) :
  filter (λ q, q ≠ x) (filter (λ q, q ≠ x) l) = filter (λ q, q ≠ x) l.
Proof. apply list_filter_filter_l. done. Qed.

Lemma filter_ne_snoc {A} `{EqDecision A} (x : A) (l : list A) :
  filter (λ q, q ≠ x) (l ++ [x]) = filter (λ q, q ≠ x) l.
Proof.
  rewrite filter_app, filter_cons_False, filter_nil, app_nil_r; [done|].
  by intros H.
Qed.

(** The files left by a transfer that failed and was cleaned up. *)
Lemma cleaned_files (p : path) w :
  filter (λ q, q ≠ p)
    (files (if existsSync p w then w else with_files (files w ++ [p]) w))
  = filter (λ q, q ≠ p) (files w).
Proof. destruct (existsSync p w); [done|]. simpl. apply filter_ne_snoc. Qed.

Lemma blank_truthy s : blank s = false → truthy (VStr s) = true.
Proof. by destruct s. Qed.

Lemma no_username_str s : blank s = false → no_username (VStr s) = false.
Proof. intros H. unfold no_username. by rewrite blank_truthy, H. Qed.

(** One attempt of [downloadSetup] whose transfer fails. *)
Lemma downloadSetup_failing net cu name user sub k w :
  failing (net k) → stop_now w = false →
  blank user = false → ends_with_dot name = false →
  downloadSetup net cu (VStr name) (VStr user) sub k w
  = let w' := with_files (filter (λ q, q ≠ [ARTIST_DIR; user; sub; name]) (files w)) w in
    if decide (k < maxRetries)%nat
    then downloadSetup net cu (VStr name) (VStr user) sub (S k) w'
    else (inr VUndef, w').
Proof.
  intros (Hr & He & Hd & Ht) Hs Hb Hn. rewrite downloadSetup_equation_1.
  unfold mbind, M_bind, bind, observe_stop. rewrite Hr, Hs. cbn beta iota.
  rewrite no_username_str by done. cbn [segment mret M_ret ret]. cbn beta iota zeta.
  cbn [to_string]. rewrite Hn, He, Hd. cbn beta iota.
  unfold catch, create_file, remove, modify, join. cbn beta iota.
  assert (∀ w0 : world,
    with_files (filter (λ q, q ≠ [ARTIST_DIR; user; sub; name])
      (files (if existsSync [ARTIST_DIR; user; sub; name] w0 then w0
              else with_files (files w0 ++ [[ARTIST_DIR; user; sub; name]]) w0)))
      (if existsSync [ARTIST_DIR; user; sub; name] w0 then w0
       else with_files (files w0 ++ [[ARTIST_DIR; user; sub; name]]) w0)
    = with_files (filter (λ q, q ≠ [ARTIST_DIR; user; sub; name]) (files w0)) w0)
    as Hclean.
  { intros w0. rewrite cleaned_files. by destruct (existsSync _ w0). }
  cbn [mret M_ret ret throw app].
  destruct (outcome_of_transfer (net k)); [done| |];
    cbn [mret M_ret ret throw app]; cbn beta iota; rewrite Hclean;
    by destruct (decide (k < maxRetries)%nat).
Qed.

(** An attempt of [downloadSetup] whose transfer succeeds. *)
Lemma downloadSetup_succeeding net cu name user sub k w :
  succeeding (net k) → stop_now w = false →
  blank user = false → ends_with_dot name = false →
  downloadSetup net cu (VStr name) (VStr user) sub k w
  = (inr VUndef,
     if existsSync [ARTIST_DIR; user; sub; name] w then w
     else with_files (files w ++ [[ARTIST_DIR; user; sub; name]]) w).
Proof.
  intros (Hr & He & Hd & Ht) Hs Hb Hn. rewrite downloadSetup_equation_1.
  unfold mbind, M_bind, bind, observe_stop. rewrite Hr, Hs. cbn beta iota.
  rewrite no_username_str by done. cbn [segment mret M_ret ret]. cbn beta iota zeta.
  cbn [to_string]. rewrite Hn, He, Hd. cbn beta iota.
  unfold catch, create_file, remove, modify, join. cbn beta iota.
  cbn [mret M_ret ret throw app]. by rewrite Ht.
Qed.

(** When every attempt fails, [downloadSetup] resolves, with undefined,
    once the retries are used up. *)
Lemma downloadSetup_exhausted net cu name user sub n k w :
  (k + n = maxRetries)%nat →
  (∀ j, (j ≤ maxRetries)%nat → failing (net j)) → stop_now w = false →
  blank user = false → ends_with_dot name = false →
  downloadSetup net cu (VStr name) (VStr user) sub k w
  = (inr VUndef,
     with_files (filter (λ q, q ≠ [ARTIST_DIR; user; sub; name]) (files w)) w).
Proof.
  revert k w. induction n as [|n IH]; intros k w Hk Hnet Hs Hb Hn;
    rewrite downloadSetup_failing by (try apply Hnet; done || lia); cbv zeta.
  - destruct (decide _); [lia|done].
  - destruct (decide _); [|lia]. rewrite IH by (done || lia). simpl.
    unfold with_files. simpl. by rewrite filter_ne_idem.
Qed.

Lemma blank_app s t : blank (s +:+ t) = blank s && blank t.
Proof.
  unfold blank, chars. induction s as [|c s IH]; simpl; [done|].
  rewrite IH. by destruct (is_space c).
Qed.

Lemma blank_escape s : blank s = false → blank (escape_trailing_dot s) = false.
Proof.
  intros H. unfold escape_trailing_dot. destruct (ends_with_dot s); [|done].
  by rewrite blank_app, H.
Qed.

(** [downloadSpecificContent] on a downloadable row, up to the settlement
    of [downloadSetup]. *)
Lemma downloadSpecificContent_resolved net r owner name c w v w1 :
  downloadable r owner name c → stop_now w = false →
  raised (net 0%nat) = false → faults (store w1) = [] →
  downloadSetup net (VStr c) (VStr name) (VStr (escape_trailing_dot owner))
    (subfolder_of r) 0 w = (inr v, w1) →
  downloadSpecificContent net r w
  = (inr (), with_store
               (with_subdata (saved_row (VStr c) <$> subdata (store w1)) (store w1))
               w1).
Proof.
  intros (Ha & Hb & Hn & Hd & Hc) Hs Hr Hf Hset. unfold downloadSpecificContent.
  erewrite bind_inr; [|unfold observe_stop; by rewrite Hr].
  rewrite Hs. cbn beta iota. rewrite Ha. unfold js_or. rewrite !blank_truthy by done.
  cbn [to_string]. rewrite no_username_str by done. cbn beta iota.
  rewrite Hn, Hc. fold (subfolder_of r).
  erewrite catch_inr; [done|]. erewrite bind_inr; [|exact Hset].
  unfold on_store. by rewrite setContentSaved_reliable.
Qed.

(** When every transfer of a downloadable row fails, so that the retry
    budget is used up, the content worker marks the row Saved, and Moved,
    although no file was written. *)
Lemma exhausted_retries_mark_the_row_saved net r owner name c w :
  downloadable r owner name c → stop_now w = false → faults (store w) = [] →
  (∀ j, (j ≤ maxRetries)%nat → failing (net j)) →
  let loc := [ARTIST_DIR; escape_trailing_dot owner; subfolder_of r; name] in
  downloadSpecificContent net r w
  = (inr (),
     World (with_subdata (saved_row (VStr c) <$> subdata (store w)) (store w))
           (filter (λ q, q ≠ loc) (files w)) false (trace w)).
Proof.
  intros Hrow Hs Hf Hnet loc.
  pose proof Hrow as (Ha & Hb & Hn & Hd & Hc).
  erewrite downloadSpecificContent_resolved; [|done|done| | |].
  4: { apply (downloadSetup_exhausted _ _ _ _ _ maxRetries 0);
         [done|done|done|by apply blank_escape|done]. }
  - simpl. unfold with_store. simpl. by rewrite Hs.
  - by destruct (Hnet 0%nat) as (? & _); [unfold maxRetries; lia|].
  - done.
Qed.

(** When [k] transfers fail, with [k] within the budget, and the next one
    succeeds, the file is on disk and the row is marked Saved. *)
Lemma download_succeeds_within_budget net r owner name c k w :
  downloadable r owner name c → stop_now w = false → faults (store w) = [] →
  (k ≤ maxRetries)%nat →
  (∀ j, (j < k)%nat → failing (net j)) → succeeding (net k) →
  let loc := [ARTIST_DIR; escape_trailing_dot owner; subfolder_of r; name] in
  ∃ fs, loc ∈ fs ∧
    downloadSpecificContent net r w
    = (inr (),
       World (with_subdata (saved_row (VStr c) <$> subdata (store w)) (store w))
             fs false (trace w)).
Proof.
  intros Hrow Hs Hf Hk Hfail Hok loc.
  pose proof Hrow as (Ha & Hb & Hn & Hd & Hc).
  assert (∀ n j w0, (j + n = k)%nat → stop_now w0 = false →
            ∃ fs, loc ∈ fs ∧
              downloadSetup net (VStr c) (VStr name)
                (VStr (escape_trailing_dot owner)) (subfolder_of r) j w0
              = (inr VUndef, with_files fs w0)) as Hsetup.
  { induction n as [|n IH]; intros j w0 Hj Hs0.
    - assert (j = k) as -> by lia.
      rewrite downloadSetup_succeeding; [|done|done|by apply blank_escape|done].
      fold loc. destruct (existsSync loc w0) eqn:He.
      + exists (files w0). split; [by apply bool_decide_eq_true in He|].
        by destruct w0.
      + exists (files w0 ++ [loc]). split; [|done].
        apply elem_of_app. right. by left.
    - rewrite downloadSetup_failing;
        [|apply Hfail; lia|done|by apply blank_escape|done].
      cbv zeta. fold loc. destruct (decide _); [|lia].
      destruct (IH (S j) (with_files (filter (λ q, q ≠ loc) (files w0)) w0))
        as (fs & Hin & ->); [lia|done|]. by exists fs. }
  destruct (Hsetup k 0%nat w) as (fs & Hin & Hset); [lia|done|].
  exists fs. split; [done|].
  erewrite downloadSpecificContent_resolved; [|done|done| | |exact Hset].
  - unfold with_store. simpl. by rewrite Hs.
  - destruct k; [by destruct Hok|]. by destruct (Hfail 0%nat) as (? & _); [lia|].
  - done.
Qed.

(** ** The gallery walk *)

Import ScrapeData.

Lemma find_None {A} (p : A → bool) (l : list A) :
  (∀ x, x ∈ l → p x = false) → List.find p l = None.
Proof.
  induction l as [|x l IH]; intros H; simpl; [done|].
  rewrite (H x) by by left. apply IH. intros y Hy. apply H. by right.
Qed.

Lemma strict_eq_str_true v s : strict_eq_str v s = true → v = VStr s.
Proof.
  destruct v; simpl; try done. intros H%String.eqb_eq. by subst.
Qed.

Lemma getAllSubmissionsForUser_rows username d rows d' :
  getAllSubmissionsForUser username d = (inr rows, d') →
  same_tables d d' ∧
  ∀ r, r ∈ rows → ∃ r0, r0 ∈ subdata d ∧ r = project subdata_columns r0 ∧
                        holds (sql_eq (col "is_content_saved" r0) (VNum 1)) = true.
Proof.
  unfold getAllSubmissionsForUser, catch.
  destruct (negb _); [done|].
  match goal with |- context [all ?q d] =>
    destruct (all_cases q d) as (d1 & Hs & [Hall | Hall]); rewrite Hall
  end; [done|].
  intros [= <- <-]. split; [done|]. intros r Hr.
  apply select_elem in Hr as (r0 & Hin & Hp & ->).
  rewrite merge_sort_Permutation in Hin. destruct Hs as (Hs & _).
  exists r0. rewrite <- Hs. split_and!; [done|done|].
  by apply holds_and in Hp as [[_ Hp]%holds_and _].
Qed.

(** A link none of whose records has its content saved is not reported as
    processed; the check changes no table and no file. *)
Lemma isSubmissionProcessed_not_downloaded link username w :
  not_downloaded link (store w) →
  ∃ d', isSubmissionProcessed link username w = (inr false, with_store d' w) ∧
        same_tables (store w) d'.
Proof.
  intros Hnd. unfold isSubmissionProcessed.
  destruct (negb (truthy (VStr link))).
  { exists (store w). split; [by destruct w|apply same_tables_refl]. }
  unfold catch at 1. unfold mbind at 1, M_bind at 1, bind at 1.
  unfold on_store at 1, getSubmissionOwner.
  match goal with |- context [all ?q (store w)] =>
    destruct (all_cases q (store w)) as (d1 & Hs1 & [Hall | Hall]); rewrite Hall
  end.
  { by exists d1. }
  destruct (head _) as [owner|]; [|by exists d1].
  unfold catch. unfold mbind at 1, M_bind at 1, bind at 1. unfold on_store at 1.
  cbn [store with_store].
  destruct (getAllSubmissionsForUser _ d1) as [[e|rows] d2] eqn:Hq.
  { exists d2. split; [done|].
    unfold getAllSubmissionsForUser, catch in Hq.
    destruct (negb _); [by injection Hq as _ <-|].
    match type of Hq with context [all ?q d1] =>
      destruct (all_cases q d1) as (d3 & Hs3 & [Hall' | Hall']);
        rewrite Hall' in Hq
    end; injection Hq as _ <-; by eapply same_tables_trans. }
  apply getAllSubmissionsForUser_rows in Hq as [Hs2 Hrows].
  rewrite find_None.
  { exists d2. split; [done|]. by eapply same_tables_trans. }
  intros r (r0 & Hin & -> & Hsaved)%Hrows.
  rewrite !col_project by in_list.
  destruct Hs1 as (Hs1 & _). rewrite Hs1 in Hin.
  destruct (strict_eq_str (col "url" r0) link) eqn:H1.
  { apply strict_eq_str_true in H1. rewrite (Hnd r0 Hin) in Hsaved; [done|by left]. }
  destruct (strict_eq_str (col "content_url" r0) link) eqn:H2; [|done].
  apply strict_eq_str_true in H2. rewrite (Hnd r0 Hin) in Hsaved; [done|by right].
Qed.

Lemma not_downloaded_same link d d' :
  same_tables d d' → not_downloaded link d → not_downloaded link d'.
Proof. intros (Hs & _) H r Hr. apply H. by rewrite <- Hs. Qed.

(** Links none of whose records has its content saved all pass the filter
    of the walker. *)
Lemma filter_unprocessed_keeps username links w :
  Forall (λ l, not_downloaded l (store w)) links →
  ∃ d', filter_unprocessed username links w = (inr links, with_store d' w) ∧
        same_tables (store w) d'.
Proof.
  revert w. induction links as [|link links IH]; intros w Hl.
  - exists (store w). split; [by destruct w|apply same_tables_refl].
  - apply Forall_cons in Hl as [Hlink Hl]. cbn [filter_unprocessed].
    destruct (isSubmissionProcessed_not_downloaded link username w Hlink)
      as (d1 & Hp & Hs1).
    erewrite bind_inr; [|exact Hp].
    destruct (IH (with_store d1 w)) as (d2 & Hf & Hs2).
    { eapply Forall_impl; [exact Hl|]. intros l. by apply not_downloaded_same. }
    erewrite bind_inr; [|exact Hf]. exists d2. split; [done|].
    by eapply same_tables_trans.
Qed.

(** [saveLinks] only appends rows, and only rows whose url no earlier row
    holds. *)
Lemma saveLinks_appends links isScraps username d :
  ∃ fresh, subdata (saveLinks links isScraps username d).2 = subdata d ++ fresh ∧
           ∀ f, f ∈ fresh → conflict "url" f (subdata d) = false.
Proof.
  unfold saveLinks, genericInsert, catch.
  match goal with |- context [run ?f d] =>
    destruct (run_cases f d) as (d1 & (Hs & _) & [-> | ->])
  end.
  - exists []. rewrite app_nil_r. split; [done|]. by intros f ?%elem_of_nil.
  - destruct (exec_insert _ _ _ _ d1) as [e|d2] eqn:Hi.
    + exists []. rewrite app_nil_r. split; [done|]. by intros f ?%elem_of_nil.
    + apply exec_insert_subdata_shape in Hi as (fresh & -> & Hf).
      exists fresh. simpl. by rewrite Hs in *.
Qed.

(** C3, as amended.  The walker drops a scraped link before persisting only
    when [isSubmissionProcessed] reports it processed, which it does not
    for a link that is unknown or present in the store with its content not
    saved: such links all pass the filter, are handed to [saveLinks] and
    are counted in [newLinks].  Urls already present are skipped by the
    insert itself, which only appends rows with urls the table does not
    hold.  In the scenario (twenty links on page 1, five of them present
    and not harvested, no link on page 2) fifteen rows are inserted,
    [newLinks] is 20 and the walk reports 20 found, 20 new, 0 already
    downloaded. *)
Theorem walker_counts_links_not_downloaded_as_new :
  (∀ username links w,
     Forall (λ l, not_downloaded l (store w)) links →
     ∃ d', filter_unprocessed username links w = (inr links, with_store d' w) ∧
           same_tables (store w) d') ∧
  (∀ links isScraps username d,
     ∃ fresh,
       subdata (saveLinks links isScraps username d).2 = subdata d ++ fresh ∧
       ∀ f, f ∈ fresh → conflict "url" f (subdata d) = false) ∧
  (Samples.walk_end.1 = inr (Some ()) ∧
   List.length (subdata (store Samples.walk_start)) = 5%nat ∧
   List.length (subdata (store Samples.walk_end.2)) = 20%nat ∧
   trace Samples.walk_end.2
   = [ Fetched "https://fa/gallery/artist/1"; WaitedRandom 1000 2500;
       Fetched "https://fa/gallery/artist/2"; Reported 20 20 0 ]).
Proof.
  split_and!.
  - apply filter_unprocessed_keeps.
  - apply saveLinks_appends.
  - by vm_compute.
  - by vm_compute.
  - by vm_compute.
  - by vm_compute.
Qed.

(** ** The properties on sample data *)

Import Samples DownloadContent.

(** C1 (code defect).  The row of [art] is queued by the unsaved-content
    poll; all six transfers fail, which uses up the retry budget; the worker
    then marks the row Saved although no file is on disk, and the next poll
    no longer returns it. *)
Theorem exhausted_download_is_recorded_as_saved :
  polled_urls (getAllUnsavedContent VUndef art_db) = Some [VStr "https://fa/view/1/"] ∧
  let w' := (downloadSpecificContent always_failing queued_art art_world).2 in
  (downloadSpecificContent always_failing queued_art art_world).1 = inr () ∧
  files w' = [] ∧
  col "is_content_saved" <$> subdata (store w') = [VNum 1] ∧
  col "content_missing" <$> subdata (store w') = [VNum 0] ∧
  polled_urls (getAllUnsavedContent VUndef (store w')) = Some [].
Proof. by vm_compute. Qed.

(** Two failed transfers followed by a successful one leave the file on
    disk and the row Saved. *)
Example third_attempt_saves_the_file :
  let w' := (downloadSpecificContent third_time_lucky queued_art art_world).2 in
  files w' = [[ARTIST_DIR; "bob"; "gallery"; "art.png"]] ∧
  col "is_content_saved" <$> subdata (store w') = [VNum 1].
Proof. by vm_compute. Qed.

(** C2, counterexample.  A field set holding a name that is no column of
    [subdata] is not rejected: the call is fulfilled and the other field is
    written. *)
Lemma saveMetaData_accepts_an_unlisted_field :
  ("bad-key", VNum 1) ∈ mixed_fields ∧ ("bad-key" ∉ subdata_columns) ∧
  col "title" <$> subdata art_db = [VNull] ∧
  (saveMetaData (VStr "https://fa/view/1/") (Obj mixed_fields) art_db).1
  = inr RunResult ∧
  col "title"
    <$> subdata (saveMetaData (VStr "https://fa/view/1/") (Obj mixed_fields) art_db).2
  = [VStr "A title"].
Proof.
  split_and!; try by vm_compute.
  - right. left.
  - by apply (bool_decide_unpack _).
Qed.

(** C2, witness. *)
Lemma saveMetaData_drops_fields_silently_witness :
  saveMetaData (VStr "https://fa/view/1/") (Obj mixed_fields) art_db
  = saveMetaData (VStr "https://fa/view/1/") (Obj [("title", VStr "A title")]) art_db ∧
  saveMetaData (VStr "https://fa/view/1/") (Obj [("bad-key", VNum 1)]) art_db
  = (inr Null, art_db) ∧
  ∃ e, (saveMetaData (VStr "https://fa/view/1/") (Obj [("nope", VNum 1)]) art_db).1
       = inl e.
Proof.
  split_and!.
  - exact (proj1 (saveMetaData_drops_fields_silently
                    (VStr "https://fa/view/1/") mixed_fields art_db)).
  - apply (proj1 (proj2 (saveMetaData_drops_fields_silently
                    (VStr "https://fa/view/1/") [("bad-key", VNum 1)] art_db)));
      reflexivity.
  - destruct (proj2 (proj2 (saveMetaData_drops_fields_silently
                (VStr "https://fa/view/1/") [("nope", VNum 1)] art_db))
                "nope" (VNum 1)) as (e & He & _).
    + left.
    + reflexivity.
    + by exists e.
Defined.

(** C3, counterexample.  In the scenario the five known links are not
    filtered out and are counted: the walk reports 20 found, 20 new and 0
    already downloaded, where the claim has newLinks = 15 and a report of
    35, 15 and 20. *)
Lemma walk_scenario_reports_twenty_new_links :
  Forall (λ v, v ∈ col "url" <$> subdata (store walk_start)) known_links ∧
  last (trace walk_end.2) = Some (Reported 20 20 0) ∧
  (List.length (subdata (store walk_end.2))
   - List.length (subdata (store walk_start)) = 15)%nat.
Proof.
  split_and!; [|by vm_compute..].
  apply Forall_forall. intros v Hv.
  apply (bool_decide_unpack _). revert v Hv. apply Forall_forall.
  apply (bool_decide_unpack _). by vm_compute.
Qed.

(** C3, witness. *)
Lemma walker_counts_links_not_downloaded_as_new_witness :
  Forall (λ l, not_downloaded l (store walk_start))
    ["$FA_URL_BASE/view/1/"; "$FA_URL_BASE/view/9/"] ∧
  ∃ d', ScrapeData.filter_unprocessed (VStr "artist")
          ["$FA_URL_BASE/view/1/"; "$FA_URL_BASE/view/9/"] walk_start
        = (inr ["$FA_URL_BASE/view/1/"; "$FA_URL_BASE/view/9/"],
           with_store d' walk_start).
Proof.
  assert (Forall (λ l, not_downloaded l (store walk_start))
            ["$FA_URL_BASE/view/1/"; "$FA_URL_BASE/view/9/"]) as H.
  { apply Forall_forall. intros l _ r Hr _. revert r Hr. apply Forall_forall.
    apply (bool_decide_unpack _). by vm_compute. }
  split; [exact H|].
  destruct (proj1 walker_counts_links_not_downloaded_as_new (VStr "artist")
              ["$FA_URL_BASE/view/1/"; "$FA_URL_BASE/view/9/"] walk_start H)
    as (d' & Hd & _).
  by exists d'.
Defined.

(** C4, counterexample.  Marking the content of [art] saved sets
    [moved_content], with no reorganize pass involved. *)
Lemma setContentSaved_sets_moved_content :
  col "moved_content" <$> subdata art_db = [VNum 0] ∧
  (setContentSaved (VStr "https://d.fa/art/bob/art.png") art_db).1 = inr () ∧
  col "moved_content"
    <$> subdata (setContentSaved (VStr "https://d.fa/art/bob/art.png") art_db).2
  = [VNum 1].
Proof. by vm_compute. Qed.

(** C4, witness. *)
Lemma setContentSaved_also_marks_moved_witness :
  faults art_db = [] ∧
  (setContentSaved (VStr "https://d.fa/art/bob/art.png") art_db).1 = inr () ∧
  Forall2 (λ r r',
             if decide (col "content_url" r = VStr "https://d.fa/art/bob/art.png")
             then col "is_content_saved" r' = VNum 1 ∧
                  col "moved_content" r' = VNum 1 ∧
                  unmoved r' = false
             else r' = r)
          (subdata art_db)
          (subdata (setContentSaved (VStr "https://d.fa/art/bob/art.png") art_db).2).
Proof.
  split; [reflexivity|].
  apply (setContentSaved_also_marks_moved art_db "https://d.fa/art/bob/art.png").
  reflexivity.
Defined.

Lemma lost_story_flagged c :
  c = "content_missing" ∨ c = "thumbnail_missing" →
  flagged c "https://fa/view/2/" (subdata lost_db).
Proof.
  intros Hc. split.
  - exists lost_story. split; [right; left|by vm_compute].
  - apply (proj1 (Forall_forall
      (λ r, col "url" r = VStr "https://fa/view/2/" → col c r = VNum 1) _)).
    destruct Hc as [-> | ->]; apply (bool_decide_unpack _); by vm_compute.
Defined.

(** C5, witness. *)
Lemma missing_flags_are_sticky_witness :
  txn lost_db = None ∧
  (DeleteSubmission (VStr "https://fa/view/2/") ∉ later_writes) ∧
  flagged "content_missing" "https://fa/view/2/" (subdata lost_db) ∧
  flagged "thumbnail_missing" "https://fa/view/2/" (subdata lost_db) ∧
  flagged "content_missing" "https://fa/view/2/" (subdata (exec later_writes lost_db)) ∧
  flagged "thumbnail_missing" "https://fa/view/2/" (subdata (exec later_writes lost_db)).
Proof.
  assert (DeleteSubmission (VStr "https://fa/view/2/") ∉ later_writes) as Hops.
  { apply (bool_decide_unpack _). by vm_compute. }
  pose proof (missing_flags_are_sticky later_writes lost_db "https://fa/view/2/"
                eq_refl Hops) as [Hc Ht].
  split_and!; [reflexivity|exact Hops|apply lost_story_flagged; by left
              |apply lost_story_flagged; by right| |].
  - apply Hc, lost_story_flagged. by left.
  - apply Ht, lost_story_flagged. by right.
Defined.

(** C5, counterexample.  The story carries both missing flags and no poll
    returns it.  Once the harvester has deleted it, a walk has found its
    link again and the harvester has saved its data again, its new record
    carries neither flag and both polls return it. *)
Lemma relisted_submission_is_polled_again :
  flagged "content_missing" "https://fa/view/2/" (subdata lost_db) ∧
  flagged "thumbnail_missing" "https://fa/view/2/" (subdata lost_db) ∧
  polled_urls (getAllUnsavedContent VUndef lost_db)
  = Some [VStr "https://fa/view/1/"] ∧
  polled_urls (getAllUnsavedThumbnails lost_db) = Some [] ∧
  col "url" <$> subdata (exec relisted lost_db)
  = [VStr "https://fa/view/1/"; VStr "https://fa/view/2/"] ∧
  col "content_missing" <$> subdata (exec relisted lost_db) = [VNum 0; VNum 0] ∧
  col "thumbnail_missing" <$> subdata (exec relisted lost_db) = [VNum 0; VNum 0] ∧
  polled_urls (getAllUnsavedContent VUndef (exec relisted lost_db))
  = Some [VStr "https://fa/view/2/"; VStr "https://fa/view/1/"] ∧
  polled_urls (getAllUnsavedThumbnails (exec relisted lost_db))
  = Some [VStr "https://fa/view/2/"].
Proof.
  split_and!;
    [apply lost_story_flagged; by left|apply lost_story_flagged; by right
    |by vm_compute..].
Qed.

(** C6, witness: a batch with an entry that is not a string. *)
Lemma saveFavorites_all_or_nothing_witness :
  txn lost_db = None ∧
  (saveFavorites (VStr "alice") (Arr fav_links) lost_db).1 = inr RunResult ∧
  txn (saveFavorites (VStr "alice") (Arr fav_links) lost_db).2 = None.
Proof.
  pose proof (saveFavorites_all_or_nothing (VStr "alice") fav_links lost_db eq_refl)
    as (Ht & _ & Hok).
  split_and!; [reflexivity| |exact Ht].
  apply Hok; [reflexivity|reflexivity|by vm_compute| |].
  - apply (bool_decide_unpack _). by vm_compute.
  - intros v o _ Ho. by apply elem_of_nil in Ho.
Defined.

(** C7, counterexample.  The prune pass removes the file of the dotted
    record and resets its saved flag, and the next unsaved-content poll
    still does not return the record. *)
Lemma pruned_record_is_not_queued_again :
  let w' := (deleteInvalidFiles dotted_world).2 in
  (deleteInvalidFiles dotted_world).1 = inr () ∧
  files w' = [] ∧
  col "is_content_saved" <$> subdata (store w') = [VNum 0; VNum 0] ∧
  polled_urls (getAllUnsavedContent VUndef (store w'))
  = Some [VStr "https://fa/view/1/"].
Proof. by vm_compute. Qed.

Lemma dotted_world_text r :
  r ∈ subdata (store dotted_world) → invalid_file r = true → text_columns r.
Proof.
  revert r. apply (proj1 (Forall_forall
    (λ r, invalid_file r = true → text_columns r) _)).
  repeat constructor; try (intros; by vm_compute).
Defined.

(** C7, witness. *)
Lemma deleteInvalidFiles_resets_but_never_requeues_witness :
  faults (store dotted_world) = [] ∧
  (deleteInvalidFiles dotted_world).1 = inr () ∧
  Forall2
    (λ r r',
       (∀ k, k ≠ "is_content_saved" → k ≠ "moved_content" → col k r' = col k r) ∧
       (invalid_file r = true →
        (location r ∉ files (deleteInvalidFiles dotted_world).2) ∧
        col "is_content_saved" r' = VNum 0 ∧
        col "moved_content" r' = VNum 1 ∧
        invalid_file r' = false ∧
        ∀ name, unsaved_content name r' = false))
    (subdata (store dotted_world))
    (subdata (store (deleteInvalidFiles dotted_world).2)).
Proof.
  split; [reflexivity|].
  apply (deleteInvalidFiles_resets_but_never_requeues dotted_world);
    [reflexivity|apply dotted_world_text].
Defined.

(** C8, witness: the first of two links never loads, the second one is
    harvested. *)
Lemma harvest_skips_item_after_three_failures_witness :
  two_links !! 0%nat = Some (mk_row [("url", VStr "https://fa/view/7/")]) ∧
  stop_now two_links_world = false ∧
  ScrapeData.harvest false two_links
    [ScrapeData.NoResponse; ScrapeData.NoResponse; ScrapeData.NoResponse;
     ScrapeData.Submission tale_page] 0 0 two_links_world
  = ScrapeData.harvest false two_links [ScrapeData.Submission tale_page] 1 0
      (logged [ Fetched "https://fa/view/7/"; Waited 30000;
                Fetched "https://fa/view/7/"; Waited 60000;
                Fetched "https://fa/view/7/"; WaitedRandom 2000 3500 ]
         two_links_world) ∧
  col "id" <$> subdata (store (ScrapeData.harvest false two_links
    [ScrapeData.NoResponse; ScrapeData.NoResponse; ScrapeData.NoResponse;
     ScrapeData.Submission tale_page] 0 0 two_links_world).2)
  = [VNull; VStr "8"].
Proof.
  split; [reflexivity|]. split; [reflexivity|].
  pose proof (proj1 (harvest_skips_item_after_three_failures false two_links
                [ScrapeData.Submission tale_page] 0
                (mk_row [("url", VStr "https://fa/view/7/")]) two_links_world
                eq_refl eq_refl)) as H.
  split; [exact H|]. rewrite H. by vm_compute.
Defined.

(** C10, witness. *)
Lemma reset_records_are_never_unmoved_witness :
  faults (store dotted_world) = [] ∧ txn (store dotted_world) = None ∧
  (DeleteSubmission (VStr "https://fa/view/4/") ∉ later_writes) ∧
  (setContentNotSaved (VStr "https://d.fa/art/bob/pic.") (store dotted_world)).1
  = inr () ∧
  ∀ r, r ∈ subdata (exec later_writes (store (deleteInvalidFiles dotted_world).2)) →
       col "url" r = VStr "https://fa/view/4/" →
       col "moved_content" r = VNum 1 ∧ unmoved r = false.
Proof.
  assert (DeleteSubmission (VStr "https://fa/view/4/") ∉ later_writes) as Hops.
  { apply (bool_decide_unpack _). by vm_compute. }
  destruct reset_records_are_never_unmoved as [Hop Hpass].
  split_and!; [reflexivity|reflexivity|exact Hops| |].
  - apply (Hop (store dotted_world) "https://d.fa/art/bob/pic."). reflexivity.
  - apply (Hpass dotted_world "https://fa/view/4/" later_writes);
      [reflexivity|reflexivity|apply dotted_world_text| | |exact Hops].
    + exists dotted. split; [right; left|by vm_compute].
    + apply (proj1 (Forall_forall
        (λ r, col "url" r = VStr "https://fa/view/4/" → invalid_file r = true) _)).
      repeat constructor; try (intros; by vm_compute).
Defined.

(** * Further properties of the store, the workers and the scraper *)

(** ** Arguments that fail validation *)

(** Every operation that validates a string argument rejects anything else
    with an Error of its own before a statement is issued: the database,
    its schedule of failures included, is what it was. *)
Theorem invalid_argument_is_rejected_before_any_statement (v : value) (d : db) :
  is_string v = false →
  deleteSubmission v d = (inl (JsError "Invalid URL for deletion"), d) ∧
  setContentSaved v d
  = (inl (JsError "Invalid content URL for saving status update"), d) ∧
  setContentNotSaved v d
  = (inl (JsError "Invalid content URL for not-saved status update"), d) ∧
  setContentMoved v d
  = (inl (JsError "Invalid content name for moved status update"), d) ∧
  setContentMissing v d
  = (inl (JsError "Invalid content name for missing status update"), d) ∧
  setThumbnailMissing v d
  = (inl (JsError "Invalid thumbnail URL for missing status update"), d) ∧
  (∀ a b,
     setThumbnailSaved v a b d
     = (inl (JsError "Invalid parameters for thumbnail saved update"), d) ∧
     setThumbnailSaved a v b d
     = (inl (JsError "Invalid parameters for thumbnail saved update"), d) ∧
     setThumbnailSaved a b v d
     = (inl (JsError "Invalid parameters for thumbnail saved update"), d)) ∧
  (∀ fields, saveMetaData v fields d
             = (inl (JsError "Invalid parameters for metadata update"), d)) ∧
  getAllSubmissionsForUser v d
  = (inl (JsError "Invalid username for submission retrieval"), d).
Proof.
  intros Hv. destruct v as [| |b|z|s]; try discriminate Hv.
  all: split_and!; try reflexivity.
  all: try (intros x y; split_and!; destruct x, y; reflexivity).
  all: intros fields; reflexivity.
Qed.

(** ** Deleting a submission *)

Lemma holds_sql_eq_col_str v u : holds (sql_eq v (VStr u)) = true ↔ v = VStr u.
Proof.
  split; [|intros ->; by rewrite sql_eq_str_refl].
  unfold sql_eq. destruct v as [| |[]|z|s]; try done. simpl.
  destruct (String.eqb s u) eqn:He; [|done].
  apply String.eqb_eq in He. by subst.
Qed.

Lemma filter_all {A} (P : A → Prop) `{∀ x, Decision (P x)} (l : list A) :
  (∀ x, x ∈ l → P x) → filter P l = l.
Proof.
  induction l as [|x l IH]; intros Hl; [done|].
  rewrite filter_cons_True by (apply Hl; left).
  f_equal. apply IH. intros y Hy. apply Hl. by right.
Qed.

Lemma deleteSubmission_reliable u d :
  faults d = [] →
  deleteSubmission (VStr u) d
  = (inr (), with_subdata (filter (λ r, col "url" r ≠ VStr u) (subdata d)) d).
Proof.
  intros Hf. unfold deleteSubmission, catch. simpl.
  rewrite run_reliable by done. unfold exec_delete. do 3 f_equal.
  apply list_filter_iff. intros r.
  by rewrite Is_true_true, holds_sql_eq_col_str.
Qed.

(** [deleteSubmission(url)] removes every record of that url and nothing
    else: the other records keep their order and content, the favorites and
    an open transaction are left alone, and a statement that fails removes
    nothing.  On an engine that does not fail the call is fulfilled. *)
Theorem deleteSubmission_removes_the_submission (u : string) (d : db) :
  let res := deleteSubmission (VStr u) d in
  favorites res.2 = favorites d ∧ txn res.2 = txn d ∧
  match res.1 with
  | inr _ => subdata res.2 = filter (λ r, col "url" r ≠ VStr u) (subdata d)
  | inl _ => subdata res.2 = subdata d
  end ∧
  (faults d = [] → res.1 = inr ()).
Proof.
  cbv zeta. split_and!.
  4: { intros Hf. by rewrite deleteSubmission_reliable. }
  all: unfold deleteSubmission, catch; simpl.
  all: destruct (run_cases
         (exec_delete (λ r, holds (sql_eq (col "url" r) (VStr u)))) d)
         as (d1 & (Hs & Hfv & Ht) & [-> | ->]); simpl; try done.
  rewrite Hs. apply list_filter_iff. intros r.
  by rewrite Is_true_true, holds_sql_eq_col_str.
Qed.

(** ** Discovered links *)

Lemma link_row_url isScraps username val :
  col "url" (link_row isScraps username val) = bind_param val.
Proof.
  unfold link_row, assign. simpl.
  by rewrite !col_insert_ne, col_insert_eq by done.
Qed.

Lemma link_row_id isScraps username val :
  col "id" (link_row isScraps username val) = VNull.
Proof.
  unfold link_row, assign. simpl. by rewrite !col_insert_ne by done.
Qed.

Lemma link_row_cols isScraps username val :
  let r := link_row isScraps username val in
  col "username" r = bind_param username ∧
  col "is_scrap" r = bind_param (default_false isScraps) ∧
  col "is_content_saved" r = VNum 0 ∧
  col "content_url" r = VNull ∧ col "content_name" r = VNull ∧
  col "content_missing" r = VNum 0 ∧ col "moved_content" r = VNum 0 ∧
  col "is_thumbnail_saved" r = VNum 0 ∧ col "thumbnail_missing" r = VNum 0.
Proof.
  cbv zeta. unfold link_row, assign. simpl.
  split_and!.
  all: repeat first [ rewrite col_insert_eq; reflexivity
                    | rewrite col_insert_ne by done ].
  all: by vm_compute.
Qed.

Lemma conflict_null c r t : col c r = VNull → conflict c r t = false.
Proof.
  intros Hc. unfold conflict. rewrite Hc.
  induction t as [|o t IH]; [done|]. simpl. rewrite IH.
  unfold sql_eq. simpl. by destruct (bind_param (col c o)).
Qed.

Lemma conflict_true c r t :
  conflict c r t = true ↔ ∃ o, o ∈ t ∧ holds (sql_eq (col c o) (col c r)) = true.
Proof.
  unfold conflict. rewrite existsb_exists. setoid_rewrite <- list_elem_of_In.
  done.
Qed.

Lemma conflict_url_str c r t u :
  col c r = VStr u →
  conflict c r t = true ↔ ∃ o, o ∈ t ∧ col c o = VStr u.
Proof.
  intros Hc. rewrite conflict_true. rewrite Hc.
  by setoid_rewrite holds_sql_eq_col_str.
Qed.

Lemma insert_link_rows isScraps username links t :
  insert_rows insert_subdata_row t
    (zip ["url"; "username"; "is_scrap"; "is_content_saved"]
       <$> ((λ val, [val; username; default_false isScraps; VBool false]) <$> links))
  = inr (foldl (add_link isScraps username) t links).
Proof.
  revert t. induction links as [|v links IH]; intros t; [done|].
  simpl. unfold insert_subdata_row at 1.
  change (assign _ blank_row) with (link_row isScraps username v).
  rewrite conflict_null by apply link_row_id.
  unfold add_link at 2.
  destruct (conflict "url" _ t); apply IH.
Qed.

Lemma saveLinks_reliable links isScraps username d :
  faults d = [] → links ≠ [] →
  saveLinks links isScraps username d
  = (inr (), with_subdata (foldl (add_link isScraps username) (subdata d) links) d).
Proof.
  intros Hf Hne. unfold saveLinks, genericInsert, catch.
  rewrite run_reliable by done. unfold exec_insert.
  destruct ((λ _, marks 4) <$> links) as [|m ph] eqn:Hph;
    [by destruct links|]. rewrite <- Hph. clear Hph.
  change (List.length ["url"; "username"; "is_scrap"; "is_content_saved"])
    with 4%nat.
  rewrite forallb_marks. simpl negb. cbv iota.
  rewrite (length_bind_const _ 4) by done.
  rewrite length_fmap, Nat.eqb_refl. simpl negb. cbv iota.
  rewrite (chunks_bind _ 4) by done.
  change (String.eqb "subdata" "subdata") with true. cbv iota.
  replace (forallb _ ["url"; "username"; "is_scrap"; "is_content_saved"])
    with true by done.
  by rewrite insert_link_rows.
Qed.

Lemma add_links_shape isScraps username links t :
  Forall (λ v, is_string v = true) links →
  ∃ fresh,
    foldl (add_link isScraps username) t links = t ++ fresh ∧
    (∀ v, v ∈ links →
       ∃ r, r ∈ foldl (add_link isScraps username) t links ∧ col "url" r = v) ∧
    (∀ f, f ∈ fresh →
       ∃ v, v ∈ links ∧ f = link_row isScraps username v ∧
            ∀ r, r ∈ t → col "url" r ≠ v).
Proof.
  induction links as [|x links IH] using rev_ind; intros Hs.
  { exists []. rewrite app_nil_r. split_and!; [done|..];
      by intros ? []%elem_of_nil. }
  apply Forall_app in Hs as [Hs Hx].
  apply (proj1 (Forall_singleton _ _)) in Hx.
  cbv beta in Hx.
  destruct x as [| | | |u]; try discriminate Hx.
  destruct (IH Hs) as (fresh & Heq & Hrec & Hfresh).
  rewrite foldl_app. simpl. unfold add_link at 1 3 4.
  pose proof (link_row_url isScraps username (VStr u)) as Hu. simpl in Hu.
  destruct (conflict _ _ _) eqn:Hc.
  - exists fresh. split_and!; [done| |].
    + intros v [Hv | ->%list_elem_of_singleton]%elem_of_app; [by apply Hrec|].
      by apply (conflict_url_str _ _ _ _ Hu) in Hc.
    + intros f (v & Hv & ? & ?)%Hfresh. exists v. split_and!; try done.
      apply elem_of_app. by left.
  - exists (fresh ++ [link_row isScraps username (VStr u)]).
    split_and!.
    + by rewrite Heq, app_assoc.
    + intros v [Hv | ->%list_elem_of_singleton]%elem_of_app.
      * destruct (Hrec v Hv) as (r & Hr & ?). exists r. split; [|done].
        apply elem_of_app. by left.
      * eexists. split; [apply elem_of_app; right; by left|done].
    + intros f [Hf | ->%list_elem_of_singleton]%elem_of_app.
      * destruct (Hfresh f Hf) as (v & Hv & ? & ?). exists v.
        split_and!; try done. apply elem_of_app. by left.
      * exists (VStr u). split_and!; [apply elem_of_app; right; by left|done|].
        intros r Hr Hru.
        assert (conflict "url" (link_row isScraps username (VStr u))
                  (foldl (add_link isScraps username) t links) = true) as Hc';
          [|congruence].
        apply (conflict_url_str _ _ _ _ Hu). exists r. split; [|done].
        rewrite Heq. apply elem_of_app. by left.
Qed.


Lemma add_links_known isScraps username links t :
  (∀ v, v ∈ links → conflict "url" (link_row isScraps username v) t = true) →
  foldl (add_link isScraps username) t links = t.
Proof.
  induction links as [|x links IH]; intros Hk; [done|]. simpl.
  unfold add_link at 2. rewrite Hk by left. apply IH.
  intros v Hv. apply Hk. by right.
Qed.

(** Saving links that are all recorded adds nothing, whoever they are
    attributed to the second time: a second walk over the same pages leaves
    the store as the first one left it. *)
Theorem saveLinks_again_adds_nothing (links : list value)
    (isScraps username isScraps' username' : value) (d : db) :
  faults d = [] → links ≠ [] → Forall (λ v, is_string v = true) links →
  let d1 := (saveLinks links isScraps username d).2 in
  saveLinks links isScraps' username' d1 = (inr (), d1).
Proof.
  intros Hf Hne Hs. cbv zeta.
  rewrite (saveLinks_reliable links isScraps username d) by done. simpl.
  rewrite saveLinks_reliable by (try done; exact Hf). simpl. f_equal.
  destruct (add_links_shape isScraps username links (subdata d) Hs)
    as (fresh & Heq & Hrec & _).
  rewrite add_links_known; [by destruct d|].
  intros v Hv. destruct (Hrec v Hv) as (r & Hr & Hu).
  rewrite Forall_forall in Hs. specialize (Hs v Hv). cbv beta in Hs.
  destruct v as [| | | |u]; try discriminate Hs.
  apply (conflict_url_str _ _ _ u); [apply link_row_url|]. by exists r.
Qed.

(** Deleting a link that was just discovered undoes its discovery. *)
Theorem deleteSubmission_undoes_saveLinks (u : string)
    (isScraps username : value) (d : db) :
  faults d = [] →
  (∀ r, r ∈ subdata d → col "url" r ≠ VStr u) →
  let d1 := (saveLinks [VStr u] isScraps username d).2 in
  (saveLinks [VStr u] isScraps username d).1 = inr () ∧
  (∃ r, r ∈ subdata d1 ∧ col "url" r = VStr u) ∧
  deleteSubmission (VStr u) d1 = (inr (), d).
Proof.
  intros Hf Hnew. cbv zeta. rewrite saveLinks_reliable by done. simpl.
  pose proof (link_row_url isScraps username (VStr u)) as Hu. simpl in Hu.
  unfold add_link.
  destruct (conflict _ _ _) eqn:Hc.
  { apply (conflict_url_str _ _ _ _ Hu) in Hc as (o & Ho & Hou).
    by destruct (Hnew o Ho). }
  split_and!; [done| |].
  - eexists. split; [apply elem_of_app; right; by left|done].
  - rewrite deleteSubmission_reliable by exact Hf. simpl.
    rewrite filter_app, filter_all by done.
    rewrite filter_cons_False by (intros H; by apply H).
    rewrite filter_nil, app_nil_r. by destruct d.
Qed.

(** ** The stages of a record *)

Lemma unsaved_content_no_url name r :
  col "content_url" r = VNull → unsaved_content name r = false.
Proof.
  intros H. unfold unsaved_content. rewrite H.
  destruct (sql_eq (col "is_content_saved" r) (VNum 0)) as [[]|];
  destruct (sql_eq (col "content_missing" r) (VNum 0)) as [[]|];
  destruct (sql_not (sql_like (col "content_name" r) "%.")) as [[]|];
  by destruct (name_query name r) as [[]|].
Qed.

Lemma unsaved_thumbnail_no_url r :
  col "content_url" r = VNull → unsaved_thumbnail r = false.
Proof.
  intros H. unfold unsaved_thumbnail. rewrite H.
  destruct (sql_eq (col "is_thumbnail_saved" r) (VNum 0)) as [[]|];
  destruct (is_not_null (col "username" r)) as [[]|];
  by destruct (sql_eq (col "thumbnail_missing" r) (VNum 0)) as [[]|].
Qed.

Lemma unmoved_unsaved r : col "is_content_saved" r = VNum 0 → unmoved r = false.
Proof. intros H. unfold unmoved. by rewrite H. Qed.

Lemma invalid_file_no_name r : col "content_name" r = VNull → invalid_file r = false.
Proof.
  intros H. unfold invalid_file. rewrite H. simpl.
  by destruct (sql_eq (col "is_content_saved" r) (VNum 1)) as [[]|].
Qed.

Lemma order_by_elem_of c desc t r : r ∈ order_by c desc t ↔ r ∈ t.
Proof. unfold order_by. destruct desc; by rewrite merge_sort_Permutation. Qed.

(** A link that was just discovered is queued for the harvester and for
    nothing else: the query of the harvester returns it, and neither the
    content poll, the thumbnail poll, the reorganize query nor the prune
    query selects its record. *)
Theorem discovered_links_are_queued_for_harvest_only (links : list value)
    (isScraps username : value) (d : db) (u : string) :
  faults d = [] → Forall (λ v, is_string v = true) links → VStr u ∈ links →
  (∀ r, r ∈ subdata d → col "url" r ≠ VStr u) →
  let d1 := (saveLinks links isScraps username d).2 in
  (∃ rows, DatabaseInterface.getSubmissionLinks d1 = (inr rows, d1) ∧
           ∃ q, q ∈ rows ∧ col "url" q = VStr u) ∧
  (∀ r, r ∈ subdata d1 → col "url" r = VStr u →
        (∀ name, unsaved_content name r = false) ∧
        unsaved_thumbnail r = false ∧ unmoved r = false ∧
        invalid_file r = false) ∧
  (∀ name rows d2, getAllUnsavedContent name d1 = (inr rows, d2) →
                   ∀ r, r ∈ rows → col "url" r ≠ VStr u) ∧
  (∀ rows d2, getAllUnsavedThumbnails d1 = (inr rows, d2) →
              ∀ r, r ∈ rows → col "url" r ≠ VStr u).
Proof.
  intros Hf Hs Hu Hnew. cbv zeta.
  assert (links ≠ []) as Hne by (intros ->; by apply elem_of_nil in Hu).
  rewrite saveLinks_reliable by done. simpl.
  destruct (add_links_shape isScraps username links (subdata d) Hs)
    as (fresh & Heq & Hrec & Hfresh).
  set (t1 := foldl (add_link isScraps username) (subdata d) links) in *.
  assert (∀ r, r ∈ t1 → col "url" r = VStr u →
               r = link_row isScraps username (VStr u)) as Hrow.
  { intros r Hr Hru. rewrite Heq in Hr.
    apply elem_of_app in Hr as [Hr|Hr]; [by destruct (Hnew r Hr)|].
    destruct (Hfresh r Hr) as (v & Hv & -> & _).
    rewrite link_row_url in Hru.
    rewrite Forall_forall in Hs. specialize (Hs v Hv). cbv beta in Hs.
    destruct v; try discriminate Hs. simpl in Hru. by rewrite Hru. }
  pose proof (link_row_cols isScraps username (VStr u)) as Hcols.
  cbv zeta in Hcols. destruct Hcols as (_ & _ & H0 & Hcu & Hcn & _).
  assert (∀ r, r ∈ t1 → col "url" r = VStr u →
               (∀ name, unsaved_content name r = false) ∧
               unsaved_thumbnail r = false ∧ unmoved r = false ∧
               invalid_file r = false) as Hstage.
  { intros r Hr Hru. rewrite (Hrow r Hr Hru). split_and!.
    - intros name. by apply unsaved_content_no_url.
    - by apply unsaved_thumbnail_no_url.
    - by apply unmoved_unsaved.
    - by apply invalid_file_no_name. }
  split_and!.
  - eexists. split.
    + unfold DatabaseInterface.getSubmissionLinks. by rewrite all_reliable.
    + destruct (Hrec _ Hu) as (r & Hr & Hru). simpl.
      exists (project ["url"] r). split.
      * unfold select. apply list_elem_of_fmap. exists r. split; [done|].
        apply list_elem_of_filter. split; [|by rewrite merge_sort_Permutation].
        rewrite (Hrow r Hr Hru), link_row_id. done.
      * rewrite col_project; [done|]. by left.
  - done.
  - intros name rows d2 Hq r Hr Hru.
    destruct (getAllUnsavedContent_rows _ _ _ _ Hq r Hr) as (r0 & Hr0 & Hp & He).
    simpl in Hr0. rewrite He in Hru.
    destruct (Hstage r0 Hr0 Hru) as (Hno & _). by rewrite Hno in Hp.
  - intros rows d2 Hq r Hr Hru.
    destruct (getAllUnsavedThumbnails_rows _ _ _ Hq r Hr) as (r0 & Hr0 & Hp & He).
    simpl in Hr0. rewrite He in Hru.
    destruct (Hstage r0 Hr0 Hru) as (_ & Hno & _). by rewrite Hno in Hp.
Qed.

(** ** Flags set by name and by url *)

Lemma holds_sql_eq_col_ne v u : v ≠ VStr u → holds (sql_eq v (VStr u)) = false.
Proof.
  intros H. destruct (holds _) eqn:Hh; [|done].
  by apply holds_sql_eq_col_str in Hh.
Qed.

Lemma setter_reliable sets c v d :
  faults d = [] → resolve_sets sets = Some sets → sets ≠ [] →
  writes "id" sets = false → writes "url" sets = false →
  run (exec_update sets (λ r, holds (sql_eq (col c r) (VStr v)))) d
  = (inr (), with_subdata
               ((λ r, if decide (col c r = VStr v) then assign sets r else r)
                  <$> subdata d) d).
Proof.
  intros Hf Hr Hne Hid Hurl. rewrite run_reliable by done.
  rewrite (exec_update_plain _ sets) by done. do 2 f_equal.
  apply list_fmap_ext. intros i r _.
  destruct (decide _) as [->|Hn]; [by rewrite sql_eq_str_refl|].
  by rewrite holds_sql_eq_col_ne.
Qed.

Lemma unsaved_content_missing name r :
  col "content_missing" r = VNum 1 → unsaved_content name r = false.
Proof.
  intros H. destruct (unsaved_content name r) eqn:Hu; [|done].
  by apply unsaved_content_not_missing in Hu.
Qed.

Lemma unsaved_thumbnail_missing r :
  col "thumbnail_missing" r = VNum 1 → unsaved_thumbnail r = false.
Proof.
  intros H. destruct (unsaved_thumbnail r) eqn:Hu; [|done].
  by apply unsaved_thumbnail_not_missing in Hu.
Qed.


(** The missing marks are set by value, not by submission:
    [setContentMissing(content_name)] raises [content_missing] on every
    record that carries the file name and [setThumbnailMissing(thumbnail_url)]
    raises [thumbnail_missing] on every record that carries the thumbnail
    url; no other column and no other record changes, and a marked record
    is selected by no later poll of its kind. *)
Theorem missing_marks_are_set_by_value (d : db) (v : string) :
  faults d = [] →
  (let res := setContentMissing (VStr v) d in
   res.1 = inr () ∧
   Forall2 (λ r r',
              (∀ k, k ≠ "content_missing" → col k r' = col k r) ∧
              if decide (col "content_name" r = VStr v)
              then col "content_missing" r' = VNum 1 ∧
                   ∀ name, unsaved_content name r' = false
              else r' = r)
           (subdata d) (subdata res.2)) ∧
  (let res := setThumbnailMissing (VStr v) d in
   res.1 = inr () ∧
   Forall2 (λ r r',
              (∀ k, k ≠ "thumbnail_missing" → col k r' = col k r) ∧
              if decide (col "thumbnail_url" r = VStr v)
              then col "thumbnail_missing" r' = VNum 1 ∧
                   unsaved_thumbnail r' = false
              else r' = r)
           (subdata d) (subdata res.2)).
Proof.
  intros Hf. cbv zeta. split.
  - unfold setContentMissing, catch. simpl.
    rewrite setter_reliable by done. simpl. split; [done|].
    apply Forall2_fmap_r, Forall_Forall2_diag, Forall_forall. intros r _.
    unfold compose. cbv beta. destruct (decide _) as [Hc|Hc]; [|done].
    unfold assign. simpl. split.
    + intros k Hk. by rewrite col_insert_ne by done.
    + split; [apply col_insert_eq|]. intros name.
      apply unsaved_content_missing, col_insert_eq.
  - unfold setThumbnailMissing, catch. simpl.
    rewrite setter_reliable by done. simpl. split; [done|].
    apply Forall2_fmap_r, Forall_Forall2_diag, Forall_forall. intros r _.
    unfold compose. cbv beta. destruct (decide _) as [Hc|Hc]; [|done].
    unfold assign. simpl. split.
    + intros k Hk. by rewrite col_insert_ne by done.
    + split; [apply col_insert_eq|].
      apply unsaved_thumbnail_missing, col_insert_eq.
Qed.

Lemma unsaved_thumbnail_saved r :
  col "is_thumbnail_saved" r = VNum 1 → unsaved_thumbnail r = false.
Proof. intros H. unfold unsaved_thumbnail. by rewrite H. Qed.

(** [setThumbnailSaved(url, thumbnail_url, thumbnail_name)] records the
    thumbnail on the records of that url, which leaves the thumbnail poll,
    and changes nothing else. *)
Theorem setThumbnailSaved_records_the_thumbnail (d : db) (u t n : string) :
  faults d = [] →
  let res := setThumbnailSaved (VStr u) (VStr t) (VStr n) d in
  res.1 = inr () ∧
  Forall2 (λ r r',
             if decide (col "url" r = VStr u)
             then col "is_thumbnail_saved" r' = VNum 1 ∧
                  col "thumbnail_url" r' = VStr t ∧
                  col "thumbnail_name" r' = VStr n ∧
                  unsaved_thumbnail r' = false ∧
                  ∀ k, k ≠ "is_thumbnail_saved" → k ≠ "thumbnail_url" →
                       k ≠ "thumbnail_name" → col k r' = col k r
             else r' = r)
          (subdata d) (subdata res.2).
Proof.
  intros Hf. cbv zeta. unfold setThumbnailSaved, catch. simpl.
  rewrite setter_reliable by done. simpl. split; [done|].
  apply Forall2_fmap_r, Forall_Forall2_diag, Forall_forall. intros r _.
  unfold compose. cbv beta. destruct (decide _) as [Hc|Hc]; [|done].
  unfold assign. simpl.
  assert (col "is_thumbnail_saved"
            (<["thumbnail_name":=VStr n]>
               (<["thumbnail_url":=VStr t]> (<["is_thumbnail_saved":=VNum 1]> r)))
          = VNum 1) as H1
    by (rewrite !col_insert_ne by done; apply col_insert_eq).
  split_and!; [done| | | |].
  - rewrite col_insert_ne by done. apply col_insert_eq.
  - apply col_insert_eq.
  - by apply unsaved_thumbnail_saved.
  - intros k ? ? ?. by rewrite !col_insert_ne by done.
Qed.

(** ** What saveMetaData writes *)

Lemma resolve_column_exact k : k ∈ subdata_columns → resolve_column k = Some k.
Proof.
  intros Hk. unfold subdata_columns in Hk.
  repeat (apply elem_of_cons in Hk as [-> | Hk]; [by vm_compute|]).
  by apply elem_of_nil in Hk.
Qed.

Lemma resolve_sets_exact sets :
  Forall (λ kv, kv.1 ∈ subdata_columns) sets → resolve_sets sets = Some sets.
Proof.
  unfold resolve_sets. induction 1 as [|[k v] sets Hk _ IH]; [done|].
  simpl in *. rewrite resolve_column_exact by done. simpl.
  by rewrite IH.
Qed.

Lemma filter_keep_all sets :
  Forall (λ kv, keep_field kv = true) sets → List.filter keep_field sets = sets.
Proof.
  induction 1 as [|kv sets Hk _ IH]; [done|]. simpl. by rewrite Hk, IH.
Qed.

Lemma writes_false c sets : c ∉ sets.*1 → writes c sets = false.
Proof.
  unfold writes. induction sets as [|[k v] sets IH]; [done|]. simpl.
  intros [Hk Hs]%not_elem_of_cons. rewrite IH by done.
  destruct (String.eqb k c) eqn:He; [|done].
  apply String.eqb_eq in He. by subst.
Qed.

Lemma col_assign_in k v sets (r : row) :
  NoDup sets.*1 → (k, v) ∈ sets → col k (assign sets r) = bind_param v.
Proof.
  induction sets as [|[k' v'] sets IH] using rev_ind; intros Hnd Hin.
  { by apply elem_of_nil in Hin. }
  rewrite fmap_app in Hnd. apply NoDup_app in Hnd as (Hnd & Hdis & _).
  rewrite assign_snoc. simpl.
  apply elem_of_app in Hin as [Hin | Hin%list_elem_of_singleton].
  - rewrite col_insert_ne; [by apply IH|]. intros ->.
    apply (Hdis k); [|by left].
    apply list_elem_of_fmap. by exists (k, v).
  - injection Hin as -> ->. apply col_insert_eq.
Qed.

(** [saveMetaData(url, d)] with fields that are columns of [subdata] other
    than [id] and [url], each with a value of the type of its column (text
    for a TEXT column, an integer or a boolean for an INTEGER column): on an
    engine that does not fail the call resolves with the engine's result,
    the records of that url hold the given values in the given columns
    (booleans as 0 and 1) and their other columns are untouched, and no
    other record changes. *)
Theorem saveMetaData_writes_the_given_columns (u : string)
    (fields : list (string * value)) (d : db) :
  faults d = [] → fields ≠ [] →
  Forall (λ kv, keep_field kv = true) fields →
  Forall (λ kv, kv.1 ∈ subdata_columns) fields →
  Forall (λ kv, fits_column kv.1 kv.2 = true) fields →
  "id" ∉ fields.*1 → "url" ∉ fields.*1 → NoDup fields.*1 →
  let res := saveMetaData (VStr u) (Obj fields) d in
  res.1 = inr RunResult ∧ favorites res.2 = favorites d ∧
  Forall2 (λ r r',
             if decide (col "url" r = VStr u)
             then (∀ k v, (k, v) ∈ fields → col k r' = bind_param v) ∧
                  (∀ k, k ∉ fields.*1 → col k r' = col k r)
             else r' = r)
          (subdata d) (subdata res.2).
Proof.
  intros Hf Hne Hkeep Hcols _ Hid Hurl Hnd. cbv zeta.
  unfold saveMetaData, catch. simpl.
  rewrite filter_keep_all by done.
  destruct fields as [|kv0 fields0] eqn:Hfields; [done|]. rewrite <- Hfields in *.
  unfold mbind, M_bind, bind.
  rewrite setter_reliable;
    [|done|by apply resolve_sets_exact|by rewrite Hfields
     |by apply writes_false|by apply writes_false].
  simpl. split_and!; [done|done|].
  apply Forall2_fmap_r, Forall_Forall2_diag, Forall_forall. intros r _.
  unfold compose. cbv beta. destruct (decide _) as [Hc|Hc]; [|done]. split.
  - intros k v Hin. by apply col_assign_in.
  - intros k Hk. by apply col_assign_other.
Qed.

(** ** saveFavorites at its edges *)

Lemma bind_inl {S A B} (m : M S A) (k : A → M S B) s e s' :
  m s = (inl e, s') → (m ≫= k) s = (inl e, s').
Proof. unfold mbind, M_bind, bind. by intros ->. Qed.

Lemma catch_inl {S A} (m : M S A) h s e s' :
  m s = (inl e, s') → catch m h s = h e s'.
Proof. unfold catch. by intros ->. Qed.

(** A statement that cannot begin a transaction fails, leaving the open
    one as it is. *)
Lemma begin_in_txn d s f :
  txn d = Some (s, f) →
  ∃ e d1, run begin_transaction d = (inl e, d1) ∧ txn d1 = Some (s, f).
Proof.
  intros Ht. unfold run, next_fault.
  destruct (faults d) as [|[] bs]; simpl.
  - unfold begin_transaction. rewrite Ht. by eexists _, _.
  - by eexists _, _.
  - unfold begin_transaction. simpl. rewrite Ht. by eexists _, _.
Qed.

(** [saveFavorites] rolls back in its [catch] whether or not its own BEGIN
    succeeded.  Called while a transaction is open on the connection, with
    a user name and a list that pass the first check, it is rejected and
    the open transaction is rolled back with it: the tables are those of
    the snapshot and no transaction is open any more. *)
Theorem saveFavorites_inside_a_transaction_rolls_it_back (username l : value)
    (ls : list value) (d : db) (s : list row) (f : list fav) :
  txn d = Some (s, f) → is_string username = true →
  let res := saveFavorites username (Arr (l :: ls)) d in
  (∃ e, res.1 = inl e) ∧
  txn res.2 = None ∧ subdata res.2 = s ∧ favorites res.2 = f.
Proof.
  intros Ht Hu. cbv zeta. unfold saveFavorites.
  destruct username as [| | | |un]; try discriminate Hu.
  change (validateInput (Prim (VStr un)) "string") with true.
  cbn [negb]. cbv iota.
  destruct (begin_in_txn d s f Ht) as (e & d1 & Hb & Ht1).
  erewrite catch_inl; [|by apply bind_inl].
  unfold mbind, M_bind, bind, rollback, throw. rewrite Ht1. simpl.
  split; [by exists e|done].
Qed.

(** With nothing valid to save [saveFavorites] resolves with null and the
    database is what it was: without a statement when the user name is not
    a string or the list is no array or is empty, and after a BEGIN and a
    ROLLBACK when no entry of the list is a string. *)
Theorem saveFavorites_with_nothing_to_save (username : value) (links : jsval)
    (d : db) :
  (is_string username = false ∨ (∀ l ls, links ≠ Arr (l :: ls)) →
   saveFavorites username links d = (inr Null, d)) ∧
  (∀ ls, links = Arr ls → Forall (λ v, is_string v = false) ls →
         faults d = [] → txn d = None →
         saveFavorites username links d = (inr Null, d)).
Proof.
  split.
  - intros [Hu | Hl]; unfold saveFavorites.
    + destruct links as [p|[|l ls]|fs]; try done.
      by destruct username.
    + destruct links as [p|[|l ls]|fs]; try done. by destruct (Hl l ls).
  - intros ls -> Hls Hf Ht. unfold saveFavorites.
    destruct ls as [|l ls]; [done|].
    destruct (negb _); [done|].
    erewrite catch_inr; [done|].
    erewrite bind_inr;
      [|rewrite run_reliable by done; unfold begin_transaction; by rewrite Ht].
    cbv beta zeta.
    replace (List.filter (λ val, validateInput (Prim val) "string") (l :: ls))
      with (@nil value).
    2: { symmetry. induction Hls as [|v vs Hv _ IH]; [done|]. simpl.
         destruct v; try discriminate Hv; apply IH. }
    simpl. unfold mbind, M_bind, bind, rollback. simpl.
    destruct d as [sd fv tx fl]. simpl in *. by subst.
Qed.

Lemma insert_known_favorite username valid f v :
  Forall (λ v, is_string v = true) valid →
  v ∈ valid → fav_of username v ∈ f →
  insert_rows insert_favorites_row f (fav_tuples username valid)
  = inl (SqlError "SQLITE_CONSTRAINT: UNIQUE constraint failed: favorites.id").
Proof.
  intros Hs. revert f. induction Hs as [|v' valid Hv' Hs IH]; intros f Hv Hin.
  { by apply elem_of_nil in Hv. }
  cbn [fav_tuples fmap list_fmap insert_rows].
  rewrite insert_favorites_row_tuple.
  destruct (existsb _ f) eqn:Hex; [done|].
  assert (v ≠ v') as Hne.
  { intros ->. apply not_true_iff_false in Hex. apply Hex.
    apply existsb_exists. exists (fav_of username v'). split.
    - by apply list_elem_of_In.
    - simpl. by rewrite String.eqb_refl. }
  apply elem_of_cons in Hv as [?|Hv]; [done|].
  apply IH; [done|]. apply elem_of_app. left.
  apply list_elem_of_filter. split; [|done].
  intros Hp%Is_true_true. apply not_true_iff_false in Hex. apply Hex.
  apply existsb_exists. exists (fav_of username v). split.
  - by apply list_elem_of_In.
  - apply same_pair_same_id; [|done|done].
    rewrite Forall_forall in Hs. by apply Hs.
Qed.

(** The id of a favorite is the user name and the url joined, and it is the
    primary key of [favorites]: saving a list that holds a url which is
    already a favorite of the user is rejected by the engine, and the
    rollback leaves the database as it was. *)
Theorem saving_a_stored_favorite_again_is_rejected (username : string)
    (ls : list value) (v : value) (d : db) :
  faults d = [] → txn d = None →
  v ∈ ls → is_string v = true → fav_of (VStr username) v ∈ favorites d →
  saveFavorites (VStr username) (Arr ls) d
  = (inl (SqlError "SQLITE_CONSTRAINT: UNIQUE constraint failed: favorites.id"), d).
Proof.
  intros Hf Ht Hv Hvs Hin. unfold saveFavorites.
  destruct ls as [|l0 ls0]; [by apply elem_of_nil in Hv|].
  set (ls := l0 :: ls0) in *.
  change (validateInput (Prim (VStr username)) "string") with true.
  cbn [negb]. cbv iota.
  set (d1 := Db (subdata d) (favorites d) (Some (subdata d, favorites d)) []).
  assert (v ∈ List.filter (λ val, validateInput (Prim val) "string") ls) as Hvv.
  { apply list_elem_of_In, filter_In. split; [by apply list_elem_of_In|].
    by destruct v. }
  erewrite catch_inl.
  2: { erewrite bind_inr;
         [|rewrite run_reliable by done; unfold begin_transaction; by rewrite Ht].
       cbv beta zeta.
       destruct (List.filter _ ls) as [|v0 valid0] eqn:Hvalid;
         [by apply elem_of_nil in Hvv|].
       cbn [fmap list_fmap]. cbv iota.
       apply bind_inl. unfold genericInsert. erewrite catch_inl.
       2: { rewrite run_reliable by done.
            match goal with |- context [exec_insert _ _ _ _ ?d0] =>
              pose proof (exec_insert_favorites (VStr username) (v0 :: valid0) d0)
                as Hx
            end.
            cbn [fmap list_fmap] in Hx. rewrite Hx by done. cbn [favorites].
            rewrite (insert_known_favorite _ _ _ v); [done| |done|done].
            rewrite <- Hvalid. apply filter_valid_strings. }
       done. }
  unfold mbind, M_bind, bind, rollback, throw. simpl.
  destruct d as [sd fv tx fl]. simpl in *. by subst.
Qed.

(** ** How the content worker routes the outcome of a download *)

Import DownloadContent.


Lemma observe_stop_quiet a w :
  raised a = false → observe_stop a w = (inr (stop_now w), w).
Proof. intros H. unfold observe_stop. by rewrite H. Qed.


(** An attempt of [downloadSetup] whose probe finds no file. *)
Lemma downloadSetup_no_file net cu name user sub k w :
  raised (net k) = false → url_exists (net k) = false → stop_now w = false →
  blank user = false → ends_with_dot name = false →
  downloadSetup net cu (VStr name) (VStr user) sub k w
  = (inl (JsError (if site_active (net k) then "Not found" else "Site down")), w).
Proof.
  intros Hr He Hs Hb Hn. rewrite downloadSetup_equation_1.
  unfold mbind, M_bind, bind. rewrite observe_stop_quiet by done.
  rewrite Hs. cbn beta iota.
  rewrite no_username_str by done. cbn [segment mret M_ret ret]. cbn beta iota zeta.
  cbn [to_string]. rewrite Hn, He. cbn beta iota.
  by destruct (site_active (net k)).
Qed.

(** An attempt of [downloadSetup] on a name that ends in a dot. *)
Lemma downloadSetup_dotted net cu name user sub k w :
  raised (net k) = false → stop_now w = false →
  blank user = false → ends_with_dot (to_string name) = true →
  downloadSetup net cu name (VStr user) sub k w = (inl Rejected, w).
Proof.
  intros Hr Hs Hb Hn. rewrite downloadSetup_equation_1.
  unfold mbind, M_bind, bind. rewrite observe_stop_quiet by done.
  rewrite Hs. cbn beta iota.
  rewrite no_username_str by done. cbn [segment mret M_ret ret]. cbn beta iota zeta.
  by rewrite Hn.
Qed.

(** [downloadSpecificContent] on a downloadable row, up to the rejection of
    [downloadSetup]. *)
Lemma downloadSpecificContent_rejected net r owner name c w e w1 :
  downloadable r owner name c → stop_now w = false →
  raised (net 0%nat) = false →
  downloadSetup net (VStr c) (VStr name) (VStr (escape_trailing_dot owner))
    (subfolder_of r) 0 w = (inl e, w1) →
  downloadSpecificContent net r w
  = (if exn_falsy e then mret ()
     else if test re_site_down (exn_message e) then modify (with_stop true)
     else if test re_not_found (exn_message e) then
       catch (on_store (setContentMissing (col "content_name" r))) (λ _, mret ())
     else mret ()) w1.
Proof.
  intros (Ha & Hb & Hn & Hd & Hc) Hs Hr Hset. unfold downloadSpecificContent.
  erewrite bind_inr; [|by apply observe_stop_quiet].
  rewrite Hs. cbn beta iota. rewrite Ha. unfold js_or. rewrite !blank_truthy by done.
  cbn [to_string]. rewrite no_username_str by done. cbn beta iota.
  rewrite Hn, Hc. fold (subfolder_of r).
  erewrite catch_inl; [|by apply bind_inl]. done.
Qed.



Lemma downloadSpecificContent_site_down net r owner name c w :
  downloadable r owner name c → stop_now w = false →
  raised (net 0%nat) = false → url_exists (net 0%nat) = false →
  site_active (net 0%nat) = false →
  downloadSpecificContent net r w = (inr (), with_stop true w).
Proof.
  intros Hrow Hs Hr He Ha. pose proof Hrow as (_ & Hb & Hn & Hd & _).
  erewrite downloadSpecificContent_rejected; [|done|done|done|].
  2: { apply downloadSetup_no_file; [done|done|done|by apply blank_escape|done]. }
  by rewrite Ha.
Qed.

Lemma user_download_loop_stopped data w :
  stop_now w = true → user_download_loop data w = (inr (), w).
Proof. intros Hs. destruct data as [|[r net] data]; [done|]. simpl.
  unfold mbind, M_bind, bind, get. by rewrite Hs. Qed.


(** In a batch of user downloads, a row whose download finds the site down
    ends the batch: after the pause that follows it no later row is
    attempted, so that the store and the files are what they were. *)
Theorem user_downloads_end_when_the_site_is_down (net : nat → attempt)
    (r : row) (owner name c : string)
    (rest : list (row * (nat → attempt))) (w : world) :
  downloadable r owner name c → stop_now w = false →
  raised (net 0%nat) = false → url_exists (net 0%nat) = false →
  site_active (net 0%nat) = false →
  user_download_loop ((r, net) :: rest) w
  = (inr (), World (store w) (files w) true (trace w ++ [WaitedRandom 2000 4000])).
Proof.
  intros Hrow Hs Hr He Ha. simpl.
  unfold mbind at 1, M_bind at 1, bind at 1, get. rewrite Hs.
  erewrite bind_inr; [|by eapply downloadSpecificContent_site_down].
  erewrite bind_inr; [|reflexivity].
  by apply user_download_loop_stopped.
Qed.

Lemma no_username_false v :
  no_username v = false → ∃ s, v = VStr s ∧ blank s = false.
Proof.
  unfold no_username. intros [_ H]%orb_false_iff.
  destruct v; try discriminate H. by eexists.
Qed.

(** A row without a usable owner name, or whose file name ends in a dot, is
    skipped: the call resolves and nothing at all has changed, so the record
    is neither saved nor marked missing. *)
Theorem rows_that_cannot_be_downloaded_are_skipped (net : nat → attempt)
    (r : row) (w : world) :
  stop_now w = false → raised (net 0%nat) = false →
  no_username (js_or (js_or (col "account_name" r) (col "username" r)) (VStr ""))
  = true
  ∨ ends_with_dot (to_string (col "content_name" r)) = true →
  downloadSpecificContent net r w = (inr (), w).
Proof.
  intros Hs Hr Hcase. unfold downloadSpecificContent.
  erewrite bind_inr; [|by apply observe_stop_quiet].
  rewrite Hs. cbn beta iota zeta.
  destruct (no_username _) eqn:Hno; [done|].
  destruct Hcase as [?|Hdot]; [done|].
  apply no_username_false in Hno as (owner & -> & Hb).
  cbn [to_string].
  erewrite catch_inl.
  2: { apply bind_inl.
       apply downloadSetup_dotted; [done|done|by apply blank_escape|done]. }
  done.
Qed.


Import DownloadContent.

(** ** The retry budget *)

(** [downloadSetup] makes at most six attempts: what it does depends on the
    answers of the outside to the attempts 0 to [maxRetries] only. *)
Theorem downloadSetup_makes_at_most_six_attempts (net net' : nat → attempt)
    (content_url content_name username : value) (subfolder : string)
    (w : world) :
  (∀ j, (j ≤ maxRetries)%nat → net j = net' j) →
  downloadSetup net content_url content_name username subfolder 0 w
  = downloadSetup net' content_url content_name username subfolder 0 w.
Proof.
  intros Hnet.
  assert (∀ n k w0, (k + n = maxRetries)%nat →
            downloadSetup net content_url content_name username subfolder k w0
            = downloadSetup net' content_url content_name username subfolder k w0)
    as H; [|by apply (H maxRetries)].
  induction n as [|n IH]; intros k w0 Hk.
  all: rewrite (downloadSetup_equation_1 net _ _ _ _ k),
         (downloadSetup_equation_1 net' _ _ _ _ k); rewrite <- (Hnet k) by lia.
  all: unfold mbind, M_bind, bind.
  all: destruct (observe_stop (net k) w0) as [[e|[]] w1]; cbn beta iota;
         [reflexivity|reflexivity|].
  all: destruct (no_username username); [reflexivity|].
  all: destruct (segment username w1) as [[e|user] w2]; cbn beta iota zeta;
         [reflexivity|].
  all: destruct (ends_with_dot _); [reflexivity|].
  all: destruct (url_exists (net k)); [|reflexivity].
  all: destruct (segment content_name w2) as [[e|name] w3]; cbn beta iota zeta;
         [reflexivity|].
  all: destruct (dir_ok (net k)); cbn [mret M_ret ret throw]; cbn beta iota;
         [|reflexivity].
  all: unfold catch, create_file, remove, modify; cbn beta iota.
  all: destruct (outcome_of_transfer (net k)); cbn [mret M_ret ret throw];
         cbn beta iota; try reflexivity.
  all: destruct (decide (k < maxRetries)%nat); try reflexivity; try lia.
  all: apply IH; lia.
Qed.

Import DownloadContent.

(** ** Thumbnails *)





(** The thumbnail worker on a record without thumbnail url whose page
    cannot be read, or shows no image: the page is fetched and nothing is
    recorded, neither a thumbnail nor its absence, so the record is in the
    thumbnail poll as before. *)
Theorem record_without_thumbnail_stays_in_the_poll (page : thumb_page)
    (net : nat → attempt) (r : row) (w : world) :
  truthy (col "thumbnail_url" r) = false →
  page = NoPage ∨ page = Page None ∨ page = Page (Some "") →
  stop_now w = false → raised (net 0%nat) = false →
  downloadThumbnail page net r w
  = (inr (), logged [Fetched (to_string (col "url" r))] w).
Proof.
  intros Ht Hpage Hs Hr. unfold downloadThumbnail.
  erewrite bind_inr; [|by apply observe_stop_quiet].
  rewrite Hs. cbn beta iota zeta. unfold js_or. rewrite Ht.
  change (truthy (VStr "")) with false. cbv iota.
  by destruct Hpage as [-> | [-> | ->]].
Qed.

Import ScrapeData.

(** ** The filter of the walker *)

Lemma with_store_same w : with_store (store w) w = w.
Proof. by destruct w. Qed.

Lemma getAllSubmissionsForUser_same username d res d' :
  getAllSubmissionsForUser username d = (res, d') → same_tables d d'.
Proof.
  unfold getAllSubmissionsForUser, catch.
  destruct (negb _); [intros [= _ <-]; apply same_tables_refl|].
  match goal with |- context [all ?q d] =>
    destruct (all_cases q d) as (d1 & Hs & [Hall | Hall]); rewrite Hall
  end; by intros [= _ <-].
Qed.

(** What the inner [try] of [isSubmissionProcessed] resolves with once the
    records of the owner are at hand. *)
Lemma matching_submission_is_not_reported link username rows (w : world) :
  catch
    (match List.find
             (λ sub, strict_eq_str (col "url" sub) link
                     || strict_eq_str (col "content_url" sub) link) rows with
     | None => mret false
     | Some matchingSubmission =>
         if negb (truthy (col "is_content_saved" matchingSubmission))
         then mret false
         else if truthy (col "content_name" matchingSubmission) && truthy username
              then match downloadDir with
                   | None => throw (ReferenceError "downloadDir")
                   | Some dir =>
                       user ← DownloadContent.segment username;
                       name ← DownloadContent.segment
                                (col "content_name" matchingSubmission);
                       let userDir := join [dir; escape_trailing_dot user] in
                       w ← get;
                       mret (existsSync (userDir ++ [name]) w
                             || existsSync (userDir ++ [user +:+ "_Favorites"; name]) w)
                   end
              else mret false
     end)
    (λ innerError, mret false) w
  = (inr false, w).
Proof.
  destruct (List.find _ rows) as [m|]; [|done].
  destruct (negb _); [done|]. by destruct (_ && _).
Qed.

Lemma isSubmissionProcessed_false link username w :
  ∃ d', isSubmissionProcessed link username w = (inr false, with_store d' w) ∧
        same_tables (store w) d'.
Proof.
  unfold isSubmissionProcessed.
  destruct (negb (truthy (VStr link))).
  { exists (store w). split; [by destruct w|apply same_tables_refl]. }
  unfold catch at 1. unfold mbind at 1, M_bind at 1, bind at 1.
  unfold on_store at 1, getSubmissionOwner.
  match goal with |- context [all ?q (store w)] =>
    destruct (all_cases q (store w)) as (d1 & Hs1 & [Hall | Hall]); rewrite Hall
  end.
  { by exists d1. }
  destruct (head _) as [owner|]; [|by exists d1].
  unfold catch at 1. unfold mbind at 1, M_bind at 1, bind at 1. unfold on_store at 1.
  cbn [store with_store].
  destruct (getAllSubmissionsForUser _ d1) as [[e|rows] d2] eqn:Hq;
    apply getAllSubmissionsForUser_same in Hq.
  { exists d2. split; [done|]. by eapply same_tables_trans. }
  exists d2. split; [|by eapply same_tables_trans].
  pose proof (matching_submission_is_not_reported link username rows
                (with_store d2 (with_store d1 w))) as Hm.
  unfold catch in Hm. by rewrite Hm.
Qed.

Lemma filter_unprocessed_all username links w :
  ∃ d', filter_unprocessed username links w = (inr links, with_store d' w) ∧
        same_tables (store w) d'.
Proof.
  revert w. induction links as [|link links IH]; intros w.
  - exists (store w). split; [by destruct w|apply same_tables_refl].
  - cbn [filter_unprocessed].
    destruct (isSubmissionProcessed_false link username w) as (d1 & Hp & Hs1).
    erewrite bind_inr; [|exact Hp].
    destruct (IH (with_store d1 w)) as (d2 & Hf & Hs2).
    erewrite bind_inr; [|exact Hf]. exists d2. split; [done|].
    by eapply same_tables_trans.
Qed.

(** [isSubmissionProcessed] resolves with false for every link, every user
    and every state of the store and of the engine: the one branch that
    could answer true reads [downloadDir], which the module does not bind,
    and the error this raises is caught by the inner [try].  The check
    changes no table, and the filter of the walker keeps every scraped
    link. *)
Theorem isSubmissionProcessed_never_reports_processed (link : string)
    (username : value) (w : world) :
  (∃ d', isSubmissionProcessed link username w = (inr false, with_store d' w) ∧
         same_tables (store w) d') ∧
  (∀ links,
     ∃ d', filter_unprocessed username links w = (inr links, with_store d' w) ∧
           same_tables (store w) d').
Proof.
  split; [apply isSubmissionProcessed_false|].
  intros links. apply filter_unprocessed_all.
Qed.

Lemma isSubmissionProcessed_reliable link username w :
  faults (store w) = [] → isSubmissionProcessed link username w = (inr false, w).
Proof.
  intros Hf. unfold isSubmissionProcessed.
  destruct (negb (truthy (VStr link))); [done|].
  unfold catch at 1. unfold mbind at 1, M_bind at 1, bind at 1.
  unfold on_store at 1, getSubmissionOwner.
  rewrite all_reliable by done. cbn beta iota zeta. rewrite with_store_same.
  destruct (head _) as [owner|]; [|done].
  unfold catch at 1. unfold mbind at 1, M_bind at 1, bind at 1. unfold on_store at 1.
  unfold getAllSubmissionsForUser, catch at 1.
  destruct (negb _); [cbn; by rewrite with_store_same|].
  rewrite all_reliable by done. cbn beta iota zeta. rewrite with_store_same.
  match goal with |- context [List.find _ ?rows] =>
    pose proof (matching_submission_is_not_reported link username rows w) as Hm
  end.
  unfold catch in Hm. by rewrite Hm.
Qed.

Lemma filter_unprocessed_reliable username links w :
  faults (store w) = [] → filter_unprocessed username links w = (inr links, w).
Proof.
  intros Hf. induction links as [|link links IH]; [done|].
  cbn [filter_unprocessed].
  erewrite bind_inr; [|by apply isSubmissionProcessed_reliable].
  erewrite bind_inr; [|exact IH]. done.
Qed.

Import ScrapeData.

(** ** The counters of the walker *)

Lemma saveLinks_faults links isScraps username d :
  faults d = [] → links ≠ [] →
  (saveLinks links isScraps username d).1 = inr () ∧
  faults (saveLinks links isScraps username d).2 = [].
Proof. intros Hf Hne. by rewrite saveLinks_reliable. Qed.

Lemma attempt_fulfilled (m : M db unit) (w : world) :
  (m (store w)).1 = inr () →
  catch (on_store m ≫= λ _, mret true) (λ _, mret false) w
  = (inr true, with_store (m (store w)).2 w).
Proof.
  unfold catch, mbind, M_bind, bind, on_store.
  destruct (m (store w)) as [[e|[]] d]; simpl; [done|]. by intros _.
Qed.

Lemma match_cons {A B} (l : list A) (a b : B) :
  l ≠ [] → match l with [] => a | _ :: _ => b end = b.
Proof. by destruct l. Qed.

(** One listing page with links, in a walk that is not over favorites, on
    an engine that does not fail. *)
Lemma walk_loaded url username isScraps script page cpc cl nl np rc w :
  stop_now w = false → faults (store w) = [] → hrefs page ≠ [] →
  let pageUrl := if String.eqb np "" then url +:+ pretty cpc else np in
  let links := (λ h, FA_URL_BASE +:+ h) <$> hrefs page in
  let nl' := nl + Z.of_nat (List.length (hrefs page)) in
  walk url username isScraps false (Loaded page :: script) cpc cl nl np rc w
  = walk url username isScraps false script (cpc + 1) (cl + nl') nl' np 0
      (World (saveLinks (VStr <$> links) (VBool isScraps) (VStr username)
                (store w)).2
             (files w) false
             (trace w ++ [Fetched pageUrl; WaitedRandom 1000 2500])).
Proof.
  intros Hs Hf Hne pageUrl links nl'. cbn [walk].
  unfold mbind at 1, M_bind at 1, bind at 1, get. rewrite Hs.
  fold pageUrl. erewrite bind_inr; [|reflexivity].
  fold links.
  assert (links ≠ []) as Hl by (subst links; by destruct (hrefs page)).
  rewrite (match_cons links) by done.
  erewrite bind_inr; [|by apply filter_unprocessed_reliable].
  cbn beta. rewrite (match_cons links) by done.
  replace (List.length links) with (List.length (hrefs page))
    by (subst links; by rewrite length_fmap).
  fold nl'.
  assert (VStr <$> links ≠ []) as Hne' by (by destruct links).
  set (w1 := World (store w) (files w) (stop_now w) (trace w ++ [Fetched pageUrl])).
  destruct (saveLinks_faults (VStr <$> links) (VBool isScraps) (VStr username)
              (store w1) Hf Hne') as [Hok Hf'].
  erewrite bind_inr; [|by apply attempt_fulfilled].
  unfold mbind at 1, M_bind at 1, bind at 1.
  cbn [negb orb stop_now with_store w1]. rewrite Hs. cbn [orb]. cbv iota.
  cbn [andb]. cbv iota.
  erewrite bind_inr; [|reflexivity].
  erewrite bind_inr; [|reflexivity].
  f_equal. unfold with_store, w1. simpl. rewrite Hs, <- app_assoc. done.
Qed.

Lemma finish_quiet cl nl w :
  stop_now w = false →
  finish cl nl w
  = (inr (Some ()),
     World (store w) (files w) false (trace w ++ [Reported cl nl (cl - nl)])).
Proof.
  intros Hs. unfold finish, mbind, M_bind, bind, get. rewrite Hs. simpl.
  by rewrite Hs.
Qed.

(** A listing page without links ends the walk with the report. *)
Lemma walk_empty_page url username isScraps isFavorites script next cpc cl nl np rc w :
  stop_now w = false →
  let pageUrl := if String.eqb np "" then url +:+ pretty cpc else np in
  walk url username isScraps isFavorites (Loaded (Listing [] next) :: script)
    cpc cl nl np rc w
  = (inr (Some ()),
     World (store w) (files w) false
           (trace w ++ [Fetched pageUrl; Reported cl nl (cl - nl)])).
Proof.
  intros Hs pageUrl. cbn [walk].
  unfold mbind at 1, M_bind at 1, bind at 1, get. rewrite Hs.
  fold pageUrl. erewrite bind_inr; [|reflexivity]. cbn [hrefs fmap list_fmap].
  rewrite finish_quiet by done. simpl. by rewrite <- app_assoc.
Qed.

Lemma last_snoc2 {A} (l : list A) a b : last (l ++ [a; b]) = Some b.
Proof. change [a; b] with ([a] ++ [b]). by rewrite app_assoc, last_snoc. Qed.

Lemma walk_pages url username isScraps pages last_next :
  Forall (λ p, hrefs p ≠ []) pages →
  ∀ cpc cl nl rc w,
    stop_now w = false → faults (store w) = [] →
    let res := walk url username isScraps false
                 ((Loaded <$> pages) ++ [Loaded (Listing [] last_next)])
                 cpc cl nl "" rc w in
    let c := tally_from (cl, nl) (List.length ∘ hrefs <$> pages) in
    res.1 = inr (Some ()) ∧ stop_now res.2 = false ∧
    files res.2 = files w ∧
    last (trace res.2) = Some (Reported c.1 c.2 (c.1 - c.2)).
Proof.
  induction 1 as [|page pages Hp _ IH]; intros cpc cl nl rc w Hs Hf; cbv zeta.
  - cbn [fmap list_fmap app]. rewrite walk_empty_page by done. simpl.
    split_and!; [done..|].
    apply last_snoc2.
  - cbn [fmap list_fmap app].
    rewrite walk_loaded by done. cbv zeta.
    match goal with |- context [walk _ _ _ _ _ ?cpc' ?cl' ?nl' _ _ ?w'] =>
      specialize (IH cpc' cl' nl' 0%nat w')
    end.
    cbv zeta in IH.
    destruct IH as (H1 & H2 & H3 & H4);
      [done|apply (saveLinks_faults _ _ _ _ Hf); by destruct (hrefs page)|].
    split_and!; [done|done|done|]. rewrite H4. done.
Qed.

(** The report of a gallery walk counts earlier pages again.  A walk over
    pages that each show links, ended by a page that shows none, resolves
    and reports as new the number of links scraped, and as found a number
    to which every page has added all the links scraped up to it: two pages
    of [a] and [b] links are reported as [2a + b] found, [a + b] new and
    [a] already downloaded. *)
Theorem walker_report_counts_earlier_pages_again (url username : string)
    (isScraps : bool) (pages : list listing) (last_next : option string)
    (w : world) :
  stop_now w = false → faults (store w) = [] →
  Forall (λ p, hrefs p ≠ []) pages →
  let res := getSubmissionLinks url username isScraps false
               ((Loaded <$> pages) ++ [Loaded (Listing [] last_next)]) w in
  let c := tally (List.length ∘ hrefs <$> pages) in
  res.1 = inr (Some ()) ∧ stop_now res.2 = false ∧
  last (trace res.2) = Some (Reported c.1 c.2 (c.1 - c.2)) ∧
  ∀ a b : nat,
    tally [a; b]
    = (Z.of_nat a + (Z.of_nat a + Z.of_nat b), Z.of_nat a + Z.of_nat b).
Proof.
  intros Hs Hf Hp. cbv zeta. unfold getSubmissionLinks.
  destruct (walk_pages url username isScraps pages last_next Hp 1 0 0 0%nat w Hs Hf)
    as (H1 & H2 & _ & H4).
  split_and!; [done|done|done|]. intros a b. unfold tally, tally_from. simpl.
  f_equal; lia.
Qed.

Import ScrapeData.

(** ** The harvester on pages that are gone or incomplete *)

(** One answer that confirms the deletion of [links[index]], on an engine
    that does not fail. *)
Lemma harvest_deleted dc links script index retryCount link u w :
  links !! index = Some link → col "url" link = VStr u →
  stop_now w = false → faults (store w) = [] →
  harvest dc links (Deleted :: script) index retryCount w
  = if (2 * S retryCount <? maxRetries)%nat
    then harvest dc links script index (S retryCount)
           (logged [Fetched u; Waited (30 * Z.of_nat (S retryCount) * 1000)]
              (deleted_from u w))
    else harvest dc links script (S index) 0
           (logged [Fetched u; WaitedRandom 2000 3500] (deleted_from u w)).
Proof.
  intros Hl Hu Hs Hf. cbn [harvest].
  unfold mbind at 1, M_bind at 1, bind at 1, get. rewrite Hl, Hs. cbv zeta.
  rewrite Hu. cbn [to_string].
  erewrite bind_inr; [|reflexivity].
  erewrite bind_inr.
  2: { erewrite bind_inr; [reflexivity|].
       apply catch_inr. unfold on_store. cbn [store].
       by rewrite deleteSubmission_reliable. }
  cbv iota.
  destruct (2 * S retryCount <? maxRetries)%nat.
  - erewrite bind_inr; [|reflexivity]. f_equal.
    unfold logged, deleted_from, with_store. simpl. by rewrite <- app_assoc.
  - erewrite bind_inr; [|reflexivity]. f_equal.
    unfold logged, deleted_from, with_store. simpl. by rewrite <- app_assoc.
Qed.

Lemma deleted_from_idem u w : deleted_from u (deleted_from u w) = deleted_from u w.
Proof.
  unfold deleted_from, with_subdata. simpl. do 2 f_equal.
  apply list_filter_filter_l. done.
Qed.

Lemma deleted_from_logged u es w :
  deleted_from u (logged es w) = logged es (deleted_from u w).
Proof. done. Qed.

(** A submission whose page confirms that it was deleted is removed from
    the store at once, and yet its page is fetched three times, with the
    waits of an outage, before the loop goes on with the next link. *)
Theorem deleted_submission_is_removed_and_fetched_again (downloadComments : bool)
    (links : list row) (script : list detail) (index : nat) (link : row)
    (u : string) (w : world) :
  links !! index = Some link → col "url" link = VStr u →
  stop_now w = false → faults (store w) = [] →
  harvest downloadComments links (Deleted :: Deleted :: Deleted :: script)
    index 0 w
  = harvest downloadComments links script (S index) 0
      (World (with_subdata
                (filter (λ r, col "url" r ≠ VStr u) (subdata (store w)))
                (store w))
             (files w) false
             (trace w ++ [ Fetched u; Waited 30000; Fetched u; Waited 60000;
                           Fetched u; WaitedRandom 2000 3500 ])).
Proof.
  intros Hl Hu Hs Hf.
  rewrite (harvest_deleted _ _ _ _ _ link u) by done.
  change (2 * 1 <? maxRetries)%nat with true. cbv iota.
  rewrite (harvest_deleted _ _ _ _ _ link u) by done.
  change (2 * 2 <? maxRetries)%nat with true. cbv iota.
  rewrite (harvest_deleted _ _ _ _ _ link u) by done.
  change (2 * 3 <? maxRetries)%nat with false. cbv iota.
  rewrite !deleted_from_logged, !deleted_from_idem, !logged_logged.
  unfold logged, deleted_from. simpl. by rewrite Hs.
Qed.

Lemma extract_incomplete url page w :
  p_date_title page = None ∨ p_desc page = None ∨ p_download page = None →
  extract url page w
  = (inl (TypeError "Cannot read properties of undefined"), w).
Proof.
  intros H. unfold extract, required, undefined_access, mbind, M_bind, bind.
  destruct (p_date_title page) as [dt|]; [|done].
  cbn [mret M_ret ret throw]; cbn beta iota.
  destruct url as [| | | |u]; try done.
  cbn [mret M_ret ret throw]; cbn beta iota.
  destruct (split "view/" u !! 1%nat) as [tail|]; [|done].
  cbn [mret M_ret ret throw]; cbn beta iota.
  destruct (p_desc page) as [ds|]; [|done].
  cbn [mret M_ret ret throw]; cbn beta iota.
  destruct (p_download page) as [href|]; [|done].
  by destruct H as [?|[?|?]].
Qed.

(** A detail page that carries a title but lacks the date, the description
    or the download link makes the whole harvest reject with a TypeError:
    nothing is written for the link, and the links after it are not
    visited. *)
Theorem harvest_rejects_on_an_incomplete_page (downloadComments : bool)
    (links : list row) (script : list detail) (index retryCount : nat)
    (link : row) (page : submission_page) (w : world) :
  links !! index = Some link → stop_now w = false →
  p_date_title page = None ∨ p_desc page = None ∨ p_download page = None →
  harvest downloadComments links (Submission page :: script) index retryCount w
  = (inl (TypeError "Cannot read properties of undefined"),
     logged [Fetched (to_string (col "url" link))] w).
Proof.
  intros Hl Hs Hp. cbn [harvest].
  unfold mbind at 1, M_bind at 1, bind at 1, get. rewrite Hl, Hs. cbv zeta.
  erewrite bind_inr; [|reflexivity].
  erewrite bind_inr; [|reflexivity]. cbv iota.
  apply bind_inl. by apply extract_incomplete.
Qed.

Import ScrapeData.

(** ** The harvester on a complete page *)

Lemma update_rows_no_url sets p ci done todo t' :
  update_rows sets p ci false done todo = inr t' →
  t' = done ++ ((λ r, if p r then assign sets r else r) <$> todo).
Proof.
  revert done. induction todo as [|r todo IH]; intros done; simpl.
  - intros [= <-]. by rewrite app_nil_r.
  - destruct (p r).
    + destruct (ci && _); [done|]. intros H%IH. by rewrite H, <- app_assoc.
    + intros H%IH. by rewrite H, <- app_assoc.
Qed.

(** What [extract] resolves with: an object with the thirteen properties of
    the harvest, its [id] a string. *)
Lemma extract_shape url page w data w' :
  extract url page w = (inr data, w') →
  ∃ fields id, data = Obj fields ∧ fields.*1 = harvest_keys ∧ w' = w ∧
               ("id", VStr id) ∈ fields.
Proof.
  unfold extract, required, undefined_access, mbind, M_bind, bind.
  destruct (p_date_title page) as [dt|]; [|done].
  cbn [mret M_ret ret throw]; cbn beta iota.
  destruct url as [| | | |u]; try done.
  cbn [mret M_ret ret throw]; cbn beta iota.
  destruct (split "view/" u !! 1%nat) as [tail|]; [|done].
  cbn [mret M_ret ret throw]; cbn beta iota.
  destruct (p_desc page) as [ds|]; [|done].
  cbn [mret M_ret ret throw]; cbn beta iota.
  destruct (p_download page) as [href|]; [|done].
  cbn [mret M_ret ret throw]; cbn beta iota.
  intros [= <- <-]. eexists _, _. split_and!; [done|done|done|]. by left.
Qed.

Lemma harvest_keys_columns k : k ∈ harvest_keys → k ∈ subdata_columns.
Proof.
  intros Hk. unfold harvest_keys in Hk.
  repeat (apply elem_of_cons in Hk as [-> | Hk]; [in_list|]).
  by apply elem_of_nil in Hk.
Qed.

Lemma filter_keys_sublist (f : string * value → bool) sets :
  (List.filter f sets).*1 `sublist_of` sets.*1.
Proof.
  induction sets as [|kv sets IH]; simpl; [done|].
  destruct (f kv); simpl; [by apply sublist_skip|by apply sublist_cons].
Qed.

(** Once the data of a complete page are saved, the submission has an id
    and is not a link of the harvest queue any more. *)
Theorem harvested_submission_leaves_the_link_queue (u : string)
    (page : submission_page) (w w' : world) (data : jsval) (d d' : db) :
  extract (VStr u) page w = (inr data, w') →
  saveMetaData (VStr u) data d = (inr RunResult, d') →
  (∀ r, r ∈ subdata d' → col "url" r = VStr u → is_null (col "id" r) = false) ∧
  (∀ rows d2, DatabaseInterface.getSubmissionLinks d' = (inr rows, d2) →
              ∀ q, q ∈ rows → col "url" q ≠ VStr u).
Proof.
  intros (fields & id & -> & Hkeys & _ & Hid)%extract_shape Hsave.
  assert (∀ r, r ∈ subdata d' → col "url" r = VStr u →
               is_null (col "id" r) = false) as Hrows.
  { unfold saveMetaData, catch in Hsave. simpl in Hsave.
    set (sets := List.filter keep_field fields) in *.
    assert (("id", VStr id) ∈ sets) as Hin.
    { apply list_elem_of_In, filter_In. split; [by apply list_elem_of_In|done]. }
    assert (sets.*1 `sublist_of` harvest_keys) as Hsub
      by (rewrite <- Hkeys; apply filter_keys_sublist).
    assert (NoDup sets.*1) as Hnd.
    { apply (sublist_NoDup _ harvest_keys); [|exact Hsub].
      by apply (bool_decide_unpack _). }
    assert (resolve_sets sets = Some sets) as Hres.
    { apply resolve_sets_exact, Forall_forall. intros kv Hkv.
      apply harvest_keys_columns. eapply elem_of_sublist; [|exact Hsub].
      apply list_elem_of_fmap. by exists kv. }
    assert (writes "url" sets = false) as Hurl.
    { apply writes_false. intros Hu. eapply elem_of_sublist in Hu; [|exact Hsub].
      revert Hu. by apply (bool_decide_unpack _). }
    destruct sets as [|kv0 sets0] eqn:Hsets; [by apply elem_of_nil in Hin|].
    rewrite <- Hsets in *. clear Hsets.
    unfold mbind, M_bind, bind in Hsave.
    match type of Hsave with context [run ?f d] =>
      destruct (run_cases f d) as (d1 & (Hs & _) & [Hrun | Hrun]);
        rewrite Hrun in Hsave
    end; [done|].
    unfold exec_update in Hsave.
    destruct sets as [|kv1 sets1] eqn:Hsets; [by apply elem_of_nil in Hin|].
    rewrite <- Hsets in *. clear Hsets.
    rewrite Hres, Hurl in Hsave.
    destruct (update_rows _ _ _ _ _ _) as [e|t] eqn:Hup;
      unfold throw, mret, M_ret, ret in Hsave; simpl in Hsave; [done|].
    apply update_rows_no_url in Hup.
    injection Hsave as <-. simpl. subst t. simpl.
    intros r (r0 & -> & Hr0)%list_elem_of_fmap.
    destruct (holds (sql_eq (col "url" r0) (VStr u))) eqn:Hp; intros Hu.
    - by rewrite (col_assign_in "id" (VStr id)).
    - by rewrite Hu, sql_eq_str_refl in Hp. }
  split; [done|]. intros rows d2 Hq q Hin Hu.
  unfold DatabaseInterface.getSubmissionLinks in Hq.
  match type of Hq with context [all ?f d'] =>
    destruct (all_cases f d') as (d1 & (Hs & _) & [Hall | Hall]);
      rewrite Hall in Hq
  end; [done|].
  injection Hq as <- <-.
  apply select_elem in Hin as (r0 & Hr0 & Hnull & ->).
  rewrite merge_sort_Permutation, Hs in Hr0.
  rewrite col_project in Hu by (by left).
  by rewrite (Hrows r0 Hr0 Hu) in Hnull.
Qed.

(** ** The harvester ends *)

Lemma bind_settles {S A B} (m : M S A) (k : A → M S (option B)) s :
  (∀ a s', (k a s').1 ≠ inr None) → ((m ≫= k) s).1 ≠ inr None.
Proof.
  intros Hk. unfold mbind, M_bind, bind.
  destruct (m s) as [[e|a] s']; [done|apply Hk].
Qed.

(** The harvest loop asks for at most three pages per link that is left:
    given that many answers it resolves or is rejected, whatever the
    answers, the store and the engine do. *)
Theorem harvest_needs_three_answers_per_link (downloadComments : bool)
    (links : list row) (script : list detail) (index retryCount : nat)
    (w : world) :
  (retryCount < 3)%nat →
  (3 * (List.length links - index) ≤ List.length script + retryCount)%nat →
  (harvest downloadComments links script index retryCount w).1 ≠ inr None.
Proof.
  revert index retryCount w.
  induction script as [|answer script IH]; intros index rc w Hrc Hlen.
  - cbn [harvest]. apply bind_settles. intros w0 ?.
    destruct (links !! index) as [link|] eqn:Hl; [|done].
    apply lookup_lt_Some in Hl. simpl in Hlen. lia.
  - cbn [harvest]. apply bind_settles. intros w0 ?.
    destruct (links !! index) as [link|] eqn:Hl; [|done].
    apply lookup_lt_Some in Hl. simpl in Hlen.
    destruct (stop_now w0); [done|]. cbv zeta.
    apply bind_settles. intros [] ?. apply bind_settles. intros [page|] ?.
    + apply bind_settles. intros data ?. apply bind_settles. intros ? ?.
      apply bind_settles. intros ? ?. apply bind_settles. intros ? ?.
      apply IH; lia.
    + destruct (2 * S rc <? maxRetries)%nat eqn:Hretry.
      * apply bind_settles. intros ? ?.
        apply Nat.ltb_lt in Hretry. unfold maxRetries in Hretry.
        apply IH; lia.
      * apply bind_settles. intros ? ?.
        apply Nat.ltb_ge in Hretry. unfold maxRetries in Hretry.
        apply IH; lia.
Qed.

Import ScrapeData.

(** ** What the harvester reads off a page *)

Lemma chars_app a b : chars (a +:+ b) = chars a ++ chars b.
Proof. unfold chars. induction a as [|c a IH]; simpl; [done|]. by rewrite IH. Qed.

Lemma chars_unchars l : chars (unchars l) = l.
Proof. apply list_ascii_of_string_of_list_ascii. Qed.

Lemma unchars_chars s : unchars (chars s) = s.
Proof. apply string_of_list_ascii_of_string. Qed.

Section Split.

Variable (h : ascii) (t : list ascii).

Lemma starts_with_other c s : c ≠ h → starts_with (h :: t) (c :: s) = false.
Proof.
  intros Hc. simpl. destruct (Ascii.eqb h c) eqn:He; [|done].
  apply Ascii.eqb_eq in He. by subst.
Qed.

(** Characters that do not begin a separator are read into the piece. *)
Lemma split_go_read a cur s :
  Forall (λ c, c ≠ h) a →
  split_go (h :: t) 0 cur (a ++ s) = split_go (h :: t) 0 (rev a ++ cur) s.
Proof.
  intros Ha. revert cur. induction Ha as [|c a Hc _ IH]; intros cur; [done|].
  cbn [app split_go]. rewrite starts_with_other by done.
  rewrite IH. simpl. by rewrite <- app_assoc.
Qed.

(** The first piece extends what was read so far. *)
Lemma split_go_first s skip cur :
  ∃ y l, split_go (h :: t) skip cur s = unchars (rev cur ++ y) :: l.
Proof.
  revert skip cur. induction s as [|c s IH]; intros skip cur.
  - exists [], []. by rewrite app_nil_r.
  - cbn [split_go]. destruct skip as [|k]; [|apply IH].
    destruct (starts_with _ _).
    + eexists [], _. by rewrite app_nil_r.
    + destruct (IH 0%nat (c :: cur)) as (y & l & ->).
      exists (c :: y), l. simpl. by rewrite <- app_assoc.
Qed.

End Split.

Lemma digit_not c x : is_digit c = true → is_digit x = false → c ≠ x.
Proof. intros H1 H2 ->. congruence. Qed.

(** The number of a submission url, as [extract] reads it. *)
Lemma view_number base id rest :
  Forall (λ c, c ≠ "v"%char) (chars base) →
  Forall (λ c, is_digit c = true) (chars id) →
  ∃ tail, split "view/" (base +:+ "/view/" +:+ id +:+ "/" +:+ rest) !! 1%nat
          = Some tail ∧
          head (split "/" tail) = Some id.
Proof.
  intros Hb Hd. unfold split. rewrite !chars_app.
  change (chars "view/") with ("v" :: chars "iew/")%char.
  rewrite split_go_read by done.
  change (chars "/view/") with ("/" :: "v" :: "i" :: "e" :: "w" :: "/" :: [])%char.
  cbn [app split_go starts_with Ascii.eqb Bool.eqb andb List.length chars
       list_ascii_of_string Nat.sub].
  assert (Forall (λ c, c ≠ "v"%char) (chars id)) as Hv.
  { eapply Forall_impl; [exact Hd|]. intros c Hc. by apply (digit_not c). }
  assert (Forall (λ c, c ≠ "/"%char) (chars id)) as Hs.
  { eapply Forall_impl; [exact Hd|]. intros c Hc. by apply (digit_not c). }
  rewrite split_go_read by done.
  change (chars "/") with ["/"%char]. cbn [app split_go].
  rewrite starts_with_other by done.
  destruct (split_go_first "v" ["i"; "e"; "w"; "/"]%char (chars rest) 0
              ("/"%char :: rev (chars id) ++ [])) as (y & l & ->).
  eexists. split; [reflexivity|].
  rewrite chars_unchars. simpl rev.
  rewrite app_nil_r, rev_involutive, <- app_assoc.
  rewrite (split_go_read "/" []) by done.
  cbn [app split_go starts_with Ascii.eqb Bool.eqb andb]. simpl.
  by rewrite app_nil_r, rev_involutive, unchars_chars.
Qed.

Lemma is_upper_lower c : is_upper (lower c) = false.
Proof. destruct c as [[] [] [] [] [] [] [] []]; reflexivity. Qed.

Lemma has_https_prefix_absolute u : has_https_prefix (absolute u) = true.
Proof. unfold absolute. by destruct (has_https_prefix u) eqn:H. Qed.

(** What [extract] makes of a complete page.  The id is the number that
    follows [/view/] in the url of the link, for a url made of a base
    without the letter v, [/view/], digits and a slash; the user name is in
    lower case and is the content owner; the account name is the user name
    without underscores; the content url is the download link, with
    [https:] put in front of it unless it begins with the letters [https]
    in whatever case, so that it begins with these letters either way; and
    the file name is the last segment of the download link. *)
Theorem extract_reads_the_page (base id rest : string) (page : submission_page)
    (w w' : world) (data : jsval) :
  Forall (λ c, c ≠ "v"%char) (chars base) →
  Forall (λ c, is_digit c = true) (chars id) →
  extract (VStr (base +:+ "/view/" +:+ id +:+ "/" +:+ rest)) page w
  = (inr data, w') →
  ∃ fields owner href,
    data = Obj fields ∧ w' = w ∧ p_download page = Some href ∧
    ("id", VStr id) ∈ fields ∧
    ("username", VStr owner) ∈ fields ∧
    ("content_owner", VStr owner) ∈ fields ∧
    Forall (λ c, is_upper c = false) (chars owner) ∧
    ("account_name", VStr (strip_underscores owner)) ∈ fields ∧
    ("_"%char ∉ chars (strip_underscores owner)) ∧
    (∃ content_url,
       ("content_url", VStr content_url) ∈ fields ∧
       (has_https_prefix href = true → content_url = href) ∧
       (has_https_prefix href = false → content_url = "https:" +:+ href) ∧
       has_https_prefix content_url = true) ∧
    ("content_name", VStr (default "" (last (split "/" href)))) ∈ fields.
Proof.
  intros Hb Hd.
  destruct (view_number base id rest Hb Hd) as (tail & Htail & Hid).
  unfold extract, required, undefined_access, mbind, M_bind, bind.
  destruct (p_date_title page) as [dt|]; [|done].
  cbn [mret M_ret ret throw]; cbn beta iota.
  rewrite Htail. cbn [mret M_ret ret throw]; cbn beta iota.
  destruct (p_desc page) as [ds|]; [|done].
  cbn [mret M_ret ret throw]; cbn beta iota.
  destruct (p_download page) as [href|]; [|done].
  cbn [mret M_ret ret throw]; cbn beta iota.
  rewrite Hid. intros [= <- <-].
  eexists _, (to_lower (trim (p_owner page))), href.
  split_and!.
  - reflexivity.
  - reflexivity.
  - reflexivity.
  - by left.
  - right. right. by left.
  - do 12 right. by left.
  - unfold to_lower. rewrite chars_unchars. apply Forall_fmap, Forall_forall.
    intros c _. apply is_upper_lower.
  - right. right. right. by left.
  - unfold strip_underscores. rewrite chars_unchars.
    intros Hin%list_elem_of_In. apply filter_In in Hin as [_ Hin]. done.
  - exists (absolute href). split_and!.
    + do 7 right. by left.
    + unfold absolute. by intros ->.
    + unfold absolute. by intros ->.
    + apply has_https_prefix_absolute.
  - do 6 right. by left.
Qed.

(** ** Deleting an account and listing the users with favorites *)

Lemma holds_or_str a b u :
  holds (sql_eq a (VStr u) ||| sql_eq b (VStr u)) = true ↔ a = VStr u ∨ b = VStr u.
Proof.
  rewrite <- !holds_sql_eq_col_str.
  destruct (sql_eq a (VStr u)) as [[]|], (sql_eq b (VStr u)) as [[]|];
    simpl; split; try done; try (by left); try (by right); by intros [|].
Qed.

Lemma run_fulfils f d d' :
  faults d = [] → f d = inr d' → run f d = (inr (), d').
Proof.
  intros Hf Hd. unfold run, next_fault. rewrite Hf. by rewrite Hd.
Qed.

Lemma run_busy f d bs :
  faults d = true :: bs →
  run f d = (inl busy, Db (subdata d) (favorites d) (txn d) bs).
Proof. intros Hf. unfold run, next_fault. by rewrite Hf. Qed.

Lemma run_passes f d d' bs :
  faults d = false :: bs →
  f (Db (subdata d) (favorites d) (txn d) bs) = inr d' → run f d = (inr (), d').
Proof. intros Hf Hd. unfold run, next_fault. rewrite Hf. by rewrite Hd. Qed.

Lemma filter_ext_in {A} (P Q : A → Prop) `{∀ x, Decision (P x)}
    `{∀ x, Decision (Q x)} (l : list A) :
  (∀ x, x ∈ l → P x ↔ Q x) → filter P l = filter Q l.
Proof.
  induction l as [|x l IH]; intros Hl; [done|].
  rewrite !filter_cons. rewrite IH by (intros y Hy; apply Hl; by right).
  destruct (decide (P x)) as [Hp|Hp], (decide (Q x)) as [Hq|Hq]; try done;
    exfalso; apply (Hl x) in Hp || apply (Hl x) in Hq; try done; by left.
Qed.

Lemma delete_account_rows u (t : list row) :
  filter (λ r, ¬ holds (sql_eq (col "account_name" r) (VStr u)
                        ||| sql_eq (col "username" r) (VStr u))) t
  = filter (λ r, col "account_name" r ≠ VStr u ∧ col "username" r ≠ VStr u) t.
Proof.
  apply filter_ext_in. intros r _.
  rewrite Is_true_true, holds_or_str. tauto.
Qed.

Lemma delete_account_favs u (t : list fav) :
  filter (λ f, ¬ holds (sql_eq (fav_username f) (VStr u))) t
  = filter (λ f, fav_username f ≠ VStr u) t.
Proof.
  apply filter_ext_in. intros r _.
  by rewrite Is_true_true, holds_sql_eq_col_str.
Qed.

Lemma deleteAccount_reliable u d :
  faults d = [] →
  deleteAccount (VStr u) d
  = (inr (),
     with_favorites (filter (λ f, fav_username f ≠ VStr u) (favorites d))
       (with_subdata
          (filter (λ r, col "account_name" r ≠ VStr u ∧ col "username" r ≠ VStr u)
             (subdata d)) d)).
Proof.
  intros Hf. unfold deleteAccount.
  erewrite bind_inr; [|by apply run_fulfils].
  erewrite run_fulfils; [| |done]; [|by destruct d].
  unfold exec_delete, exec_delete_favorites.
  rewrite delete_account_rows. cbn [favorites with_subdata].
  by rewrite delete_account_favs.
Qed.

(** On a reliable engine [deleteAccount] fulfils, removes exactly the
    submissions whose [account_name] or [username] is the given name and the
    favorites relations of that user, and leaves every other row, every other
    relation and the transaction state as they were. *)
Theorem deleteAccount_removes_the_account_and_nothing_else (u : string) (d : db) :
  faults d = [] →
  let res := deleteAccount (VStr u) d in
  res.1 = inr () ∧ txn res.2 = txn d ∧ faults res.2 = [] ∧
  subdata res.2
  = filter (λ r, col "account_name" r ≠ VStr u ∧ col "username" r ≠ VStr u) (subdata d) ∧
  favorites res.2 = filter (λ f, fav_username f ≠ VStr u) (favorites d).
Proof.
  intros Hf. cbv zeta. rewrite deleteAccount_reliable by done.
  by destruct d.
Qed.

(** The two statements of [deleteAccount] are not one transaction: when the
    first goes through and the second fails, the call rejects with the
    engine's error while the account's submissions are already gone and its
    favorites relations are all still stored. *)
Theorem deleteAccount_is_not_atomic (u : string) (d : db) (bs : list bool) :
  faults d = false :: true :: bs →
  let res := deleteAccount (VStr u) d in
  res.1 = inl busy ∧
  subdata res.2
  = filter (λ r, col "account_name" r ≠ VStr u ∧ col "username" r ≠ VStr u) (subdata d) ∧
  favorites res.2 = favorites d ∧ txn res.2 = txn d.
Proof.
  intros Hf. cbv zeta. unfold deleteAccount.
  erewrite bind_inr; [|by eapply run_passes].
  erewrite run_busy; [|done].
  unfold exec_delete. cbn [subdata favorites txn with_subdata fst snd].
  by rewrite delete_account_rows.
Qed.

(** [deleteAccount] does not check its argument: called with [null] or
    [undefined] it still sends both statements, which match no row, and
    fulfils with the tables unchanged. *)
Theorem deleteAccount_without_a_name_deletes_nothing (v : value) (d : db) :
  is_null v = true → faults d = [] → deleteAccount v d = (inr (), d).
Proof.
  intros Hv Hf. unfold deleteAccount.
  assert (Hn : ∀ a, sql_eq a v = None).
  { intros a. unfold sql_eq. unfold is_null in Hv.
    destruct (bind_param v); try done. by destruct (bind_param a). }
  erewrite bind_inr; [|by apply run_fulfils].
  erewrite run_fulfils; [| |done]; [|by destruct d].
  unfold exec_delete, exec_delete_favorites. cbn [favorites with_subdata].
  rewrite (filter_all _ (favorites d)) by (intros f _; cbv beta; rewrite Hn; by intros []).
  rewrite (filter_all _ (subdata d)) by (intros f _; cbv beta; rewrite !Hn; by intros []).
  by destruct d.
Qed.

#[local] Instance value_le_total : Total (λ a b, Is_true (value_le a b)).
Proof.
  intros a b. unfold value_le.
  destruct (bind_param a) as [| |x|x|x], (bind_param b) as [| |y|y|y];
    simpl; try (by left); try (by right).
  - destruct (Z.leb_spec x y); [by left|right].
    apply Is_true_true, Z.leb_le. lia.
  - destruct (String.leb_total x y) as [H|H]; [left|right]; by apply Is_true_true.
Qed.

Lemma getAllFavUsernames_reliable d :
  faults d = [] →
  getAllFavUsernames d
  = (inr ((λ v, ({[ "username" := v ]} : row)) <$>
            merge_sort (λ a b, Is_true (value_le a b))
              (remove_dups
                 (filter (λ v, Is_true (negb (is_null v)))
                    (fav_username <$> favorites d)))), d).
Proof.
  intros Hf. unfold getAllFavUsernames.
  erewrite catch_inr; [done|].
  unfold all, next_fault. by rewrite Hf.
Qed.

#[local] Instance username_row_inj : Inj (=) (=) (λ v : value, ({[ "username" := v ]} : row)).
Proof.
  intros a b H.
  assert (H' : ({[ "username" := a ]} : row) !! "username"
               = ({[ "username" := b ]} : row) !! "username") by by rewrite H.
  rewrite !lookup_singleton_eq in H'. by injection H'.
Qed.

(** On a reliable engine [getAllFavUsernames] lists each user that has a
    stored favorites relation exactly once, lists nobody else, and orders the
    names ascending. *)
Theorem getAllFavUsernames_lists_each_user_once (d : db) :
  faults d = [] →
  ∃ rows, getAllFavUsernames d = (inr rows, d) ∧
    NoDup rows ∧
    (∀ r, r ∈ rows ↔
       ∃ f, f ∈ favorites d ∧ is_null (fav_username f) = false ∧
            r = {[ "username" := fav_username f ]}) ∧
    Sorted (λ a b, Is_true (value_le (col "username" a) (col "username" b))) rows.
Proof.
  intros Hf. eexists. split; [by apply getAllFavUsernames_reliable|].
  split_and!.
  - apply (NoDup_fmap_2 (λ v : value, ({[ "username" := v ]} : row))).
    rewrite merge_sort_Permutation. apply NoDup_remove_dups.
  - intros r. rewrite list_elem_of_fmap. split.
    + intros (v & -> & Hv). rewrite merge_sort_Permutation in Hv.
      apply elem_of_remove_dups, list_elem_of_filter in Hv as [Hn Hv].
      apply list_elem_of_fmap in Hv as (f & -> & Hf').
      exists f. split_and!; try done. by destruct (is_null _).
    + intros (f & Hf' & Hn & ->). eexists. split; [done|].
      rewrite merge_sort_Permutation.
      apply elem_of_remove_dups, list_elem_of_filter. split.
      * by rewrite Hn.
      * apply list_elem_of_fmap. by exists f.
  - eapply (Sorted_fmap _ (λ a b, Is_true (value_le a b))).
    + intros a b H. unfold col. by rewrite !lookup_singleton_eq.
    + apply Sorted_merge_sort. apply _.
Qed.

(** A user with a stored favorite is listed by [getAllFavUsernames]; after
    [deleteAccount] of that user the list no longer has them, and every
    other listed user is still listed. *)
Theorem deleteAccount_takes_the_user_off_the_favorites_list (u : string) (d : db) :
  faults d = [] →
  ∀ rows rows',
    getAllFavUsernames d = (inr rows, d) →
    getAllFavUsernames (deleteAccount (VStr u) d).2 = (inr rows', (deleteAccount (VStr u) d).2) →
    ((∃ f, f ∈ favorites d ∧ fav_username f = VStr u) →
       ({[ "username" := VStr u ]} : row) ∈ rows) ∧
    (({[ "username" := VStr u ]} : row) ∉ rows') ∧
    (∀ r, r ∈ rows' ↔ r ∈ rows ∧ r ≠ {[ "username" := VStr u ]}).
Proof.
  intros Hf rows rows' H1 H2.
  rewrite getAllFavUsernames_reliable in H1 by done.
  rewrite deleteAccount_reliable in H2 by done.
  rewrite getAllFavUsernames_reliable in H2 by by destruct d.
  injection H1 as <-. injection H2 as <-.
  cbn [favorites with_favorites snd].
  assert (Hin : ∀ t v, ({[ "username" := v ]} : row) ∈
             (λ v, ({[ "username" := v ]} : row)) <$>
               merge_sort (λ a b, Is_true (value_le a b))
                 (remove_dups (filter (λ v, Is_true (negb (is_null v)))
                                 (fav_username <$> t)))
             ↔ is_null v = false ∧ ∃ f, f ∈ t ∧ fav_username f = v).
  { intros t v. rewrite list_elem_of_fmap. split.
    - intros (v' & Hv' & Hv). apply username_row_inj in Hv' as <-.
      rewrite merge_sort_Permutation in Hv.
      apply elem_of_remove_dups, list_elem_of_filter in Hv as [Hn Hv].
      apply list_elem_of_fmap in Hv as (f & -> & Hf').
      split; [by destruct (is_null _)|]. by exists f.
    - intros (Hn & f & Hf' & <-). eexists. split; [done|].
      rewrite merge_sort_Permutation.
      apply elem_of_remove_dups, list_elem_of_filter. split; [by rewrite Hn|].
      apply list_elem_of_fmap. by exists f. }
  split_and!.
  - intros (f & Hf' & Hu). apply Hin. split; [done|]. by exists f.
  - rewrite Hin. intros (_ & f & Hf' & Hu).
    apply list_elem_of_filter in Hf' as [Hne _]. done.
  - intros r. split.
    + intros Hr. pose proof Hr as Hr'.
      apply list_elem_of_fmap in Hr' as (v & -> & _).
      apply Hin in Hr as (Hn & f & Hf' & <-).
      apply list_elem_of_filter in Hf' as [Hne Hf'].
      split; [apply Hin; split; [done|by exists f]|].
      intros Heq. by apply username_row_inj in Heq.
    + intros [Hr Hne]. pose proof Hr as Hr'.
      apply list_elem_of_fmap in Hr' as (v & -> & _).
      apply Hin in Hr as (Hn & f & Hf' & <-).
      apply Hin. split; [done|]. exists f. split; [|done].
      apply list_elem_of_filter. split; [|done].
      intros Heq. apply Hne. by rewrite Heq.
Qed.

(** ** The gallery listing *)













(** Whatever the query, a listing that fulfils pages one list of stored
    rows that have an id. *)
Lemma getGalleryPage_shape query sortOrder d :
  faults d = [] →
  (∃ e, ∀ o c, getGalleryPage (VNum o) (VNum c) query sortOrder d = (inl e, d)) ∨
  (∃ l, (∀ r, r ∈ l → r ∈ subdata d ∧ is_null (col "id" r) = false) ∧
        ∀ o c, getGalleryPage (VNum o) (VNum c) query sortOrder d
               = (inr (project gallery_columns <$> paginate o c l), d)).
Proof.
  intros Hf. unfold getGalleryPage.
  cbn [validateInput String.eqb Ascii.eqb Bool.eqb andb negb number_of].
  assert (Hl : ∀ desc (search : row → option bool) owner r,
    r ∈ filter (λ r, Is_true (holds (is_not_null (col "id" r) &&& search r &&& owner d r)))
          (order_by "content_name" desc (subdata d)) →
    r ∈ subdata d ∧ is_null (col "id" r) = false).
  { intros desc search owner r [Hh Hr]%list_elem_of_filter.
    apply order_by_elem_of in Hr. split; [done|].
    unfold is_not_null in Hh. destruct (is_null (col "id" r)); [|done].
    simpl in Hh. by destruct (search r) as [[]|], (owner d r) as [[]|]. }
  destruct query as [username searchTerm galleryType]. cbn [q_username q_searchTerm q_galleryType].
  assert (Hs : ∀ s : string,
    (∃ e, ∀ o c,
       catch
         (order ← mret s;
          let desc := negb (String.eqb (to_upper order) "ASC") in
          search ←
            (if truthy searchTerm then
               match searchTerm with
               | VStr s =>
                   mret (matches_search ("%" +:+ replace_chars is_space "%" s +:+ "%"))
               | _ => throw (TypeError "searchTerm.replace is not a function")
               end
             else mret (λ _, Some true));
          owner ←
            (if truthy galleryType && truthy username then
               match username with
               | VStr s =>
                   mret (favorite_of
                           ("%" +:+ replace_chars (Ascii.eqb "_") "%" s +:+ "%"))
               | _ => throw (TypeError "username.replace is not a function")
               end
             else if truthy username then
               mret (λ _, owned_by ("%" +:+ to_string username +:+ "%"))
             else mret (λ _ _, Some true));
          all (λ d,
            project gallery_columns <$>
              paginate o c
                (filter (λ r, Is_true (holds (is_not_null (col "id" r)
                                              &&& search r &&& owner d r)))
                   (order_by "content_name" desc (subdata d)))))
         (λ error, throw error) d = (inl e, d)) ∨
    (∃ l, (∀ r, r ∈ l → r ∈ subdata d ∧ is_null (col "id" r) = false) ∧
       ∀ o c,
       catch
         (order ← mret s;
          let desc := negb (String.eqb (to_upper order) "ASC") in
          search ←
            (if truthy searchTerm then
               match searchTerm with
               | VStr s =>
                   mret (matches_search ("%" +:+ replace_chars is_space "%" s +:+ "%"))
               | _ => throw (TypeError "searchTerm.replace is not a function")
               end
             else mret (λ _, Some true));
          owner ←
            (if truthy galleryType && truthy username then
               match username with
               | VStr s =>
                   mret (favorite_of
                           ("%" +:+ replace_chars (Ascii.eqb "_") "%" s +:+ "%"))
               | _ => throw (TypeError "username.replace is not a function")
               end
             else if truthy username then
               mret (λ _, owned_by ("%" +:+ to_string username +:+ "%"))
             else mret (λ _ _, Some true));
          all (λ d,
            project gallery_columns <$>
              paginate o c
                (filter (λ r, Is_true (holds (is_not_null (col "id" r)
                                              &&& search r &&& owner d r)))
                   (order_by "content_name" desc (subdata d)))))
         (λ error, throw error) d
       = (inr (project gallery_columns <$> paginate o c l), d))).
  { intros s.
    destruct (truthy searchTerm) eqn:Et, searchTerm as [| |b|z|t];
      try discriminate Et;
      destruct (truthy galleryType), (truthy username) eqn:Eu,
        username as [| |b'|z'|u]; try discriminate Eu;
      cbn [andb];
      first
        [ left; eexists; intros o c; reflexivity
        | right; eexists; split; [apply Hl|];
          intros o c; unfold catch, mbind, M_bind, bind, mret, M_ret, ret;
          cbn beta iota zeta; unfold all, next_fault; rewrite Hf;
          reflexivity ]. }
  destruct sortOrder as [| |b|z|s]; try apply Hs;
    left; eexists; intros o c; reflexivity.
Qed.

(** On a reliable engine, when one page of [getGalleryPage] fulfils, the
    page that starts where it ends fulfils too, and the two together are the
    one larger page; a page never has more rows than [count], and every
    listed row has an id. *)
Theorem getGalleryPage_pages_tile_the_listing (o c c' : Z) (query : gallery_query)
    (sortOrder : value) (d : db) (rows : list row) :
  faults d = [] → 0 ≤ o → 0 ≤ c → 0 ≤ c' →
  getGalleryPage (VNum o) (VNum c) query sortOrder d = (inr rows, d) →
  (List.length rows ≤ Z.to_nat c)%nat ∧
  (∀ r, r ∈ rows → is_null (col "id" r) = false) ∧
  ∃ rows', getGalleryPage (VNum (o + c)) (VNum c') query sortOrder d = (inr rows', d) ∧
           getGalleryPage (VNum o) (VNum (c + c')) query sortOrder d
           = (inr (rows ++ rows'), d).
Proof.
  intros Hf Ho Hc Hc' Hq.
  destruct (getGalleryPage_shape query sortOrder d Hf) as [[e He]|(l & Hl & He)].
  { rewrite He in Hq. discriminate. }
  rewrite He in Hq. injection Hq as <-.
  unfold paginate.
  assert ((c <? 0) = false) as -> by lia.
  split_and!.
  - rewrite length_fmap, length_take. lia.
  - intros r (r0 & -> & Hr0)%list_elem_of_fmap.
    rewrite col_project by (by left).
    apply Hl. rewrite <- (take_drop (Z.to_nat o) l). apply elem_of_app. right.
    rewrite <- (take_drop (Z.to_nat c) (drop _ l)). apply elem_of_app. by left.
  - eexists. split; [apply He|]. rewrite He. do 2 f_equal.
    unfold paginate.
    assert ((c' <? 0) = false) as -> by lia.
    assert ((c + c' <? 0) = false) as -> by lia.
    rewrite <- fmap_app. f_equal.
    rewrite Z2Nat.inj_add by lia. rewrite Z2Nat.inj_add by lia.
    rewrite <- drop_drop. symmetry. apply take_take_drop.
Qed.






(** ** The further properties on the sample data *)

Import Samples.

(** The rows of a literal table, one by one. *)
Ltac each_row H :=
  repeat (apply elem_of_cons in H as [->|H]); [..|by apply elem_of_nil in H].


(** The same links saved a second time, as scraps of another user. *)
Lemma saveLinks_again_adds_nothing_witness :
  saveLinks new_links (VBool true) (VStr "eve")
    (saveLinks new_links (VBool false) (VStr "bob") art_db).2
  = (inr (), (saveLinks new_links (VBool false) (VStr "bob") art_db).2).
Proof.
  apply (saveLinks_again_adds_nothing new_links (VBool false) (VStr "bob")
           (VBool true) (VStr "eve") art_db).
  - reflexivity.
  - done.
  - by repeat constructor.
Defined.

(** A link that [art_db] does not hold, discovered and deleted. *)
Lemma deleteSubmission_undoes_saveLinks_witness :
  deleteSubmission (VStr "https://fa/view/3/")
    (saveLinks [VStr "https://fa/view/3/"] (VBool false) (VStr "bob") art_db).2
  = (inr (), art_db).
Proof.
  apply (deleteSubmission_undoes_saveLinks "https://fa/view/3/" (VBool false)
           (VStr "bob") art_db).
  - reflexivity.
  - intros r Hr. each_row Hr. by vm_compute.
Defined.

(** The unknown link of [new_links] is returned by the harvester's query. *)
Lemma discovered_links_are_queued_for_harvest_only_witness :
  VStr "https://fa/view/3/" ∈ new_links ∧
  ∃ rows,
    DatabaseInterface.getSubmissionLinks
      (saveLinks new_links (VBool false) (VStr "bob") art_db).2
    = (inr rows, (saveLinks new_links (VBool false) (VStr "bob") art_db).2) ∧
    ∃ q, q ∈ rows ∧ col "url" q = VStr "https://fa/view/3/".
Proof.
  assert (VStr "https://fa/view/3/" ∈ new_links) as Hin by (right; left).
  split; [exact Hin|].
  refine (proj1 (discovered_links_are_queued_for_harvest_only new_links
                   (VBool false) (VStr "bob") art_db "https://fa/view/3/"
                   eq_refl _ Hin _)).
  - by repeat constructor.
  - intros r Hr. each_row Hr. by vm_compute.
Defined.

(** The file of [art] marked missing. *)
Lemma missing_marks_are_set_by_value_witness :
  faults art_db = [] ∧
  (setContentMissing (VStr "art.png") art_db).1 = inr () ∧
  (setThumbnailMissing (VStr "art.png") art_db).1 = inr ().
Proof.
  split; [reflexivity|].
  pose proof (missing_marks_are_set_by_value art_db "art.png" eq_refl) as H.
  cbv zeta in H. destruct H as ((H1 & _) & (H2 & _)). by split.
Defined.

(** A title and the scrap flag written to [art]. *)
Lemma saveMetaData_writes_the_given_columns_witness :
  Forall (λ kv, fits_column kv.1 kv.2 = true)
    [("title", VStr "A title"); ("is_scrap", VBool true)] ∧
  (saveMetaData (VStr "https://fa/view/1/")
     (Obj [("title", VStr "A title"); ("is_scrap", VBool true)]) art_db).1
  = inr RunResult.
Proof.
  split; [by repeat constructor|].
  refine (proj1 (saveMetaData_writes_the_given_columns "https://fa/view/1/"
                   [("title", VStr "A title"); ("is_scrap", VBool true)] art_db
                   eq_refl _ _ _ _ _ _ _)).
  - done.
  - by repeat constructor.
  - repeat constructor; in_list.
  - by repeat constructor.
  - in_list.
  - in_list.
  - in_list.
Defined.

(** A favorite saved while a transaction is open. *)
Lemma saveFavorites_inside_a_transaction_rolls_it_back_witness :
  txn open_db = Some ([], []) ∧
  txn (saveFavorites (VStr "alice") (Arr [VStr "https://fa/view/1/"]) open_db).2
  = None ∧
  subdata (saveFavorites (VStr "alice") (Arr [VStr "https://fa/view/1/"]) open_db).2
  = [].
Proof.
  split; [reflexivity|].
  pose proof (saveFavorites_inside_a_transaction_rolls_it_back (VStr "alice")
                (VStr "https://fa/view/1/") [] open_db [] [] eq_refl eq_refl) as H.
  cbv zeta in H. destruct H as (_ & H1 & H2 & _). by split.
Defined.

(** Favorites of nobody. *)
Lemma saveFavorites_with_nothing_to_save_witness :
  saveFavorites VNull (Arr fav_links) art_db = (inr Null, art_db).
Proof.
  apply (proj1 (saveFavorites_with_nothing_to_save VNull (Arr fav_links) art_db)).
  by left.
Defined.

(** The favorite of alice saved again. *)
Lemma saving_a_stored_favorite_again_is_rejected_witness :
  fav_of (VStr "alice") (VStr "https://fa/view/1/") ∈ favorites fav_db ∧
  saveFavorites (VStr "alice") (Arr [VStr "https://fa/view/1/"]) fav_db
  = (inl (SqlError "SQLITE_CONSTRAINT: UNIQUE constraint failed: favorites.id"),
     fav_db).
Proof.
  assert (fav_of (VStr "alice") (VStr "https://fa/view/1/") ∈ favorites fav_db)
    as Hin by left.
  split; [exact Hin|].
  apply (saving_a_stored_favorite_again_is_rejected "alice"
           [VStr "https://fa/view/1/"] (VStr "https://fa/view/1/") fav_db);
    [reflexivity|reflexivity|left|reflexivity|exact Hin].
Defined.

(** The account of alice deleted from [fav_db]. *)
Lemma deleteAccount_removes_the_account_and_nothing_else_witness :
  faults fav_db = [] ∧
  (deleteAccount (VStr "alice") fav_db).1 = inr () ∧
  favorites (deleteAccount (VStr "alice") fav_db).2
  = filter (λ f, fav_username f ≠ VStr "alice") (favorites fav_db).
Proof.
  split; [reflexivity|].
  pose proof (deleteAccount_removes_the_account_and_nothing_else "alice" fav_db
                eq_refl) as H.
  cbv zeta in H. destruct H as (H1 & _ & _ & _ & H2). by split.
Defined.

(** The account of bob deleted on an engine whose second statement fails. *)
Lemma deleteAccount_is_not_atomic_witness :
  faults flaky_db = [false; true] ∧
  (deleteAccount (VStr "bob") flaky_db).1 = inl busy ∧
  favorites (deleteAccount (VStr "bob") flaky_db).2 = favorites flaky_db.
Proof.
  split; [reflexivity|].
  pose proof (deleteAccount_is_not_atomic "bob" flaky_db [] eq_refl) as H.
  cbv zeta in H. destruct H as (H1 & _ & H2 & _). by split.
Defined.

(** The users with favorites in [fav_db]. *)
Lemma getAllFavUsernames_lists_each_user_once_witness :
  faults fav_db = [] ∧
  ∃ rows, getAllFavUsernames fav_db = (inr rows, fav_db) ∧ NoDup rows.
Proof.
  split; [reflexivity|].
  destruct (getAllFavUsernames_lists_each_user_once fav_db eq_refl)
    as (rows & H1 & H2 & _).
  by exists rows.
Defined.

(** A listing without search term and user name. *)
Lemma getGalleryPage_of_everything o c d :
  faults d = [] →
  ∃ rows, getGalleryPage (VNum o) (VNum c) (GalleryQuery VUndef VUndef VUndef)
            VUndef d = (inr rows, d).
Proof.
  intros Hf. eexists. unfold getGalleryPage.
  cbn [validateInput String.eqb Ascii.eqb Bool.eqb andb negb number_of
       q_username q_searchTerm q_galleryType truthy].
  erewrite catch_inr; [reflexivity|].
  erewrite bind_inr; [|reflexivity]. cbv zeta.
  erewrite bind_inr; [|reflexivity].
  erewrite bind_inr; [|reflexivity].
  unfold all, next_fault. by rewrite Hf.
Qed.

(** The two pages of one row of [lost_db] and its one page of two rows. *)
Lemma getGalleryPage_pages_tile_the_listing_witness :
  ∃ rows rows',
    getGalleryPage (VNum 0) (VNum 1) (GalleryQuery VUndef VUndef VUndef) VUndef lost_db
    = (inr rows, lost_db) ∧
    getGalleryPage (VNum 1) (VNum 1) (GalleryQuery VUndef VUndef VUndef) VUndef lost_db
    = (inr rows', lost_db) ∧
    getGalleryPage (VNum 0) (VNum 2) (GalleryQuery VUndef VUndef VUndef) VUndef lost_db
    = (inr (rows ++ rows'), lost_db).
Proof.
  destruct (getGalleryPage_of_everything 0 1 lost_db eq_refl) as [rows H].
  destruct (getGalleryPage_pages_tile_the_listing 0 1 1
              (GalleryQuery VUndef VUndef VUndef) VUndef lost_db rows eq_refl
              ltac:(done) ltac:(done) ltac:(done) H) as (_ & _ & rows' & H1 & H2).
  exists rows, rows'. split_and!; [exact H|exact H1|exact H2].
Defined.


Import DownloadContent.



(** The record whose file name ends in a dot. *)
Lemma rows_that_cannot_be_downloaded_are_skipped_witness :
  ends_with_dot (to_string (col "content_name" dotted)) = true ∧
  downloadSpecificContent always_succeeding dotted dotted_world
  = (inr (), dotted_world).
Proof.
  assert (ends_with_dot (to_string (col "content_name" dotted)) = true)
    as Hdot by by vm_compute.
  split; [exact Hdot|].
  apply (rows_that_cannot_be_downloaded_are_skipped always_succeeding dotted
           dotted_world eq_refl eq_refl).
  by right.
Defined.

(** A transfer that would succeed at the seventh attempt is not made. *)
Lemma downloadSetup_makes_at_most_six_attempts_witness :
  downloadSetup always_failing (VStr "https://d.fa/art/bob/art.png")
    (VStr "art.png") (VStr "bob") "gallery" 0 art_world
  = downloadSetup seventh_time_lucky (VStr "https://d.fa/art/bob/art.png")
      (VStr "art.png") (VStr "bob") "gallery" 0 art_world.
Proof.
  apply (downloadSetup_makes_at_most_six_attempts always_failing
           seventh_time_lucky).
  intros j Hj. unfold seventh_time_lucky.
  change maxRetries with 5%nat in Hj.
  by rewrite (proj2 (Nat.leb_le j 5) Hj).
Defined.


(** [art] has no thumbnail url and its page cannot be read. *)
Lemma record_without_thumbnail_stays_in_the_poll_witness :
  truthy (col "thumbnail_url" art) = false ∧
  downloadThumbnail NoPage always_succeeding art art_world
  = (inr (), logged [Fetched (to_string (col "url" art))] art_world).
Proof.
  assert (truthy (col "thumbnail_url" art) = false) as Ht by by vm_compute.
  split; [exact Ht|].
  apply (record_without_thumbnail_stays_in_the_poll NoPage always_succeeding art
           art_world Ht); [by left|reflexivity|reflexivity].
Defined.

Import ScrapeData.

(** A walk over the twenty links of [page1] and an empty page. *)
Lemma walker_report_counts_earlier_pages_again_witness :
  (getSubmissionLinks "https://fa/gallery/bob/" "bob" false false
     [Loaded page1; Loaded (Listing [] None)] art_world).1 = inr (Some ()) ∧
  last (trace (getSubmissionLinks "https://fa/gallery/bob/" "bob" false false
                 [Loaded page1; Loaded (Listing [] None)] art_world).2)
  = Some (Reported 20 20 0).
Proof.
  pose proof (walker_report_counts_earlier_pages_again "https://fa/gallery/bob/"
                "bob" false [page1] None art_world eq_refl eq_refl) as H.
  cbv zeta in H. destruct H as (H1 & _ & H2 & _).
  - repeat constructor. by vm_compute.
  - split; [exact H1|exact H2].
Defined.

(** The first of [two_links] was deleted on the site. *)
Lemma deleted_submission_is_removed_and_fetched_again_witness :
  two_links !! 0%nat = Some (mk_row [("url", VStr "https://fa/view/7/")]) ∧
  harvest false two_links [Deleted; Deleted; Deleted; Submission tale_page] 0 0
    two_links_world
  = harvest false two_links [Submission tale_page] 1 0
      (World (with_subdata
                (filter (λ r, col "url" r ≠ VStr "https://fa/view/7/")
                   (subdata (store two_links_world)))
                (store two_links_world))
             (files two_links_world) false
             (trace two_links_world
                ++ [ Fetched "https://fa/view/7/"; Waited 30000;
                     Fetched "https://fa/view/7/"; Waited 60000;
                     Fetched "https://fa/view/7/"; WaitedRandom 2000 3500 ])).
Proof.
  split; [reflexivity|].
  apply (deleted_submission_is_removed_and_fetched_again false two_links
           [Submission tale_page] 0 (mk_row [("url", VStr "https://fa/view/7/")])
           "https://fa/view/7/" two_links_world);
    [reflexivity|by vm_compute|reflexivity|reflexivity].
Defined.

(** The page of the first of [two_links] has no description. *)
Lemma harvest_rejects_on_an_incomplete_page_witness :
  p_desc torn_page = None ∧
  harvest false two_links [Submission torn_page; Submission tale_page] 0 0
    two_links_world
  = (inl (TypeError "Cannot read properties of undefined"),
     logged [Fetched (to_string (col "url" (mk_row [("url", VStr "https://fa/view/7/")])))]
       two_links_world).
Proof.
  split; [reflexivity|].
  apply (harvest_rejects_on_an_incomplete_page false two_links
           [Submission tale_page] 0 0 (mk_row [("url", VStr "https://fa/view/7/")])
           torn_page two_links_world); [reflexivity|reflexivity|].
  right. by left.
Defined.

(** The data of [tale_page] saved for the second of [two_links]. *)
Lemma harvested_submission_leaves_the_link_queue_witness :
  ∃ data d',
    (extract (VStr "https://fa/view/8/") tale_page two_links_world).1 = inr data ∧
    saveMetaData (VStr "https://fa/view/8/") data (store two_links_world)
    = (inr RunResult, d') ∧
    ∀ r, r ∈ subdata d' → col "url" r = VStr "https://fa/view/8/" →
         is_null (col "id" r) = false.
Proof.
  destruct (extract (VStr "https://fa/view/8/") tale_page two_links_world)
    as [[e|data] w'] eqn:He; [by vm_compute in He|].
  destruct (saveMetaData (VStr "https://fa/view/8/") data (store two_links_world))
    as [r d'] eqn:Hs.
  assert (r = inr RunResult) as ->.
  { pose proof He as He'. vm_compute in He'. injection He' as Hd _. subst data.
    vm_compute in Hs. by injection Hs as <- _. }
  exists data, d'. split_and!; [done|done|].
  exact (proj1 (harvested_submission_leaves_the_link_queue "https://fa/view/8/"
                  tale_page two_links_world w' data (store two_links_world) d'
                  He Hs)).
Defined.

(** Six answers are enough for [two_links]. *)
Lemma harvest_needs_three_answers_per_link_witness :
  (harvest false two_links
     [NoResponse; Untitled; NoResponse; Deleted; NoResponse; Submission tale_page]
     0 0 two_links_world).1 ≠ inr None.
Proof.
  apply (harvest_needs_three_answers_per_link false two_links
           [NoResponse; Untitled; NoResponse; Deleted; NoResponse;
            Submission tale_page] 0 0 two_links_world).
  - apply (bool_decide_unpack _). by vm_compute.
  - apply (bool_decide_unpack _). by vm_compute.
Defined.

(** The page of submission 8. *)
Lemma extract_reads_the_page_witness :
  ∃ fields,
    (extract (VStr "https://fa/view/8/") tale_page two_links_world).1
    = inr (Obj fields) ∧
    ("id", VStr "8") ∈ fields ∧
    ("content_url", VStr "https://d.fa/stories/bob/tale.txt") ∈ fields ∧
    ("content_name", VStr "tale.txt") ∈ fields.
Proof.
  destruct (extract (VStr "https://fa/view/8/") tale_page two_links_world)
    as [[e|data] w'] eqn:He; [by vm_compute in He|].
  destruct (extract_reads_the_page "https://fa" "8" "" tale_page two_links_world
              w' data) as (fields & owner & href & -> & _ & Hh & Hid & _ & _ & _ & _
                           & _ & (cu & Hu & _ & Hcu & _) & Hn).
  - repeat constructor; by vm_compute.
  - repeat constructor; by vm_compute.
  - exact He.
  - injection Hh as <-. rewrite Hcu in Hu by reflexivity.
    exists fields. split_and!; [done|exact Hid|exact Hu|exact Hn].
Defined.
